(** * node-ts-boilerplate: the authentication / session-token subsystem

    A shallow embedding of [src/utils/jwt.ts], [src/controllers/authController.ts],
    [src/schemas/authSchemas.ts], [src/middleware/validation.ts],
    [src/middleware/auth.ts] and [src/routes/authRoutes.ts], with the
    properties the specification states about them and further properties
    of the code.

    Conventions.
    - A JavaScript string is a [string]; its characters are read as the
      UTF-16 code units 0..255.
    - A JavaScript number that holds an integer is a [Z].  With a clock
      that reads a time after the epoch, every integer the modelled code
      computes before it reaches [new Date] is either exact (below 2^53) or
      already out of the range of [Date].
    - Handlers thread a [World] (database, log, clock) and may throw; the
      clock is read as one instant for the whole of a request.
    - The database answers every query: a query throws only when a
      constraint of a table is violated or a value cannot be written.
    - A request body has the members its schema names, and they are
      strings.
    - The libraries ([jsonwebtoken], [bcryptjs], [zod]) are interfaces; what
      is assumed of them is stated as laws, and a transparent instance
      lets the model run.

    The file has the model first (the code, then the notions the
    statements use, then the instance), and the lemmas and theorems
    after it. *)

From Stdlib Require Import ZArith List String Ascii Bool Lia.
From Stdlib Require DecimalString.
Import ListNotations.

Open Scope string_scope.
Open Scope list_scope.
Open Scope Z_scope.

(* ================================================================== *)
(** * JavaScript primitives used by the code *)
(* ================================================================== *)

Module Js.

(** Code unit of a character. *)
Definition code (c : ascii) : Z := Z.of_N (N_of_ascii c).

Definition in_range (lo hi : Z) (c : ascii) : bool :=
  (lo <=? code c) && (code c <=? hi).

(** [\d] of a regular expression without the unicode flag: [0-9]. *)
Definition is_digit : ascii -> bool := in_range 48 57.
(** [[a-z]] and [[A-Z]]. *)
Definition is_lower : ascii -> bool := in_range 97 122.
Definition is_upper : ascii -> bool := in_range 65 90.

(** Line terminators ([.] of a regular expression does not match them). *)
Definition is_line_terminator (c : ascii) : bool :=
  (code c =? 10) || (code c =? 13).

(** White space and line terminators removed by [String.prototype.trim]
    (those below 256). *)
Definition is_space (c : ascii) : bool :=
  in_range 9 13 c || (code c =? 32) || (code c =? 160).

Fixpoint all (p : ascii -> bool) (s : string) : bool :=
  match s with
  | EmptyString => true
  | String c r => p c && all p r
  end.

Fixpoint any (p : ascii -> bool) (s : string) : bool :=
  match s with
  | EmptyString => false
  | String c r => p c || any p r
  end.

Fixpoint map (f : ascii -> ascii) (s : string) : string :=
  match s with
  | EmptyString => EmptyString
  | String c r => String (f c) (map f r)
  end.

Definition len (s : string) : Z := Z.of_nat (String.length s).

(** [String.prototype.toLowerCase] on the code units 0..255: the ASCII
    capitals and the Latin-1 capitals (U+00C0..U+00DE but U+00D7) move up
    by 32. *)
Definition lower_char (c : ascii) : ascii :=
  if is_upper c || (in_range 192 222 c && negb (code c =? 215))
  then ascii_of_N (N_of_ascii c + 32)
  else c.

Definition toLowerCase : string -> string := map lower_char.

(** [String.prototype.trim]. *)
Fixpoint trimStart (s : string) : string :=
  match s with
  | EmptyString => EmptyString
  | String c r => if is_space c then trimStart r else s
  end.

Fixpoint trimEnd (s : string) : string :=
  match s with
  | EmptyString => EmptyString
  | String c r =>
      match trimEnd r with
      | EmptyString => if is_space c then EmptyString else String c EmptyString
      | r' => String c r'
      end
  end.

Definition trim (s : string) : string := trimEnd (trimStart s).

(** The digits of a string read in base ten, most significant first. *)
Definition digit_value (c : ascii) : Z := code c - 48.

Fixpoint decimal_from (acc : Z) (s : string) : Z :=
  match s with
  | EmptyString => acc
  | String c r => decimal_from (10 * acc + digit_value c) r
  end.

Fixpoint take_digits (s : string) : string :=
  match s with
  | EmptyString => EmptyString
  | String c r => if is_digit c then String c (take_digits r) else EmptyString
  end.

(** [parseInt(s)] for a string that starts with a digit or with another
    character that is neither white space nor a sign: the leading digits
    in base ten, [None] (NaN) when there is none. *)
Definition parseInt (s : string) : option Z :=
  match take_digits s with
  | EmptyString => None
  | ds => Some (decimal_from 0 ds)
  end.

(** [a || b] on strings that may be undefined: [a] unless it is falsy
    (undefined or the empty string). *)
Definition or_else (a : option string) (b : string) : string :=
  match a with
  | Some s => if String.eqb s EmptyString then b else s
  | None => b
  end.

(** A [Date]: a time value in milliseconds since the epoch, or the
    Invalid Date. *)
Inductive Date : Type :=
| ValidDate (ms : Z)
| InvalidDate.

Definition max_time : Z := 8640000000000000.

(** [new Date(v)]: TimeClip keeps a time value of magnitude at most
    8.64e15 and turns every other into NaN. *)
Definition new_Date (v : Z) : Date :=
  if Z.abs v <=? max_time then ValidDate v else InvalidDate.

(** A thrown value: an [Error] with its message. *)
Record Error : Type := mkError { name : string; message : string }.

Definition Error_ (msg : string) : Error := mkError "Error" msg.

End Js.

(* ================================================================== *)
(** * Effects: database, log and clock, with exceptions *)
(* ================================================================== *)

(** ** Rows of the two tables *)

(** Modelled from the spec: the table declarations of [src/db/schema.ts]
    are not among the sources.  Section 3 of the specification gives the
    columns: a user has a generated unique id, a unique email, a password
    hash, a role that defaults to [user], an active flag that defaults to
    true and two timestamps. *)
Record User : Type := mkUser {
  user_id : Z;
  user_name : string;
  user_email : string;
  user_password : string;
  user_role : string;
  user_isActive : bool;
  user_createdAt : Z;
  user_updatedAt : Z
}.

(** [SafeUser]: a user without the password column. *)
Record SafeUser : Type := mkSafeUser {
  su_id : Z;
  su_name : string;
  su_email : string;
  su_role : string;
  su_isActive : bool;
  su_createdAt : Z;
  su_updatedAt : Z
}.

(** [const { password: _, ...safeUser } = user]. *)
Definition omit_password (u : User) : SafeUser :=
  mkSafeUser (user_id u) (user_name u) (user_email u) (user_role u)
             (user_isActive u) (user_createdAt u) (user_updatedAt u).

(** Modelled from the spec: the [refresh_tokens] table of
    [src/db/schema.ts], which is not among the sources: a generated unique
    id, the owning user, the unique token string, the expiry and the
    creation time. *)
Record RefreshTokenRow : Type := mkRefreshTokenRow {
  rt_id : Z;
  rt_userId : Z;
  rt_token : string;
  rt_expiresAt : Z;
  rt_createdAt : Z
}.

Record Db : Type := mkDb {
  users : list User;
  refreshTokens : list RefreshTokenRow;
  users_seq : Z;            (* last value of the users id sequence *)
  refreshTokens_seq : Z     (* last value of the refresh_tokens id sequence *)
}.

(** ** The log *)

Inductive Level : Type := Info | Warn | LError.

(** [ValidationError] of [src/middleware/validation.ts]. *)
Record ValidationError : Type := mkValidationError {
  field : string;
  ve_message : string
}.

Inductive LogValue : Type :=
| LStr (s : string)
| LNum (n : Z)
| LUndefined
| LObject (members : list (string * string))
| LIssues (issues : list ValidationError).

Record LogEntry : Type := mkLog {
  log_level : Level;
  log_fields : list (string * LogValue);
  log_msg : string
}.

(** ** The world a handler runs in *)

Record World : Type := mkWorld {
  db : Db;
  log : list LogEntry;
  clock : Z                 (* the reading of [Date.now()] during the request *)
}.

Definition with_db (d : Db) (w : World) : World := mkWorld d (log w) (clock w).
Definition with_clock (t : Z) (w : World) : World := mkWorld (db w) (log w) t.

(** ** Computations that read and write the world and may throw *)

Inductive Outcome (A : Type) : Type :=
| Return (a : A)
| Throw (e : Js.Error).
Arguments Return {A} a.
Arguments Throw {A} e.

Definition M (A : Type) : Type := World -> Outcome A * World.

Definition ret {A} (a : A) : M A := fun w => (Return a, w).

Definition throw {A} (e : Js.Error) : M A := fun w => (Throw e, w).

Definition bind {A B} (m : M A) (k : A -> M B) : M B :=
  fun w =>
    match m w with
    | (Return a, w') => k a w'
    | (Throw e, w') => (Throw e, w')
    end.

(** [try { m } catch (error) { h error }]: what [m] did to the world before
    it threw stays done. *)
Definition try_catch {A} (m : M A) (h : Js.Error -> M A) : M A :=
  fun w =>
    match m w with
    | (Return a, w') => (Return a, w')
    | (Throw e, w') => h e w'
    end.

Declare Scope js_scope.
Delimit Scope js_scope with js.
Notation "x <- m ;; k" := (bind m (fun x => k))
  (at level 100, m at next level, right associativity) : js_scope.
Notation "m ;;; k" := (bind m (fun _ => k))
  (at level 100, right associativity) : js_scope.
Open Scope js_scope.

Definition now : M Z := fun w => (Return (clock w), w).

Definition get_db : M Db := fun w => (Return (db w), w).

Definition put_db (d : Db) : M unit := fun w => (Return tt, with_db d w).

Definition logger (l : Level) (fields : list (string * LogValue)) (msg : string)
  : M unit :=
  fun w => (Return tt, mkWorld (db w) (log w ++ [mkLog l fields msg]) (clock w)).

(* ================================================================== *)
(** * src/utils/jwt.ts: getTokenExpirationTime *)
(* ================================================================== *)

(** Last character of a string and what is before it. *)
Fixpoint split_last (s : string) : option (string * ascii) :=
  match s with
  | EmptyString => None
  | String c r =>
      match split_last r with
      | None => Some (EmptyString, c)
      | Some (p, l) => Some (String c p, l)
      end
  end.

Definition is_unit (c : ascii) : bool :=
  (Ascii.eqb c "s" || Ascii.eqb c "m" || Ascii.eqb c "h" || Ascii.eqb c "d")%char.

(** [expiresIn.match(/^(\d+)([smhd])$/)]: the two groups, or [None]. *)
Definition match_expiresIn (s : string) : option (string * ascii) :=
  match split_last s with
  | Some (amount, unit) =>
      if negb (String.eqb amount EmptyString) && Js.all Js.is_digit amount && is_unit unit
      then Some (amount, unit)
      else None
  | None => None
  end.

(** The [milliseconds] table; a key that is not in it reads [undefined]. *)
Definition milliseconds (unit : ascii) : option Z :=
  (if Ascii.eqb unit "s" then Some 1000
   else if Ascii.eqb unit "m" then Some (60 * 1000)
   else if Ascii.eqb unit "h" then Some (60 * 60 * 1000)
   else if Ascii.eqb unit "d" then Some (24 * 60 * 60 * 1000)
   else None)%char.

Definition getTokenExpirationTime (expiresIn : string) : M Js.Date :=
  t <- now ;;
  match match_expiresIn expiresIn with
  | None => throw (Js.Error_ "Invalid expires in format")
  | Some (amount, unit) =>
      match milliseconds unit with
      | None => throw (Js.Error_ "Invalid time unit")
      | Some multiplier =>
          match Js.parseInt amount with
          | Some n => ret (Js.new_Date (t + n * multiplier))
          | None => ret Js.InvalidDate
          end
      end
  end.

(* ================================================================== *)
(** * The libraries the code calls *)
(* ================================================================== *)

(** [JwtPayload] of [src/utils/jwt.ts]. *)
Record JwtPayload : Type := mkJwtPayload {
  userId : Z;
  email : string;
  role : string;
  iat : option Z;
  exp : option Z
}.

(** Seconds in a unit of [getTokenExpirationTime]'s table (zero for any
    other character). *)
Definition unit_seconds (unit : ascii) : Z :=
  match milliseconds unit with
  | Some m => m / 1000
  | None => 0
  end.

(** [jsonwebtoken]: the compact serialisation with its signature, and the
    reading of a timespan (the [ms] package).
    - [jwt_encode secret claims] is the signed token;
    - [jwt_decode token secret] checks the shape and the signature and gives
      the claims back, or the error [jwt.verify] throws;
    - [jwt_timespan s] is the number of seconds [expiresIn: s] stands for, or
      the error [jwt.sign] throws for it. *)
Class JsonWebToken : Type := {
  jwt_encode : string -> JwtPayload -> string;
  jwt_decode : string -> string -> Js.Error + JwtPayload;
  jwt_timespan : string -> Js.Error + Z
}.

(** What is assumed of [jsonwebtoken]: a token decodes, under the secret
    it was signed with, to the claims it was made of; and a run of digits
    followed by one of [s], [m], [h], [d] is read as that many seconds,
    minutes, hours or days (the [ms] package reads strings of up to 100
    characters, in floating point). *)
Class JsonWebTokenLaws (JWT : JsonWebToken) : Prop := {
  jwt_decode_encode :
    forall secret claims, jwt_decode (jwt_encode secret claims) secret = inr claims;
  jwt_timespan_unit :
    forall amount unit,
      amount <> EmptyString ->
      Js.all Js.is_digit amount = true ->
      is_unit unit = true ->
      Js.len amount < 100 ->
      Js.decimal_from 0 amount * 86400000 < 2 ^ 53 ->
      jwt_timespan (amount ++ String unit EmptyString)
      = inr (Js.decimal_from 0 amount * unit_seconds unit)
}.

(** [bcryptjs]: [bcrypt_hash password rounds] and
    [bcrypt_compare password hash].  The salt a hash is made with is the
    library's affair and is not part of the model. *)
Class Bcrypt : Type := {
  bcrypt_hash : string -> Z -> string;
  bcrypt_compare : string -> string -> bool
}.

(** [zod]: the test behind [z.string().email()]. *)
Class Zod : Type := {
  zod_is_email : string -> bool
}.

(** [process.env]: the variables the code reads. *)
Record ProcessEnv : Type := mkEnv {
  env_JWT_SECRET : option string;
  env_JWT_EXPIRES_IN : option string;
  env_JWT_REFRESH_SECRET : option string;
  env_JWT_REFRESH_EXPIRES_IN : option string
}.

Definition empty_env : ProcessEnv := mkEnv None None None None.

(* ================================================================== *)
(** * src/utils/jwt.ts: the token codec *)
(* ================================================================== *)

Section Jwt.

Context {JWT : JsonWebToken}.

(** [process.env] when the module is loaded: the four constants are read
    once. *)
Variable boot : ProcessEnv.

Definition JWT_SECRET : string :=
  Js.or_else (env_JWT_SECRET boot) "your-super-secret-jwt-key".
Definition JWT_EXPIRES_IN : string :=
  Js.or_else (env_JWT_EXPIRES_IN boot) "15m".
Definition JWT_REFRESH_SECRET : string :=
  Js.or_else (env_JWT_REFRESH_SECRET boot) "your-super-secret-refresh-key".
Definition JWT_REFRESH_EXPIRES_IN : string :=
  Js.or_else (env_JWT_REFRESH_EXPIRES_IN boot) "7d".

(** [jwt.sign(payload, secret, { expiresIn })]: [iat] is the clock in whole
    seconds and [exp] is [iat] plus the timespan. *)
Definition jwt_sign (uid : Z) (mail rl : string) (secret expiresIn : string)
  : M string :=
  t <- now ;;
  let timestamp := t / 1000 in
  match jwt_timespan expiresIn with
  | inl e => throw e
  | inr span =>
      ret (jwt_encode secret
             (mkJwtPayload uid mail rl (Some timestamp) (Some (timestamp + span))))
  end.

(** [jwt.verify(token, secret)]: the signature, then the expiry against
    the clock in whole seconds. *)
Definition jwt_verify (token secret : string) : M JwtPayload :=
  t <- now ;;
  let clockTimestamp := t / 1000 in
  match jwt_decode token secret with
  | inl e => throw e
  | inr payload =>
      match exp payload with
      | Some e =>
          if clockTimestamp >=? e
          then throw (Js.mkError "TokenExpiredError" "jwt expired")
          else ret payload
      | None => ret payload
      end
  end.

Definition generateAccessToken (user : SafeUser) : M string :=
  jwt_sign (su_id user) (su_email user) (su_role user) JWT_SECRET JWT_EXPIRES_IN.

Definition generateRefreshToken (user : SafeUser) : M string :=
  jwt_sign (su_id user) (su_email user) (su_role user)
           JWT_REFRESH_SECRET JWT_REFRESH_EXPIRES_IN.

Definition verifyAccessToken (token : string) : M (option JwtPayload) :=
  try_catch
    (payload <- jwt_verify token JWT_SECRET ;; ret (Some payload))
    (fun error =>
       let errorMessage := Js.message error in
       logger Warn [("error", LStr errorMessage)]
              "Access token verification failed" ;;;
       ret None).

Definition verifyRefreshToken (token : string) : M (option JwtPayload) :=
  try_catch
    (payload <- jwt_verify token JWT_REFRESH_SECRET ;; ret (Some payload))
    (fun error =>
       let errorMessage := Js.message error in
       logger Warn [("error", LStr errorMessage)]
              "Refresh token verification failed" ;;;
       ret None).

End Jwt.

(* ================================================================== *)
(** * The database: the drizzle queries the controller issues *)
(* ================================================================== *)

Module Query.

Definition unique_violation : Js.Error :=
  Js.mkError "DatabaseError" "duplicate key value violates unique constraint".
Definition foreign_key_violation : Js.Error :=
  Js.mkError "DatabaseError" "insert or update on table violates foreign key constraint".
Definition invalid_time_value : Js.Error :=
  Js.mkError "RangeError" "Invalid time value".

Definition email_is (e : string) (u : User) : bool := String.eqb (user_email u) e.
Definition id_is (i : Z) (u : User) : bool := user_id u =? i.
Definition token_is (t : string) (r : RefreshTokenRow) : bool :=
  String.eqb (rt_token r) t.
Definition row_id_is (i : Z) (r : RefreshTokenRow) : bool := rt_id r =? i.

(** [db.select().from(users).where(eq(users.email, e)).limit(1)] *)
Definition users_by_email (e : string) : M (list User) :=
  d <- get_db ;; ret (firstn 1 (filter (email_is e) (users d))).

(** [db.select().from(users).where(eq(users.id, i)).limit(1)] *)
Definition users_by_id (i : Z) : M (list User) :=
  d <- get_db ;; ret (firstn 1 (filter (id_is i) (users d))).

(** [db.select().from(refreshTokens).where(eq(refreshTokens.token, t)).limit(1)] *)
Definition refreshTokens_by_token (t : string) : M (list RefreshTokenRow) :=
  d <- get_db ;; ret (firstn 1 (filter (token_is t) (refreshTokens d))).

(** Modelled from the spec: what the [users] table of [src/db/schema.ts]
    does with an insert.  The id is generated, the email is unique, the
    role defaults to [user] and the active flag to true.
    [db.insert(users).values({ name, email, password }).returning()] *)
Definition insert_user (name_ email_ password_ : string) : M (list User) :=
  d <- get_db ;;
  t <- now ;;
  let i := users_seq d + 1 in
  if existsb (email_is email_) (users d)
  then put_db (mkDb (users d) (refreshTokens d) i (refreshTokens_seq d)) ;;;
       throw unique_violation
  else
    let u := mkUser i name_ email_ password_ "user" true t t in
    put_db (mkDb (users d ++ [u]) (refreshTokens d) i (refreshTokens_seq d)) ;;;
    ret [u].

(** Modelled from the spec: what the [refresh_tokens] table of
    [src/db/schema.ts] does with an insert.  The id is generated, the token
    is unique and the user id refers to a user; a date that is not valid
    cannot be written.
    [db.insert(refreshTokens).values({ userId, token, expiresAt })] *)
Definition insert_refreshToken (uid : Z) (token : string) (expiresAt : Js.Date)
  : M unit :=
  match expiresAt with
  | Js.InvalidDate => throw invalid_time_value
  | Js.ValidDate e =>
      d <- get_db ;;
      t <- now ;;
      let i := refreshTokens_seq d + 1 in
      if existsb (token_is token) (refreshTokens d)
      then put_db (mkDb (users d) (refreshTokens d) (users_seq d) i) ;;;
           throw unique_violation
      else if negb (existsb (id_is uid) (users d))
      then put_db (mkDb (users d) (refreshTokens d) (users_seq d) i) ;;;
           throw foreign_key_violation
      else
        put_db (mkDb (users d)
                     (refreshTokens d ++ [mkRefreshTokenRow i uid token e t])
                     (users_seq d) i)
  end.

(** [db.delete(refreshTokens).where(eq(refreshTokens.id, i))] *)
Definition delete_refreshToken_by_id (i : Z) : M unit :=
  d <- get_db ;;
  put_db (mkDb (users d)
               (filter (fun r => negb (row_id_is i r)) (refreshTokens d))
               (users_seq d) (refreshTokens_seq d)).

(** [db.delete(refreshTokens).where(eq(refreshTokens.token, t))] *)
Definition delete_refreshToken_by_token (t : string) : M unit :=
  d <- get_db ;;
  put_db (mkDb (users d)
               (filter (fun r => negb (token_is t r)) (refreshTokens d))
               (users_seq d) (refreshTokens_seq d)).

End Query.

(* ================================================================== *)
(** * src/types: the response *)
(* ================================================================== *)

(** The [data] member of the responses of the auth routes. *)
Inductive Data : Type :=
| AuthResponse (user : SafeUser) (accessToken refreshToken : string)
| TokenPair (accessToken refreshToken : string)
| Profile (user : SafeUser)
| Null.

Record ApiResponse : Type := mkApiResponse {
  success : bool;
  data : option Data;
  error : option string;
  message : option string;
  details : option (list ValidationError)
}.

(** [res.status(s).json(b)] *)
Record Response : Type := mkResponse {
  status : Z;
  body : ApiResponse
}.

(** [{ success: false, error }] *)
Definition failure (s : Z) (err : string) : Response :=
  mkResponse s (mkApiResponse false None (Some err) None None).

(** [{ success: true, data, message }] *)
Definition succeeded (s : Z) (d : Data) (msg : string) : Response :=
  mkResponse s (mkApiResponse true (Some d) None (Some msg) None).

(* ================================================================== *)
(** * src/schemas/authSchemas.ts and src/middleware/validation.ts *)
(* ================================================================== *)

Record RegisterInput : Type := mkRegisterInput {
  reg_name : string;
  reg_email : string;
  reg_password : string
}.

Record LoginInput : Type := mkLoginInput {
  login_email : string;
  login_password : string
}.

Record RefreshTokenInput : Type := mkRefreshTokenInput {
  refreshToken_field : string
}.

Section Schemas.

Context {ZOD : Zod}.

(** One check of a zod string: the issue it raises when it fails. *)
Definition check (path : string) (ok : bool) (msg : string) : list ValidationError :=
  if ok then [] else [mkValidationError path msg].

(** What [.] of a regular expression can run over from the start: the
    characters before the first line terminator. *)
Fixpoint first_line (s : string) : string :=
  match s with
  | EmptyString => EmptyString
  | String c r => if Js.is_line_terminator c then EmptyString
                  else String c (first_line r)
  end.

(** [/^(?=.*[a-z])(?=.*[A-Z])(?=.*\d)/] *)
Definition password_regex (s : string) : bool :=
  Js.any Js.is_lower (first_line s) &&
  Js.any Js.is_upper (first_line s) &&
  Js.any Js.is_digit (first_line s).

(** [registerSchema.parse]: each member's checks run in the order they are
    written, on the string as the transformations before them left it. *)
Definition registerSchema (b : RegisterInput)
  : list ValidationError + RegisterInput :=
  let issues :=
    check "name" (1 <=? Js.len (reg_name b)) "Name is required" ++
    check "name" (Js.len (reg_name b) <=? 255)
          "Name must be less than 255 characters" ++
    check "email" (zod_is_email (reg_email b)) "Invalid email format" ++
    check "email" (Js.len (reg_email b) <=? 255)
          "Email must be less than 255 characters" ++
    check "password" (6 <=? Js.len (reg_password b))
          "Password must be at least 6 characters" ++
    check "password" (Js.len (reg_password b) <=? 100)
          "Password must be less than 100 characters" ++
    check "password" (password_regex (reg_password b))
          "Password must contain at least one lowercase letter, one uppercase letter, and one number"
  in
  match issues with
  | [] => inr (mkRegisterInput (Js.trim (reg_name b))
                               (Js.trim (Js.toLowerCase (reg_email b)))
                               (reg_password b))
  | _ => inl issues
  end.

Definition loginSchema (b : LoginInput) : list ValidationError + LoginInput :=
  let issues :=
    check "email" (zod_is_email (login_email b)) "Invalid email format" ++
    check "password" (1 <=? Js.len (login_password b)) "Password is required"
  in
  match issues with
  | [] => inr (mkLoginInput (Js.trim (Js.toLowerCase (login_email b)))
                            (login_password b))
  | _ => inl issues
  end.

Definition refreshTokenSchema (b : RefreshTokenInput)
  : list ValidationError + RefreshTokenInput :=
  let issues :=
    check "refreshToken" (1 <=? Js.len (refreshToken_field b))
          "Refresh token is required"
  in
  match issues with
  | [] => inr b
  | _ => inl issues
  end.

(** [validateBody(schema)] followed by the handler [next] of the route.
    The body is logged as it came. *)
Definition validateBody {A} (schema : A -> list ValidationError + A)
           (show : A -> list (string * string)) (req_body : A)
           (next : A -> M Response)
  : M Response :=
  match schema req_body with
  | inr validatedData => next validatedData
  | inl validationErrors =>
      logger Warn [("errors", LIssues validationErrors);
                   ("body", LObject (show req_body))]
             "Body validation failed" ;;;
      ret (mkResponse 400
             (mkApiResponse false None (Some "Validation failed") None
                            (Some validationErrors)))
  end.

End Schemas.

(* ================================================================== *)
(** * src/controllers/authController.ts *)
(* ================================================================== *)

Section AuthController.

Context {JWT : JsonWebToken} {BCRYPT : Bcrypt}.

(** [process.env] when [utils/jwt] was loaded, and when a request is
    served. *)
Variable boot : ProcessEnv.
Variable env : ProcessEnv.

(** [process.env.JWT_REFRESH_EXPIRES_IN || '7d'] *)
Definition refreshLifetime : string :=
  Js.or_else (env_JWT_REFRESH_EXPIRES_IN env) "7d".

(** [req.user?.userId] *)
Definition userId_of (req_user : option JwtPayload) : LogValue :=
  match req_user with
  | Some p => LNum (userId p)
  | None => LUndefined
  end.

(** Register new user *)
Definition register (req_body : RegisterInput) : M Response :=
  try_catch
    (let name_ := reg_name req_body in
     let email_ := reg_email req_body in
     let password_ := reg_password req_body in
     (* Check if user already exists *)
     existingUser <- Query.users_by_email email_ ;;
     match existingUser with
     | _ :: _ =>
         logger Warn [("email", LStr email_)]
                "Registration failed: user already exists" ;;;
         ret (failure 400 "User with this email already exists")
     | [] =>
         (* Hash password *)
         let saltRounds := 12 in
         let hashedPassword := bcrypt_hash password_ saltRounds in
         (* Create user *)
         newUser <- Query.insert_user name_ email_ hashedPassword ;;
         match newUser with
         | [] => throw (Js.mkError "TypeError" "Cannot destructure undefined")
         | user :: _ =>
             let safeUser := omit_password user in
             (* Generate tokens *)
             accessToken <- generateAccessToken boot safeUser ;;
             refreshToken <- generateRefreshToken boot safeUser ;;
             (* Store refresh token *)
             expiresAt <- getTokenExpirationTime refreshLifetime ;;
             Query.insert_refreshToken (user_id user) refreshToken expiresAt ;;;
             logger Info [("userId", LNum (user_id user)); ("email", LStr email_)]
                    "User registered successfully" ;;;
             ret (succeeded 201 (AuthResponse safeUser accessToken refreshToken)
                            "User registered successfully")
         end
     end)
    (fun error =>
       logger LError [("error", LStr (Js.message error));
                      ("email", LStr (reg_email req_body))]
              "Failed to register user" ;;;
       ret (failure 500 "Failed to register user")).

(** Login user *)
Definition login (req_body : LoginInput) : M Response :=
  try_catch
    (let email_ := login_email req_body in
     let password_ := login_password req_body in
     (* Find user *)
     foundUsers <- Query.users_by_email email_ ;;
     match foundUsers with
     | [] =>
         logger Warn [("email", LStr email_)] "Login failed: user not found" ;;;
         ret (failure 401 "Invalid email or password")
     | user :: _ =>
         (* Check if user is active *)
         if negb (user_isActive user)
         then
           logger Warn [("userId", LNum (user_id user)); ("email", LStr email_)]
                  "Login failed: user account is inactive" ;;;
           ret (failure 401 "Account is inactive")
         else
           (* Verify password *)
           let isPasswordValid := bcrypt_compare password_ (user_password user) in
           if negb isPasswordValid
           then
             logger Warn [("userId", LNum (user_id user)); ("email", LStr email_)]
                    "Login failed: invalid password" ;;;
             ret (failure 401 "Invalid email or password")
           else
             let safeUser := omit_password user in
             (* Generate tokens *)
             accessToken <- generateAccessToken boot safeUser ;;
             refreshToken <- generateRefreshToken boot safeUser ;;
             (* Store refresh token *)
             expiresAt <- getTokenExpirationTime refreshLifetime ;;
             Query.insert_refreshToken (user_id user) refreshToken expiresAt ;;;
             logger Info [("userId", LNum (user_id user)); ("email", LStr email_)]
                    "User logged in successfully" ;;;
             ret (succeeded 200 (AuthResponse safeUser accessToken refreshToken)
                            "Logged in successfully")
     end)
    (fun error =>
       logger LError [("error", LStr (Js.message error));
                      ("email", LStr (login_email req_body))]
              "Failed to login user" ;;;
       ret (failure 500 "Failed to login")).

(** Refresh access token *)
Definition refreshToken (req_body : RefreshTokenInput) : M Response :=
  try_catch
    (let token := refreshToken_field req_body in
     (* Verify refresh token *)
     payload <- verifyRefreshToken boot token ;;
     match payload with
     | None => ret (failure 403 "Invalid refresh token")
     | Some payload =>
         (* Check if token exists in database *)
         storedTokens <- Query.refreshTokens_by_token token ;;
         match storedTokens with
         | [] =>
             logger Warn [("userId", LNum (userId payload))]
                    "Refresh token not found in database" ;;;
             ret (failure 403 "Invalid refresh token")
         | storedToken :: _ =>
             (* Check if token is expired *)
             t <- now ;;
             if t >? rt_expiresAt storedToken
             then
               Query.delete_refreshToken_by_id (rt_id storedToken) ;;;
               ret (failure 403 "Refresh token expired")
             else
               (* Get user *)
               foundUsers <- Query.users_by_id (userId payload) ;;
               match foundUsers with
               | [] => ret (failure 403 "User not found")
               | user :: _ =>
                   let safeUser := omit_password user in
                   (* Generate new tokens *)
                   accessToken <- generateAccessToken boot safeUser ;;
                   newRefreshToken <- generateRefreshToken boot safeUser ;;
                   (* Delete old refresh token and create new one *)
                   Query.delete_refreshToken_by_id (rt_id storedToken) ;;;
                   expiresAt <- getTokenExpirationTime refreshLifetime ;;
                   Query.insert_refreshToken (user_id user) newRefreshToken
                                             expiresAt ;;;
                   logger Info [("userId", LNum (user_id user))]
                          "Tokens refreshed successfully" ;;;
                   ret (succeeded 200 (TokenPair accessToken newRefreshToken)
                                  "Tokens refreshed successfully")
               end
         end
     end)
    (fun error =>
       logger LError [("error", LStr (Js.message error))]
              "Failed to refresh token" ;;;
       ret (failure 500 "Failed to refresh token")).

(** Get current user profile *)
Definition profile (req_user : option JwtPayload) : M Response :=
  try_catch
    (match req_user with
     | None => ret (failure 401 "Authentication required")
     | Some identity =>
         foundUsers <- Query.users_by_id (userId identity) ;;
         match foundUsers with
         | [] => ret (failure 404 "User not found")
         | user :: _ =>
             ret (succeeded 200 (Profile (omit_password user))
                            "Profile retrieved successfully")
         end
     end)
    (fun error =>
       logger LError [("error", LStr (Js.message error));
                      ("userId", userId_of req_user)]
              "Failed to get profile" ;;;
       ret (failure 500 "Failed to get profile")).

(** Logout user (invalidate refresh token) *)
Definition logout (req_user : option JwtPayload) (req_body : RefreshTokenInput)
  : M Response :=
  try_catch
    (let token := refreshToken_field req_body in
     (* Delete refresh token from database *)
     Query.delete_refreshToken_by_token token ;;;
     logger Info [("userId", userId_of req_user)] "User logged out successfully" ;;;
     ret (succeeded 200 Null "Logged out successfully"))
    (fun error =>
       logger LError [("error", LStr (Js.message error));
                      ("userId", userId_of req_user)]
              "Failed to logout" ;;;
       ret (failure 500 "Failed to logout")).

End AuthController.

(* ================================================================== *)
(** * src/routes/authRoutes.ts *)
(* ================================================================== *)

Section AuthRoutes.

Context {JWT : JsonWebToken} {BCRYPT : Bcrypt} {ZOD : Zod}.
Variable boot : ProcessEnv.
Variable env : ProcessEnv.

Definition show_register (b : RegisterInput) : list (string * string) :=
  [("name", reg_name b); ("email", reg_email b); ("password", reg_password b)].
Definition show_login (b : LoginInput) : list (string * string) :=
  [("email", login_email b); ("password", login_password b)].
Definition show_refreshToken (b : RefreshTokenInput) : list (string * string) :=
  [("refreshToken", refreshToken_field b)].

(** [authRoutes.post('/register', validateBody(registerSchema), authController.register)] *)
Definition post_register (req_body : RegisterInput) : M Response :=
  validateBody registerSchema show_register req_body (register boot env).

(** [authRoutes.post('/login', validateBody(loginSchema), authController.login)] *)
Definition post_login (req_body : LoginInput) : M Response :=
  validateBody loginSchema show_login req_body (login boot env).

(** [authRoutes.post('/refresh', validateBody(refreshTokenSchema), authController.refreshToken)] *)
Definition post_refresh (req_body : RefreshTokenInput) : M Response :=
  validateBody refreshTokenSchema show_refreshToken req_body (refreshToken boot env).

(** [authRoutes.post('/logout', validateBody(refreshTokenSchema), authController.logout)]:
    no middleware of this route sets [req.user]. *)
Definition post_logout (req_body : RefreshTokenInput) : M Response :=
  validateBody refreshTokenSchema show_refreshToken req_body (logout None).

End AuthRoutes.

(* ================================================================== *)
(** * src/middleware/auth.ts *)
(* ================================================================== *)

(** [s.split(sep)] for a separator of one character; the result is never
    empty. *)
Fixpoint split_on (sep : ascii) (s : string) : list string :=
  match s with
  | EmptyString => [EmptyString]
  | String c r =>
      if Ascii.eqb c sep then EmptyString :: split_on sep r
      else
        match split_on sep r with
        | [] => [String c EmptyString]
        | piece :: pieces => String c piece :: pieces
        end
  end.

(** What the middleware reads of a request, and [req.user], which it
    sets. *)
Record Req : Type := mkReq {
  req_url : string;
  req_method : string;
  req_authorization : option string;
  req_user : option JwtPayload
}.

(** [req.user = payload] *)
Definition set_user (payload : JwtPayload) (req : Req) : Req :=
  mkReq (req_url req) (req_method req) (req_authorization req) (Some payload).

(** [authHeader && authHeader.split(' ')[1]]; [None] is [undefined], and a
    header that is the empty string is falsy and is itself the result. *)
Definition header_token (authHeader : option string) : option string :=
  match authHeader with
  | None => None
  | Some h =>
      if String.eqb h EmptyString then Some EmptyString
      else nth_error (split_on " " h) 1
  end.

(** An array in a log line, as the object it is: its members under their
    indices. *)
Fixpoint array_from (i : nat) (xs : list string) : list (string * string) :=
  match xs with
  | [] => []
  | x :: rest =>
      (DecimalString.NilZero.string_of_uint (Nat.to_uint i), x)
        :: array_from (S i) rest
  end.

Section AuthMiddleware.

Context {JWT : JsonWebToken}.
Variable boot : ProcessEnv.

Definition authenticateToken (req : Req) (next : Req -> M Response) : M Response :=
  let authHeader := req_authorization req in
  let token := header_token authHeader in
  match token with
  | Some (String c t) =>
      payload <- verifyAccessToken boot (String c t) ;;
      match payload with
      | None =>
          logger Warn [("url", LStr (req_url req)); ("method", LStr (req_method req))]
                 "Invalid access token" ;;;
          ret (failure 403 "Invalid or expired token")
      | Some payload => next (set_user payload req)
      end
  | _ =>
      logger Warn [("url", LStr (req_url req)); ("method", LStr (req_method req))]
             "Access token missing" ;;;
      ret (failure 401 "Access token required")
  end.

(** [requireRole(...roles)] *)
Definition requireRole (roles : list string) (req : Req) (next : Req -> M Response)
  : M Response :=
  match req_user req with
  | None => ret (failure 401 "Authentication required")
  | Some user =>
      if negb (existsb (String.eqb (role user)) roles)
      then
        logger Warn [("userId", LNum (userId user));
                     ("userRole", LStr (role user));
                     ("requiredRoles", LObject (array_from 0 roles));
                     ("url", LStr (req_url req))]
               "Insufficient permissions" ;;;
        ret (failure 403 "Insufficient permissions")
      else next req
  end.

Definition requireAdmin : Req -> (Req -> M Response) -> M Response :=
  requireRole ["admin"].

Definition requireUser : Req -> (Req -> M Response) -> M Response :=
  requireRole ["user"; "admin"].

Definition optionalAuth (req : Req) (next : Req -> M Response) : M Response :=
  let authHeader := req_authorization req in
  let token := header_token authHeader in
  match token with
  | Some (String c t) =>
      payload <- verifyAccessToken boot (String c t) ;;
      match payload with
      | Some payload => next (set_user payload req)
      | None => next req
      end
  | _ => next req
  end.

(** [authRoutes.get('/profile', authenticateToken, authController.profile)] *)
Definition get_profile (req : Req) : M Response :=
  authenticateToken req (fun req' => profile (req_user req')).

End AuthMiddleware.

(* ================================================================== *)
(** * The server: requests to the auth routes that write, in sequence *)
(* ================================================================== *)

Inductive Request : Type :=
| PostRegister (req_body : RegisterInput)
| PostLogin (req_body : LoginInput)
| PostRefresh (req_body : RefreshTokenInput)
| PostLogout (req_body : RefreshTokenInput).

Section Server.

Context {JWT : JsonWebToken} {BCRYPT : Bcrypt} {ZOD : Zod}.
Variable boot : ProcessEnv.
Variable env : ProcessEnv.

(** A request served when the clock reads [time]. *)
Definition serve (time : Z) (r : Request) (w : World) : Outcome Response * World :=
  match r with
  | PostRegister req_body => post_register boot env req_body (with_clock time w)
  | PostLogin req_body => post_login boot env req_body (with_clock time w)
  | PostRefresh req_body => post_refresh boot env req_body (with_clock time w)
  | PostLogout req_body => post_logout req_body (with_clock time w)
  end.

(** Requests served one after the other: what was sent back, and the world
    at the end. *)
Fixpoint serve_all (requests : list (Z * Request)) (w : World)
  : list (Outcome Response) * World :=
  match requests with
  | [] => ([], w)
  | (time, r) :: rest =>
      let (o, w') := serve time r w in
      let (os, w'') := serve_all rest w' in
      (o :: os, w'')
  end.

(** The worlds the server can be in: it starts with empty tables. *)
Inductive reachable : World -> Prop :=
| reachable_start (time : Z) : reachable (mkWorld (mkDb [] [] 0 0) [] time)
| reachable_serve (time : Z) (r : Request) (w : World) :
    reachable w -> reachable (snd (serve time r w)).

End Server.

(* ================================================================== *)
(** * Notions the statements use *)
(* ================================================================== *)

(** ** Worlds and outcomes *)

(** The world after [logger.<level>(fields, msg)]. *)
Definition logged (l : Level) (fields : list (string * LogValue)) (msg : string)
           (w : World) : World :=
  mkWorld (db w) (log w ++ [mkLog l fields msg]) (clock w).

(** The world after [logger.warn({ error: reason }, msg)]. *)
Definition warned (msg reason : string) (w : World) : World :=
  mkWorld (db w) (log w ++ [mkLog Warn [("error", LStr reason)] msg]) (clock w).

(** What a [try { return jwt.verify(..) } catch { log; return null }]
    makes of the outcome of [jwt.verify]. *)
Definition caught (msg : string) (r : Outcome JwtPayload) (w : World)
  : Outcome (option JwtPayload) * World :=
  match r with
  | Return payload => (Return (Some payload), w)
  | Throw e => (Return None, warned msg (Js.message e) w)
  end.

(** The refresh token a response hands out, if it hands one out. *)
Definition refresh_token_of (o : Outcome Response) : option string :=
  match o with
  | Return resp =>
      match data (body resp) with
      | Some (AuthResponse _ _ t) => Some t
      | Some (TokenPair _ t) => Some t
      | _ => None
      end
  | Throw _ => None
  end.

(** [m] keeps the property [P] of the database. *)
Definition preserves (P : Db -> Prop) {A} (m : M A) : Prop :=
  forall w, P (db w) -> P (db (snd (m w))).

(** [m] does not write to the database. *)
Definition read_only {A} (m : M A) : Prop :=
  forall w, db (snd (m w)) = db w.

(** ** Rows *)

(** The row a [select .. where .. limit(1)] gives, if any. *)
Definition user_with_email (e : string) (w : World) : option User :=
  find (Query.email_is e) (users (db w)).

Definition user_with_id (i : Z) (w : World) : option User :=
  find (Query.id_is i) (users (db w)).

Definition row_with_token (t : string) (w : World) : option RefreshTokenRow :=
  find (Query.token_is t) (refreshTokens (db w)).

Definition rows {A} (o : option A) : list A :=
  match o with
  | Some x => [x]
  | None => []
  end.

(** The database once [delete .. where id = i] has run. *)
Definition without_row (i : Z) (d : Db) : Db :=
  mkDb (users d) (filter (fun r => negb (Query.row_id_is i r)) (refreshTokens d))
       (users_seq d) (refreshTokens_seq d).

(** The database once [delete .. where token = t] has run. *)
Definition without_token (t : string) (d : Db) : Db :=
  mkDb (users d) (filter (fun r => negb (Query.token_is t r)) (refreshTokens d))
       (users_seq d) (refreshTokens_seq d).

(** The database once a row for [token] has been inserted. *)
Definition with_row (uid : Z) (token : string) (expiresAt created : Z) (d : Db) : Db :=
  mkDb (users d)
       (refreshTokens d
          ++ [mkRefreshTokenRow (refreshTokens_seq d + 1) uid token expiresAt created])
       (users_seq d) (refreshTokens_seq d + 1).

(** The user an insert creates. *)
Definition new_user (name_ email_ password_ : string) (w : World) : User :=
  mkUser (users_seq (db w) + 1) name_ email_ password_ "user" true (clock w) (clock w).

Definition with_user (u : User) (d : Db) : Db :=
  mkDb (users d ++ [u]) (refreshTokens d) (user_id u) (refreshTokens_seq d).

(** ** Invariants of the tables *)

(** Section 3 of the specification: at most one row per token string; the
    ids are generated, hence distinct and not above the sequence. *)
Definition ledger_wf (d : Db) : Prop :=
  NoDup (map rt_token (refreshTokens d)) /\
  NoDup (map rt_id (refreshTokens d)) /\
  Forall (fun r => rt_id r <= refreshTokens_seq d) (refreshTokens d).

(** The email as [registerSchema] leaves it. *)
Definition normalize_email (e : string) : string := Js.trim (Js.toLowerCase e).

(** Section 3 of the specification: emails are stored case-normalised. *)
Definition emails_normalized (d : Db) : Prop :=
  Forall (fun u => normalize_email (user_email u) = user_email u) (users d).

(** ** Durations *)

(** The specification's shape of a duration: [<integer><unit>] with the
    integer written as a non-empty run of decimal digits and the unit one of
    [s], [m], [h], [d]. *)
Definition duration_shape (s : string) : Prop :=
  exists amount unit,
    s = (amount ++ String unit EmptyString)%string /\
    amount <> EmptyString /\
    Js.all Js.is_digit amount = true /\
    In unit ["s"; "m"; "h"; "d"]%char.

(** The specification's length of a unit, in milliseconds. *)
Definition unit_length (unit : ascii) : Z :=
  match unit with
  | "s"%char => 1000
  | "m"%char => 60000
  | "h"%char => 3600000
  | "d"%char => 86400000
  | _ => 0
  end.

(** ** The end of register, login and refresh *)

Section Tail.

Context {JWT : JsonWebToken}.
Variable boot : ProcessEnv.
Variable env : ProcessEnv.

(** What [register], [login] and [refreshToken] end with: issue the pair
    for [user], run [prepare], store the refresh token, log and respond. *)
Definition issue_and_store (user : User) (prepare : M unit)
           (fields : list (string * LogValue)) (msg : string)
           (respond : string -> string -> Response) : M Response :=
  let safeUser := omit_password user in
  accessToken <- generateAccessToken boot safeUser ;;
  newRefreshToken <- generateRefreshToken boot safeUser ;;
  prepare ;;;
  expiresAt <- getTokenExpirationTime (refreshLifetime env) ;;
  Query.insert_refreshToken (user_id user) newRefreshToken expiresAt ;;;
  logger Info fields msg ;;;
  ret (respond accessToken newRefreshToken).

(** The [catch] of a handler. *)
Definition failed (fields : Js.Error -> list (string * LogValue)) (msg err : string)
           (error : Js.Error) : M Response :=
  logger LError (fields error) msg ;;;
  ret (failure 500 err).

(** The end of [refreshToken], once the stored row [old] and the [user]
    are at hand: issue the pair, delete the old row, insert the new one. *)
Definition rotation (old : RefreshTokenRow) (user : User) : M Response :=
  try_catch
    (issue_and_store user (Query.delete_refreshToken_by_id (rt_id old))
       [("userId", LNum (user_id user))] "Tokens refreshed successfully"
       (fun accessToken newRefreshToken =>
          succeeded 200 (TokenPair accessToken newRefreshToken)
                    "Tokens refreshed successfully"))
    (failed (fun error => [("error", LStr (Js.message error))])
            "Failed to refresh token" "Failed to refresh token").

End Tail.

(** ** Further assumptions on the libraries *)

(** What is assumed of [jsonwebtoken] about secrets: a token signed with
    one secret is refused under another. *)
Class JsonWebTokenKeyed (JWT : JsonWebToken) : Prop := {
  jwt_decode_other_secret :
    forall secret other claims,
      secret <> other ->
      exists e, jwt_decode (jwt_encode secret claims) other = inl e
}.

(** What is assumed of [bcryptjs]: a password compares equal to its own
    hash. *)
Class BcryptLaws (BCRYPT : Bcrypt) : Prop := {
  bcrypt_compare_hash :
    forall password rounds,
      bcrypt_compare password (bcrypt_hash password rounds) = true
}.

(** ** The middleware *)

(** The identity of the request has one of the [roles]. *)
Definition lets_through (roles : list string) (req : Req) : bool :=
  match req_user req with
  | Some user => existsb (String.eqb (role user)) roles
  | None => false
  end.

(** A request with the header [Authorization: <value>]. *)
Definition with_authorization (value : string) (req : Req) : Req :=
  mkReq (req_url req) (req_method req) (Some value) (req_user req).

Definition has_space (s : string) : bool := Js.any (fun c => Ascii.eqb c " ") s.

(** ** Lifetimes *)

(** The lifetime [jwt.sign] is given for refresh tokens and the lifetime
    the controller stores rows with are one and the same run of digits and
    unit, of a size the [ms] package reads exactly. *)
Definition lifetimes_agree (boot env : ProcessEnv) (amount : string) (unit : ascii)
  : Prop :=
  JWT_REFRESH_EXPIRES_IN boot = (amount ++ String unit EmptyString)%string /\
  refreshLifetime env = (amount ++ String unit EmptyString)%string /\
  amount <> EmptyString /\
  Js.all Js.is_digit amount = true /\
  is_unit unit = true /\
  Js.len amount < 100 /\
  Js.decimal_from 0 amount * 86400000 < 2 ^ 53.

(** Every row of the ledger carries a token that expires, by its own [exp]
    claim, no later than the row does. *)
Definition rows_outlive_tokens {JWT : JsonWebToken} (boot : ProcessEnv) (d : Db) : Prop :=
  Forall (fun r =>
            exists p e,
              jwt_decode (rt_token r) (JWT_REFRESH_SECRET boot) = inr p /\
              exp p = Some e /\
              e * 1000 <= rt_expiresAt r)
         (refreshTokens d).

(** No two stored users have emails that are equal up to letter case. *)
Definition emails_distinct_up_to_case (d : Db) : Prop :=
  forall u1 u2,
    In u1 (users d) -> In u2 (users d) ->
    Js.toLowerCase (user_email u1) = Js.toLowerCase (user_email u2) ->
    u1 = u2.

(** ** Invariants of the tables, continued *)

(** The users table: one row per email and per id, the ids not above the
    sequence. *)
Definition users_wf (d : Db) : Prop :=
  NoDup (map user_email (users d)) /\
  NoDup (map user_id (users d)) /\
  Forall (fun u => user_id u <= users_seq d) (users d).

(** [row] is the row of a refresh token issued for some user in the world
    [w]: the token is what [generateRefreshToken] makes there, the expiry
    what [getTokenExpirationTime] computes there. *)
Definition issued_in {JWT : JsonWebToken} (boot env : ProcessEnv) (w : World)
           (row : RefreshTokenRow) : Prop :=
  exists user,
    fst (generateRefreshToken boot user w) = Return (rt_token row) /\
    fst (getTokenExpirationTime (refreshLifetime env) w)
    = Return (Js.ValidDate (rt_expiresAt row)).

(** ** Validation *)

(** What [registerSchema] asks of a body, on the strings as they came. *)
Definition register_body_ok {ZOD : Zod} (b : RegisterInput) : Prop :=
  1 <= Js.len (reg_name b) <= 255 /\
  zod_is_email (reg_email b) = true /\
  Js.len (reg_email b) <= 255 /\
  6 <= Js.len (reg_password b) <= 100 /\
  password_regex (reg_password b) = true.

(** The log holds the string [secret] in the clear, as the member [key] of
    a logged body. *)
Definition logs_member (key secret : string) (w : World) : Prop :=
  exists entry members,
    In entry (log w) /\
    In ("body", LObject members) (log_fields entry) /\
    In (key, secret) members.

(** ** What can go wrong at the end of register and refresh *)

(** The expiry of a new row cannot be computed in [w]:
    [getTokenExpirationTime] throws, or returns the Invalid Date. *)
Definition no_expiry (env : ProcessEnv) (w : World) : Prop :=
  (exists e, fst (getTokenExpirationTime (refreshLifetime env) w) = Throw e) \/
  fst (getTokenExpirationTime (refreshLifetime env) w) = Return Js.InvalidDate.

(** The pair of tokens and the expiry of the row cannot all be had for
    [user] in [w]: [jwt.sign] throws for one of the tokens, or the expiry
    cannot be computed. *)
Definition cannot_issue {JWT : JsonWebToken} (boot env : ProcessEnv)
           (user : SafeUser) (w : World) : Prop :=
  (exists e, fst (generateAccessToken boot user w) = Throw e) \/
  (exists e, fst (generateRefreshToken boot user w) = Throw e) \/
  no_expiry env w.

(* ================================================================== *)
(** * A transparent instance of the libraries

    Tokens that carry their claims in the clear next to the secret, a hash
    that is the password behind a prefix, and a loose email test.  Nothing
    here is secure; the instance shows that the interfaces above can be
    met and lets the model run on concrete requests. *)
(* ================================================================== *)

Module Plain.

Fixpoint put_pos (p : positive) (k : string) : string :=
  match p with
  | xH => String "." k
  | xO q => String "0" (put_pos q k)
  | xI q => String "1" (put_pos q k)
  end.

Fixpoint get_pos (s : string) : option (positive * string) :=
  match s with
  | EmptyString => None
  | String c r =>
      if Ascii.eqb c "." then Some (xH, r)
      else if Ascii.eqb c "0" then
        match get_pos r with Some (q, k) => Some (xO q, k) | None => None end
      else if Ascii.eqb c "1" then
        match get_pos r with Some (q, k) => Some (xI q, k) | None => None end
      else None
  end.

Definition put_Z (z : Z) (k : string) : string :=
  match z with
  | Z0 => String "z" k
  | Zpos p => String "+" (put_pos p k)
  | Zneg p => String "-" (put_pos p k)
  end.

Definition get_Z (s : string) : option (Z * string) :=
  match s with
  | EmptyString => None
  | String c r =>
      if Ascii.eqb c "z" then Some (0, r)
      else if Ascii.eqb c "+" then
        match get_pos r with Some (q, k) => Some (Zpos q, k) | None => None end
      else if Ascii.eqb c "-" then
        match get_pos r with Some (q, k) => Some (Zneg q, k) | None => None end
      else None
  end.

Definition put_opt (o : option Z) (k : string) : string :=
  match o with
  | None => String "n" k
  | Some z => String "s" (put_Z z k)
  end.

Definition get_opt (s : string) : option (option Z * string) :=
  match s with
  | EmptyString => None
  | String c r =>
      if Ascii.eqb c "n" then Some (None, r)
      else if Ascii.eqb c "s" then
        match get_Z r with Some (z, k) => Some (Some z, k) | None => None end
      else None
  end.

Fixpoint put_str (s : string) (k : string) : string :=
  match s with
  | EmptyString => String ";" k
  | String c r => String "," (String c (put_str r k))
  end.

Fixpoint get_str (s : string) : option (string * string) :=
  match s with
  | String sep r =>
      if Ascii.eqb sep ";" then Some (EmptyString, r)
      else if Ascii.eqb sep "," then
        match r with
        | String c r' =>
            match get_str r' with
            | Some (x, k) => Some (String c x, k)
            | None => None
            end
        | EmptyString => None
        end
      else None
  | EmptyString => None
  end.

Definition malformed : Js.Error := Js.mkError "JsonWebTokenError" "jwt malformed".
Definition invalid_signature : Js.Error :=
  Js.mkError "JsonWebTokenError" "invalid signature".
Definition bad_timespan : Js.Error :=
  Js.mkError "Error" "expiresIn should be a number of seconds or string representing a timespan".

Definition encode (secret : string) (p : JwtPayload) : string :=
  put_str secret
    (put_Z (userId p)
       (put_str (email p)
          (put_str (role p) (put_opt (iat p) (put_opt (exp p) EmptyString))))).

Definition decode (token secret : string) : Js.Error + JwtPayload :=
  match get_str token with
  | Some (k, r1) =>
      match get_Z r1 with
      | Some (uid, r2) =>
          match get_str r2 with
          | Some (mail, r3) =>
              match get_str r3 with
              | Some (rl, r4) =>
                  match get_opt r4 with
                  | Some (i, r5) =>
                      match get_opt r5 with
                      | Some (e, EmptyString) =>
                          if String.eqb k secret
                          then inr (mkJwtPayload uid mail rl i e)
                          else inl invalid_signature
                      | _ => inl malformed
                      end
                  | None => inl malformed
                  end
              | None => inl malformed
              end
          | None => inl malformed
          end
      | None => inl malformed
      end
  | None => inl malformed
  end.

Definition timespan (s : string) : Js.Error + Z :=
  match match_expiresIn s with
  | Some (amount, unit) =>
      if Js.len s <=? 100
      then inr (Js.decimal_from 0 amount * unit_seconds unit)
      else inl bad_timespan
  | None => inl bad_timespan
  end.

Definition jwt : JsonWebToken :=
  {| jwt_encode := encode;
     jwt_decode := decode;
     jwt_timespan := timespan |}.

Definition bcrypt : Bcrypt :=
  {| bcrypt_hash := fun password _ => ("$2a$12$" ++ password)%string;
     bcrypt_compare := fun password hash =>
                         String.eqb hash ("$2a$12$" ++ password)%string |}.

Definition zod : Zod :=
  {| zod_is_email := fun s =>
       Js.any (Ascii.eqb "@") s && negb (Js.any Js.is_space s) |}.

End Plain.

(** ** Requests and worlds to run it on *)

Definition john : SafeUser :=
  mkSafeUser 1 "John" "john@x.com" "user" true 1700000000000 1700000000000.

Definition quiet (t : Z) : World := mkWorld (mkDb [] [] 0 0) [] t.

Definition dormant : User :=
  mkUser 1 "John" "john@x.com" "$2a$12$Abc123xx" "user" false
         1700000000000 1700000000000.

Definition active_john : User :=
  mkUser 1 "John" "john@x.com" "$2a$12$Abc123xx" "user" true
         1700000000000 1700000000000.

Definition world_of (us : list User) (rs : list RefreshTokenRow) (t : Z) : World :=
  mkWorld (mkDb us rs (Z.of_nat (List.length us)) (Z.of_nat (List.length rs))) [] t.

Definition john_claims (issued : Z) : JwtPayload :=
  mkJwtPayload 1 "john@x.com" "user" (Some issued) (Some (issued + 604800)).

(** The refresh token [generateRefreshToken] makes for John at second
    [issued], with the default secret and lifetime. *)
Definition john_token (issued : Z) : string :=
  Plain.encode "your-super-secret-refresh-key" (john_claims issued).

Definition plain_refresh (t : string) (w : World) : Outcome Response * World :=
  refreshToken (JWT := Plain.jwt) empty_env empty_env (mkRefreshTokenInput t) w.

Definition response_of (r : Outcome Response * World) : Response :=
  match fst r with
  | Return resp => resp
  | Throw _ => failure 500 "Internal Server Error"
  end.

(** John, one row for a token issued at second 1700000000 that expires at
    [expiresAt], and the clock at [t]. *)
Definition johns_world (expiresAt t : Z) : World :=
  world_of [active_john]
           [mkRefreshTokenRow 1 1 (john_token 1700000000) expiresAt 1700000000123] t.

(** A request to [GET /profile] with an [Authorization] header. *)
Definition profile_request (authorization : option string) : Req :=
  mkReq "/profile" "GET" authorization None.

(** The access token [generateAccessToken] makes for John at second
    [issued], with the default secret and lifetime. *)
Definition john_access_token (issued : Z) : string :=
  Plain.encode "your-super-secret-jwt-key"
               (mkJwtPayload 1 "john@x.com" "user" (Some issued) (Some (issued + 900))).

(** [JWT_REFRESH_EXPIRES_IN=7 days]: a lifetime [jsonwebtoken] reads and
    [getTokenExpirationTime] does not. *)
Definition seven_days_env : ProcessEnv := mkEnv None None None (Some "7 days").

(** The world after [POST /register] of John, with an email in capitals,
    on a server that has just started. *)
Definition after_registration : World :=
  snd (serve (JWT := Plain.jwt) (BCRYPT := Plain.bcrypt) (ZOD := Plain.zod)
             empty_env empty_env 1700000000123
             (PostRegister (mkRegisterInput "John" "JOHN@X.com" "Abc123xx"))
             (mkWorld (mkDb [] [] 0 0) [] 0)).

(** The world after Jane has registered too, a minute later. *)
Definition after_two_registrations : World :=
  snd (serve (JWT := Plain.jwt) (BCRYPT := Plain.bcrypt) (ZOD := Plain.zod)
             empty_env empty_env 1700000060123
             (PostRegister (mkRegisterInput "Jane" "Jane@X.com" "Def456yy"))
             after_registration).

(* ================================================================== *)
(** * Facts about the primitives *)
(* ================================================================== *)

Lemma split_last_snoc (a : string) (c : ascii) :
  split_last (a ++ String c EmptyString) = Some (a, c).
Proof.
  induction a as [|x a IH]; simpl.
  - reflexivity.
  - rewrite IH. reflexivity.
Qed.

Lemma split_last_inv (s a : string) (c : ascii) :
  split_last s = Some (a, c) -> s = (a ++ String c EmptyString)%string.
Proof.
  revert a; induction s as [|x s IH]; simpl; intros a H.
  - discriminate.
  - destruct (split_last s) as [[p l]|] eqn:E.
    + inversion H; subst. simpl. f_equal. apply IH. reflexivity.
    + inversion H; subst. destruct s; simpl in *.
      * reflexivity.
      * destruct (split_last s); [destruct p|]; discriminate.
Qed.

Lemma eqb_empty_false (a : string) : a <> EmptyString -> String.eqb a EmptyString = false.
Proof. destruct a; [congruence | reflexivity]. Qed.

Lemma match_expiresIn_snoc (amount : string) (unit : ascii) :
  amount <> EmptyString ->
  Js.all Js.is_digit amount = true ->
  is_unit unit = true ->
  match_expiresIn (amount ++ String unit EmptyString) = Some (amount, unit).
Proof.
  intros Hne Hd Hu. unfold match_expiresIn.
  rewrite split_last_snoc, (eqb_empty_false _ Hne), Hd, Hu. reflexivity.
Qed.

Lemma match_expiresIn_inv (s amount : string) (unit : ascii) :
  match_expiresIn s = Some (amount, unit) ->
  s = (amount ++ String unit EmptyString)%string /\ amount <> EmptyString /\
  Js.all Js.is_digit amount = true /\ is_unit unit = true.
Proof.
  unfold match_expiresIn. destruct (split_last s) as [[a c]|] eqn:E; [|discriminate].
  destruct (String.eqb a EmptyString) eqn:Ea; simpl; [discriminate|].
  destruct (Js.all Js.is_digit a) eqn:Hd; simpl; [|discriminate].
  destruct (is_unit c) eqn:Hu; [|discriminate].
  intros H; inversion H; subst. repeat split; auto.
  - apply split_last_inv; assumption.
  - intros ->. discriminate.
Qed.

Lemma take_digits_all (a : string) :
  Js.all Js.is_digit a = true -> Js.take_digits a = a.
Proof.
  induction a as [|c a IH]; simpl; intros H; [reflexivity|].
  apply andb_true_iff in H as [Hc Ha]. rewrite Hc, IH by assumption. reflexivity.
Qed.

Lemma parseInt_digits (a : string) :
  a <> EmptyString -> Js.all Js.is_digit a = true ->
  Js.parseInt a = Some (Js.decimal_from 0 a).
Proof.
  intros Hne Hd. unfold Js.parseInt. rewrite (take_digits_all _ Hd).
  destruct a; [congruence | reflexivity].
Qed.

Lemma digit_value_range (c : ascii) :
  Js.is_digit c = true -> 0 <= Js.digit_value c <= 9.
Proof.
  unfold Js.is_digit, Js.in_range, Js.digit_value. intros H.
  apply andb_true_iff in H as [H1 H2]. lia.
Qed.

Lemma decimal_from_nonneg (a : string) : forall acc,
  0 <= acc -> Js.all Js.is_digit a = true -> 0 <= Js.decimal_from acc a.
Proof.
  induction a as [|c a IH]; cbn [Js.decimal_from Js.all]; intros acc Hacc H;
    [assumption|].
  apply andb_true_iff in H as [Hc Ha]. apply IH; [|assumption].
  pose proof (digit_value_range c Hc). lia.
Qed.

(** ** Lower case and trimming *)

Lemma lower_char_idempotent (c : ascii) :
  Js.lower_char (Js.lower_char c) = Js.lower_char c.
Proof. destruct c as [[] [] [] [] [] [] [] []]; reflexivity. Qed.

Lemma is_space_lower_char (c : ascii) :
  Js.is_space (Js.lower_char c) = Js.is_space c.
Proof. destruct c as [[] [] [] [] [] [] [] []]; reflexivity. Qed.

Lemma toLowerCase_idempotent (s : string) :
  Js.toLowerCase (Js.toLowerCase s) = Js.toLowerCase s.
Proof.
  unfold Js.toLowerCase. induction s as [|c s IH]; simpl; [reflexivity|].
  rewrite lower_char_idempotent, IH. reflexivity.
Qed.

Lemma toLowerCase_trimStart (s : string) :
  Js.toLowerCase (Js.trimStart s) = Js.trimStart (Js.toLowerCase s).
Proof.
  unfold Js.toLowerCase. induction s as [|c s IH]; simpl; [reflexivity|].
  rewrite is_space_lower_char. destruct (Js.is_space c); [exact IH | reflexivity].
Qed.

Lemma toLowerCase_trimEnd (s : string) :
  Js.toLowerCase (Js.trimEnd s) = Js.trimEnd (Js.toLowerCase s).
Proof.
  unfold Js.toLowerCase. induction s as [|c s IH]; simpl; [reflexivity|].
  rewrite <- IH, is_space_lower_char.
  destruct (Js.trimEnd s) as [|d r]; simpl.
  - destruct (Js.is_space c); reflexivity.
  - reflexivity.
Qed.

Lemma toLowerCase_trim (s : string) :
  Js.toLowerCase (Js.trim s) = Js.trim (Js.toLowerCase s).
Proof. unfold Js.trim. rewrite toLowerCase_trimEnd, toLowerCase_trimStart. reflexivity. Qed.

Lemma trimEnd_idempotent (s : string) : Js.trimEnd (Js.trimEnd s) = Js.trimEnd s.
Proof.
  induction s as [|c s IH]; simpl; [reflexivity|].
  destruct (Js.trimEnd s) as [|d r] eqn:E.
  - destruct (Js.is_space c) eqn:Ec; simpl; [reflexivity|]. rewrite Ec. reflexivity.
  - simpl in IH |- *. rewrite IH. reflexivity.
Qed.

Lemma trimStart_head (s : string) (c : ascii) (r : string) :
  Js.trimStart s = String c r -> Js.is_space c = false.
Proof.
  induction s as [|x s IH]; simpl; [discriminate|].
  destruct (Js.is_space x) eqn:E; [exact IH|].
  intros H; inversion H; subst. exact E.
Qed.

Lemma trimEnd_head (c : ascii) (r : string) :
  Js.is_space c = false -> exists r', Js.trimEnd (String c r) = String c r'.
Proof.
  intros Hc. simpl. destruct (Js.trimEnd r) as [|d r'].
  - rewrite Hc. eexists; reflexivity.
  - eexists; reflexivity.
Qed.

Lemma trim_idempotent (s : string) : Js.trim (Js.trim s) = Js.trim s.
Proof.
  unfold Js.trim. destruct (Js.trimStart s) as [|c r] eqn:E; [reflexivity|].
  pose proof (trimStart_head _ _ _ E) as Hc.
  destruct (trimEnd_head c r Hc) as [r' Hr]. rewrite Hr.
  cbn [Js.trimStart]. rewrite Hc, <- Hr. apply trimEnd_idempotent.
Qed.

Lemma normalize_email_idempotent (e : string) :
  normalize_email (normalize_email e) = normalize_email e.
Proof.
  unfold normalize_email.
  rewrite toLowerCase_trim, toLowerCase_idempotent. apply trim_idempotent.
Qed.

(** ** Lists *)

Lemma limit_1 {A} (p : A -> bool) (l : list A) :
  firstn 1 (filter p l) = rows (find p l).
Proof.
  induction l as [|x l IH]; simpl; [reflexivity|].
  destruct (p x); [reflexivity | exact IH].
Qed.

Lemma find_none_iff {A} (p : A -> bool) (l : list A) :
  find p l = None <-> forall x, In x l -> p x = false.
Proof.
  split.
  - intros H x Hx. exact (find_none p l H x Hx).
  - induction l as [|x l IH]; simpl; intros H; [reflexivity|].
    rewrite (H x (or_introl eq_refl)). apply IH. intros y Hy. apply H. right; assumption.
Qed.

Lemma find_In {A} (p : A -> bool) (l : list A) (x : A) :
  find p l = Some x -> In x l /\ p x = true.
Proof. apply find_some. Qed.

Lemma existsb_find_none {A} (p : A -> bool) (l : list A) :
  find p l = None -> existsb p l = false.
Proof.
  induction l as [|x l IH]; simpl; [reflexivity|].
  destruct (p x); [discriminate | exact IH].
Qed.

Lemma find_app_new {A} (p : A -> bool) (l : list A) (x : A) :
  find p l = None -> p x = true -> find p (l ++ [x]) = Some x.
Proof.
  induction l as [|a l IH]; simpl; intros Hn Hx.
  - rewrite Hx. reflexivity.
  - destruct (p a); [discriminate|]. apply IH; assumption.
Qed.

Lemma find_exists {A} (p : A -> bool) (l : list A) (x : A) :
  In x l -> p x = true -> exists y, find p l = Some y.
Proof.
  intros Hin Hp. destruct (find p l) as [y|] eqn:E; [eexists; reflexivity|].
  rewrite (proj1 (find_none_iff p l) E x Hin) in Hp. discriminate.
Qed.

Lemma NoDup_map_injective {A B} (f : A -> B) (l : list A) (x y : A) :
  NoDup (map f l) -> In x l -> In y l -> f x = f y -> x = y.
Proof.
  induction l as [|a l IH]; simpl; intros Hnd Hx Hy Hf; [contradiction|].
  inversion Hnd as [|? ? Hnotin Hnd']; subst.
  destruct Hx as [->|Hx], Hy as [->|Hy]; auto.
  - exfalso. apply Hnotin. rewrite Hf. apply in_map; assumption.
  - exfalso. apply Hnotin. rewrite <- Hf. apply in_map; assumption.
Qed.

Lemma filter_keeps_distinct {Row Key} (key : Row -> Key) (keep : Row -> bool) :
  forall table, NoDup (map key table) -> NoDup (map key (filter keep table)).
Proof.
  intros table; induction table as [|row table IH]; intros Hdistinct.
  - constructor.
  - cbn [map] in Hdistinct. apply NoDup_cons_iff in Hdistinct as [Hnew Hrest].
    cbn [filter]. destruct (keep row); [|exact (IH Hrest)].
    cbn [map]. apply NoDup_cons; [|exact (IH Hrest)].
    intros Hin. apply Hnew. apply in_map_iff in Hin as (other & Hkey & Hother).
    apply filter_In in Hother as [Hother _].
    rewrite <- Hkey. apply in_map. exact Hother.
Qed.

Lemma NoDup_snoc {A} (l : list A) (x : A) :
  NoDup l -> ~ In x l -> NoDup (l ++ [x]).
Proof.
  induction l as [|a l IH]; simpl; intros Hnd Hx.
  - constructor; [intros []|constructor].
  - inversion Hnd; subst. constructor.
    + rewrite in_app_iff. simpl. intuition congruence.
    + apply IH; intuition.
Qed.

Lemma filter_twice {A} (p : A -> bool) (l : list A) :
  filter p (filter p l) = filter p l.
Proof.
  induction l as [|x l IH]; simpl; [reflexivity|].
  destruct (p x) eqn:E; simpl; [rewrite E, IH|]; auto.
Qed.

Lemma filter_all {A} (p : A -> bool) (l : list A) :
  (forall x, In x l -> p x = true) -> filter p l = l.
Proof.
  induction l as [|x l IH]; simpl; intros H; [reflexivity|].
  rewrite (H x (or_introl eq_refl)). f_equal. apply IH. intros y Hy. apply H.
  right; assumption.
Qed.

(* ================================================================== *)
(** * The transparent instance meets the laws *)
(* ================================================================== *)

Lemma plain_get_put_pos p k : Plain.get_pos (Plain.put_pos p k) = Some (p, k).
Proof. induction p; simpl; try rewrite IHp; reflexivity. Qed.

Lemma plain_get_put_Z z k : Plain.get_Z (Plain.put_Z z k) = Some (z, k).
Proof. destruct z; simpl; try rewrite plain_get_put_pos; reflexivity. Qed.

Lemma plain_get_put_opt o k : Plain.get_opt (Plain.put_opt o k) = Some (o, k).
Proof. destruct o; simpl; try rewrite plain_get_put_Z; reflexivity. Qed.

Lemma plain_get_put_str s k : Plain.get_str (Plain.put_str s k) = Some (s, k).
Proof. induction s; simpl; try rewrite IHs; reflexivity. Qed.

Lemma plain_decode_encode secret claims :
  Plain.decode (Plain.encode secret claims) secret = inr claims.
Proof.
  unfold Plain.decode, Plain.encode.
  rewrite plain_get_put_str, plain_get_put_Z, !plain_get_put_str, !plain_get_put_opt,
    String.eqb_refl.
  destruct claims; reflexivity.
Qed.

Lemma len_snoc (a : string) (c : ascii) :
  Js.len (a ++ String c EmptyString) = Js.len a + 1.
Proof.
  unfold Js.len. induction a as [|x a IH]; simpl String.length.
  - reflexivity.
  - rewrite !Nat2Z.inj_succ, IH. lia.
Qed.

Lemma plain_timespan_unit amount unit :
  amount <> EmptyString ->
  Js.all Js.is_digit amount = true ->
  is_unit unit = true ->
  Js.len amount < 100 ->
  Js.decimal_from 0 amount * 86400000 < 2 ^ 53 ->
  Plain.timespan (amount ++ String unit EmptyString)
  = inr (Js.decimal_from 0 amount * unit_seconds unit).
Proof.
  intros Hne Hd Hu Hlen _. unfold Plain.timespan.
  rewrite (match_expiresIn_snoc _ _ Hne Hd Hu), len_snoc.
  destruct (Js.len amount + 1 <=? 100) eqn:E; [reflexivity|].
  apply Z.leb_gt in E. lia.
Qed.

Lemma plain_jwt_laws : JsonWebTokenLaws Plain.jwt.
Proof.
  split.
  - exact plain_decode_encode.
  - exact plain_timespan_unit.
Qed.

(* ================================================================== *)
(** * computeExpiry ([getTokenExpirationTime]) *)
(* ================================================================== *)

Lemma is_unit_In (unit : ascii) :
  is_unit unit = true <-> In unit ["s"; "m"; "h"; "d"]%char.
Proof.
  unfold is_unit. rewrite !orb_true_iff, !Ascii.eqb_eq. simpl.
  intuition congruence.
Qed.

Lemma milliseconds_unit_length (unit : ascii) :
  In unit ["s"; "m"; "h"; "d"]%char -> milliseconds unit = Some (unit_length unit).
Proof.
  simpl. intros [<-|[<-|[<-|[<-|[]]]]]; reflexivity.
Qed.

Lemma getTokenExpirationTime_shape (w : World) (amount : string) (unit : ascii) :
  amount <> EmptyString ->
  Js.all Js.is_digit amount = true ->
  In unit ["s"; "m"; "h"; "d"]%char ->
  getTokenExpirationTime (amount ++ String unit EmptyString) w
  = (Return (Js.new_Date (clock w + Js.decimal_from 0 amount * unit_length unit)), w).
Proof.
  intros Hne Hd Hu. unfold getTokenExpirationTime, bind, now.
  rewrite (match_expiresIn_snoc _ _ Hne Hd (proj2 (is_unit_In _) Hu)).
  rewrite (milliseconds_unit_length _ Hu), (parseInt_digits _ Hne Hd).
  reflexivity.
Qed.

Lemma getTokenExpirationTime_other (w : World) (s : string) :
  ~ duration_shape s ->
  getTokenExpirationTime s w = (Throw (Js.Error_ "Invalid expires in format"), w).
Proof.
  intros Hn. unfold getTokenExpirationTime, bind, now.
  destruct (match_expiresIn s) as [[amount unit]|] eqn:E; [|reflexivity].
  exfalso. apply Hn. apply match_expiresIn_inv in E as (-> & Hne & Hd & Hu).
  exists amount, unit. repeat split; auto. apply is_unit_In; assumption.
Qed.

Lemma unit_length_pos (unit : ascii) :
  In unit ["s"; "m"; "h"; "d"]%char -> 0 < unit_length unit.
Proof. simpl. intros [<-|[<-|[<-|[<-|[]]]]]; reflexivity. Qed.

(** C5, as the code has it.  At a clock reading [T] after the epoch,
    [getTokenExpirationTime] of a string of the form digits-then-unit, unit
    among s, m, h, d, returns the date [T] plus that many seconds, minutes,
    hours or days whenever that instant is within the range of a [Date]
    (at most 8.64e15 ms), and the Invalid Date when it is beyond; in
    particular ["15m"] gives [T] plus fifteen minutes.  Every string of
    another shape, ["15"] and ["15x"] among them, makes it throw
    [Invalid expires in format], and the world is left as it was in every
    case. *)
Theorem getTokenExpirationTime_spec (w : World) :
  0 <= clock w ->
  (forall amount unit,
      amount <> EmptyString ->
      Js.all Js.is_digit amount = true ->
      In unit ["s"; "m"; "h"; "d"]%char ->
      clock w + Js.decimal_from 0 amount * unit_length unit <= Js.max_time ->
      getTokenExpirationTime (amount ++ String unit EmptyString) w
      = (Return (Js.ValidDate (clock w + Js.decimal_from 0 amount * unit_length unit)), w))
  /\ (forall amount unit,
         amount <> EmptyString ->
         Js.all Js.is_digit amount = true ->
         In unit ["s"; "m"; "h"; "d"]%char ->
         Js.max_time < clock w + Js.decimal_from 0 amount * unit_length unit ->
         getTokenExpirationTime (amount ++ String unit EmptyString) w
         = (Return Js.InvalidDate, w))
  /\ (clock w + 15 * 60 * 1000 <= Js.max_time ->
      getTokenExpirationTime "15m" w
      = (Return (Js.ValidDate (clock w + 15 * 60 * 1000)), w))
  /\ (forall s, ~ duration_shape s ->
        getTokenExpirationTime s w
        = (Throw (Js.Error_ "Invalid expires in format"), w))
  /\ getTokenExpirationTime "15" w
     = (Throw (Js.Error_ "Invalid expires in format"), w)
  /\ getTokenExpirationTime "15x" w
     = (Throw (Js.Error_ "Invalid expires in format"), w).
Proof.
  intros HT.
  assert (Hvalid : forall amount unit,
             amount <> EmptyString ->
             Js.all Js.is_digit amount = true ->
             In unit ["s"; "m"; "h"; "d"]%char ->
             clock w + Js.decimal_from 0 amount * unit_length unit <= Js.max_time ->
             getTokenExpirationTime (amount ++ String unit EmptyString) w
             = (Return (Js.ValidDate
                          (clock w + Js.decimal_from 0 amount * unit_length unit)), w)).
  { intros amount unit Hne Hd Hu Hmax.
    rewrite (getTokenExpirationTime_shape w _ _ Hne Hd Hu).
    unfold Js.new_Date.
    pose proof (decimal_from_nonneg amount 0 (Z.le_refl 0) Hd) as Hn.
    pose proof (unit_length_pos _ Hu) as Hpos.
    assert (0 <= Js.decimal_from 0 amount * unit_length unit) by nia.
    rewrite Z.abs_eq by lia.
    destruct (_ <=? Js.max_time) eqn:E; [reflexivity|].
    apply Z.leb_gt in E. lia. }
  split; [exact Hvalid|].
  split.
  { intros amount unit Hne Hd Hu Hmax.
    rewrite (getTokenExpirationTime_shape w _ _ Hne Hd Hu).
    unfold Js.new_Date.
    destruct (_ <=? Js.max_time) eqn:E; [|reflexivity].
    apply Z.leb_le in E. lia. }
  split.
  { intros Hmax.
    apply (Hvalid "15" "m"%char); simpl; auto; try discriminate. }
  split; [apply getTokenExpirationTime_other|].
  split; reflexivity.
Qed.

(** The theorem at the epoch. *)
Lemma getTokenExpirationTime_spec_witness :
  getTokenExpirationTime "15m" (mkWorld (mkDb [] [] 0 0) [] 0)
  = (Return (Js.ValidDate 900000), mkWorld (mkDb [] [] 0 0) [] 0).
Proof.
  destruct (getTokenExpirationTime_spec (mkWorld (mkDb [] [] 0 0) [] 0))
    as (_ & _ & H & _).
  - simpl. lia.
  - apply H. vm_compute. discriminate.
Defined.

(** Against C5 as the specification words it: an amount of digits and a
    unit whose instant lies beyond the range of a [Date].  The result is the
    Invalid Date, not the clock plus 99999999999 days. *)
Lemma getTokenExpirationTime_out_of_range :
  let w := mkWorld (mkDb [] [] 0 0) [] 1700000000000 in
  duration_shape "99999999999d" /\
  getTokenExpirationTime "99999999999d" w = (Return Js.InvalidDate, w) /\
  getTokenExpirationTime "99999999999d" w
  <> (Return (Js.ValidDate (clock w + 99999999999 * 86400000)), w).
Proof.
  split; [|split].
  - exists "99999999999", "d"%char. repeat split; simpl; auto; discriminate.
  - vm_compute. reflexivity.
  - vm_compute. discriminate.
Qed.

(* ================================================================== *)
(** * The token codec *)
(* ================================================================== *)

Section Codec.

Context {JWT : JsonWebToken}.
Variable boot : ProcessEnv.

Lemma jwt_verify_world (token secret : string) (w : World) :
  snd (jwt_verify token secret w) = w.
Proof.
  unfold jwt_verify, bind, now, throw, ret.
  destruct (jwt_decode token secret) as [e|p]; [reflexivity|].
  destruct (exp p) as [x|]; [|reflexivity].
  destruct (clock w / 1000 >=? x); reflexivity.
Qed.

Lemma jwt_sign_world (uid : Z) (mail rl secret e : string) (w : World) :
  snd (jwt_sign uid mail rl secret e w) = w.
Proof.
  unfold jwt_sign, bind, now, throw, ret. destruct (jwt_timespan e); reflexivity.
Qed.

Lemma verifyAccessToken_caught (token : string) (w : World) :
  verifyAccessToken boot token w
  = caught "Access token verification failed"
           (fst (jwt_verify token (JWT_SECRET boot) w)) w.
Proof.
  unfold verifyAccessToken, try_catch, bind.
  pose proof (jwt_verify_world token (JWT_SECRET boot) w) as Hw.
  destruct (jwt_verify token (JWT_SECRET boot) w) as [[p|e] w']; simpl in *; subst;
    reflexivity.
Qed.

Lemma verifyRefreshToken_caught (token : string) (w : World) :
  verifyRefreshToken boot token w
  = caught "Refresh token verification failed"
           (fst (jwt_verify token (JWT_REFRESH_SECRET boot) w)) w.
Proof.
  unfold verifyRefreshToken, try_catch, bind.
  pose proof (jwt_verify_world token (JWT_REFRESH_SECRET boot) w) as Hw.
  destruct (jwt_verify token (JWT_REFRESH_SECRET boot) w) as [[p|e] w']; simpl in *;
    subst; reflexivity.
Qed.

(** C7.  Whatever the string, [verifyAccessToken] and [verifyRefreshToken]
    return: the decoded payload when [jwt.verify] returns it, and [null]
    when [jwt.verify] throws (malformed token, bad signature, expired),
    in which case the error's message is logged as a warning and nothing
    is thrown to the caller. *)
Theorem verify_returns_payload_or_null (token : string) (w : World) :
  verifyAccessToken boot token w
  = caught "Access token verification failed"
           (fst (jwt_verify token (JWT_SECRET boot) w)) w
  /\ verifyRefreshToken boot token w
     = caught "Refresh token verification failed"
              (fst (jwt_verify token (JWT_REFRESH_SECRET boot) w)) w
  /\ (exists r w', verifyAccessToken boot token w = (Return r, w'))
  /\ (exists r w', verifyRefreshToken boot token w = (Return r, w')).
Proof.
  rewrite verifyAccessToken_caught, verifyRefreshToken_caught.
  repeat split.
  - destruct (fst (jwt_verify token (JWT_SECRET boot) w)); simpl; eauto.
  - destruct (fst (jwt_verify token (JWT_REFRESH_SECRET boot) w)); simpl; eauto.
Qed.

Context {LAWS : JsonWebTokenLaws JWT}.

(** [jwt.verify] of a token [jwt.sign] has just made, under the same
    secret and at the same clock reading. *)
Lemma jwt_verify_sign (uid : Z) (mail rl secret expiresIn : string) (span : Z)
      (w : World) :
  jwt_timespan expiresIn = inr span ->
  0 < span ->
  exists token payload,
    jwt_sign uid mail rl secret expiresIn w = (Return token, w) /\
    jwt_verify token secret w = (Return payload, w) /\
    payload = mkJwtPayload uid mail rl (Some (clock w / 1000))
                           (Some (clock w / 1000 + span)).
Proof.
  intros Hspan Hpos. unfold jwt_sign, jwt_verify, bind, now, ret.
  rewrite Hspan. eexists. eexists. split; [reflexivity|].
  rewrite jwt_decode_encode. simpl.
  destruct (clock w / 1000 >=? clock w / 1000 + span) eqn:E.
  - apply Z.geb_le in E. lia.
  - split; reflexivity.
Qed.

(** C6.  With lifetimes that [jsonwebtoken] reads as positive timespans
    (the defaults [15m] and [7d] are), a token verified as soon as it is
    issued for a user gives a payload whose [userId], [email] and [role]
    are the user's id, email and role; this holds for the access codec
    and for the refresh codec. *)
Theorem verify_issue_roundtrip (user : SafeUser) (w : World)
        (accessSpan refreshSpan : Z) :
  jwt_timespan (JWT_EXPIRES_IN boot) = inr accessSpan ->
  0 < accessSpan ->
  jwt_timespan (JWT_REFRESH_EXPIRES_IN boot) = inr refreshSpan ->
  0 < refreshSpan ->
  (exists token payload,
      generateAccessToken boot user w = (Return token, w) /\
      verifyAccessToken boot token w = (Return (Some payload), w) /\
      userId payload = su_id user /\
      email payload = su_email user /\
      role payload = su_role user)
  /\ (exists token payload,
         generateRefreshToken boot user w = (Return token, w) /\
         verifyRefreshToken boot token w = (Return (Some payload), w) /\
         userId payload = su_id user /\
         email payload = su_email user /\
         role payload = su_role user).
Proof.
  intros Ha Hapos Hr Hrpos. split.
  - destruct (jwt_verify_sign (su_id user) (su_email user) (su_role user)
                (JWT_SECRET boot) (JWT_EXPIRES_IN boot) accessSpan w Ha Hapos)
      as (token & payload & Hs & Hv & ->).
    exists token. eexists. split; [exact Hs|].
    rewrite verifyAccessToken_caught, Hv. simpl. repeat split.
  - destruct (jwt_verify_sign (su_id user) (su_email user) (su_role user)
                (JWT_REFRESH_SECRET boot) (JWT_REFRESH_EXPIRES_IN boot)
                refreshSpan w Hr Hrpos)
      as (token & payload & Hs & Hv & ->).
    exists token. eexists. split; [exact Hs|].
    rewrite verifyRefreshToken_caught, Hv. simpl. repeat split.
Qed.

(** When the token presented was not issued in the current second, the
    refresh token a rotation issues is another string. *)
Lemma rotation_issues_another_token (token : string) (payload : JwtPayload)
      (user : SafeUser) (newRefreshToken : string) (w : World) :
  jwt_decode token (JWT_REFRESH_SECRET boot) = inr payload ->
  iat payload <> Some (clock w / 1000) ->
  generateRefreshToken boot user w = (Return newRefreshToken, w) ->
  newRefreshToken <> token.
Proof.
  intros Hdec Hiat Hgen ->. unfold generateRefreshToken, jwt_sign, bind, now, ret in Hgen.
  destruct (jwt_timespan (JWT_REFRESH_EXPIRES_IN boot)) as [e|span];
    [discriminate|].
  inversion Hgen as [Htok]. rewrite <- Htok, jwt_decode_encode in Hdec.
  inversion Hdec; subst payload. simpl in Hiat. congruence.
Qed.

End Codec.

(** The default lifetimes are positive timespans for every
    [jsonwebtoken]. *)
Lemma default_lifetimes {JWT : JsonWebToken} {LAWS : JsonWebTokenLaws JWT} :
  jwt_timespan (JWT_EXPIRES_IN empty_env) = inr 900 /\
  jwt_timespan (JWT_REFRESH_EXPIRES_IN empty_env) = inr 604800.
Proof.
  split.
  - apply (jwt_timespan_unit "15" "m"%char); try reflexivity; discriminate.
  - apply (jwt_timespan_unit "7" "d"%char); try reflexivity; discriminate.
Qed.

(** The round trip run on the transparent tokens with the default
    configuration. *)
Lemma verify_issue_roundtrip_witness :
  (exists token payload,
      generateAccessToken (JWT := Plain.jwt) empty_env john (quiet 1700000000123)
      = (Return token, quiet 1700000000123) /\
      verifyAccessToken (JWT := Plain.jwt) empty_env token (quiet 1700000000123)
      = (Return (Some payload), quiet 1700000000123) /\
      userId payload = 1 /\ email payload = "john@x.com" /\ role payload = "user")
  /\ (exists token payload,
         generateRefreshToken (JWT := Plain.jwt) empty_env john (quiet 1700000000123)
         = (Return token, quiet 1700000000123) /\
         verifyRefreshToken (JWT := Plain.jwt) empty_env token (quiet 1700000000123)
         = (Return (Some payload), quiet 1700000000123) /\
         userId payload = 1 /\ email payload = "john@x.com" /\ role payload = "user").
Proof.
  apply (verify_issue_roundtrip (LAWS := plain_jwt_laws) empty_env john
           (quiet 1700000000123) 900 604800).
  - vm_compute. reflexivity.
  - lia.
  - vm_compute. reflexivity.
  - lia.
Defined.

(* ================================================================== *)
(** * The queries, evaluated *)
(* ================================================================== *)

Lemma users_by_email_eval (e : string) (w : World) :
  Query.users_by_email e w = (Return (rows (user_with_email e w)), w).
Proof. unfold Query.users_by_email, bind, get_db, ret. rewrite limit_1. reflexivity. Qed.

Lemma users_by_id_eval (i : Z) (w : World) :
  Query.users_by_id i w = (Return (rows (user_with_id i w)), w).
Proof. unfold Query.users_by_id, bind, get_db, ret. rewrite limit_1. reflexivity. Qed.

Lemma refreshTokens_by_token_eval (t : string) (w : World) :
  Query.refreshTokens_by_token t w = (Return (rows (row_with_token t w)), w).
Proof.
  unfold Query.refreshTokens_by_token, bind, get_db, ret. rewrite limit_1. reflexivity.
Qed.

Lemma delete_by_id_eval (i : Z) (w : World) :
  Query.delete_refreshToken_by_id i w = (Return tt, with_db (without_row i (db w)) w).
Proof. reflexivity. Qed.

Lemma delete_by_token_eval (t : string) (w : World) :
  Query.delete_refreshToken_by_token t w
  = (Return tt, with_db (without_token t (db w)) w).
Proof. reflexivity. Qed.

Lemma logger_eval (l : Level) (f : list (string * LogValue)) (m : string) (w : World) :
  logger l f m w = (Return tt, logged l f m w).
Proof. reflexivity. Qed.

Lemma now_eval (w : World) : now w = (Return (clock w), w).
Proof. reflexivity. Qed.

Lemma getTokenExpirationTime_world (s : string) (w : World) :
  snd (getTokenExpirationTime s w) = w.
Proof.
  unfold getTokenExpirationTime, bind, now, throw, ret.
  destruct (match_expiresIn s) as [[a u]|]; [|reflexivity].
  destruct (milliseconds u); [|reflexivity].
  destruct (Js.parseInt a); reflexivity.
Qed.

(** The three ways an insert into [refresh_tokens] can end. *)
Lemma insert_refreshToken_cases (uid : Z) (token : string) (expiresAt : Js.Date)
      (w : World) :
  (exists e,
      expiresAt = Js.ValidDate e /\
      existsb (Query.token_is token) (refreshTokens (db w)) = false /\
      Query.insert_refreshToken uid token expiresAt w
      = (Return tt, with_db (with_row uid token e (clock w) (db w)) w))
  \/ (exists err,
         Query.insert_refreshToken uid token expiresAt w
         = (Throw err,
            with_db (mkDb (users (db w)) (refreshTokens (db w)) (users_seq (db w))
                          (refreshTokens_seq (db w) + 1)) w))
  \/ (exists err, Query.insert_refreshToken uid token expiresAt w = (Throw err, w)).
Proof.
  unfold Query.insert_refreshToken.
  destruct expiresAt as [e|]; [|right; right; eexists; reflexivity].
  unfold bind, get_db, now, put_db, throw.
  destruct (existsb (Query.token_is token) (refreshTokens (db w))) eqn:Et.
  { right; left. eexists; reflexivity. }
  destruct (existsb (Query.id_is uid) (users (db w))) eqn:Eu; simpl.
  - left. exists e. repeat split.
  - right; left. eexists; reflexivity.
Qed.

Lemma insert_user_eval (name_ email_ password_ : string) (w : World) :
  user_with_email email_ w = None ->
  Query.insert_user name_ email_ password_ w
  = (Return [new_user name_ email_ password_ w],
     with_db (with_user (new_user name_ email_ password_ w) (db w)) w).
Proof.
  intros H. unfold Query.insert_user, bind, get_db, now, put_db, ret.
  rewrite (existsb_find_none _ _ H). reflexivity.
Qed.

(* ================================================================== *)
(** * The ledger of refresh tokens *)
(* ================================================================== *)

Lemma filter_out_one (l : list RefreshTokenRow) (old : RefreshTokenRow) :
  NoDup (map rt_id l) -> In old l ->
  S (List.length (filter (fun r => negb (Query.row_id_is (rt_id old) r)) l))
  = List.length l.
Proof.
  induction l as [|a l IH]; simpl; intros Hnd Hin; [contradiction|].
  inversion Hnd as [|? ? Hnotin Hnd']; subst.
  unfold Query.row_id_is at 1. destruct Hin as [->|Hin].
  - rewrite Z.eqb_refl. simpl. f_equal.
    f_equal. clear IH Hnd Hnd'. induction l as [|c l IH]; simpl; [reflexivity|].
    unfold Query.row_id_is at 1. destruct (rt_id c =? rt_id old) eqn:E.
    + exfalso. apply Hnotin. apply Z.eqb_eq in E. left; assumption.
    + simpl. f_equal. apply IH. intros H. apply Hnotin. right; assumption.
  - destruct (rt_id a =? rt_id old) eqn:E.
    + exfalso. apply Hnotin. apply Z.eqb_eq in E. rewrite E.
      apply in_map; assumption.
    + simpl. f_equal. apply IH; assumption.
Qed.

(** With one row per token, deleting the row found for [t] by its id leaves
    no row for [t]. *)
Lemma without_row_no_token (d : Db) (t : string) (old : RefreshTokenRow) :
  NoDup (map rt_token (refreshTokens d)) ->
  find (Query.token_is t) (refreshTokens d) = Some old ->
  forall r, In r (refreshTokens (without_row (rt_id old) d)) -> rt_token r <> t.
Proof.
  intros Hnd Hfind r Hr Ht. simpl in Hr.
  apply filter_In in Hr as [Hin Hid].
  apply find_In in Hfind as [Hold Htok]. unfold Query.token_is in Htok.
  apply String.eqb_eq in Htok.
  assert (r = old) by (apply (NoDup_map_injective rt_token _ r old Hnd); congruence).
  subst r. unfold Query.row_id_is in Hid. rewrite Z.eqb_refl in Hid. discriminate.
Qed.

Lemma ledger_wf_without_row (i : Z) (d : Db) :
  ledger_wf d -> ledger_wf (without_row i d).
Proof.
  intros (Ht & Hi & Hs). repeat split; simpl.
  - apply filter_keeps_distinct; assumption.
  - apply filter_keeps_distinct; assumption.
  - apply Forall_forall. intros r Hr. apply filter_In in Hr as [Hr _].
    rewrite Forall_forall in Hs. apply Hs; assumption.
Qed.

Lemma ledger_wf_without_token (t : string) (d : Db) :
  ledger_wf d -> ledger_wf (without_token t d).
Proof.
  intros (Ht & Hi & Hs). repeat split; simpl.
  - apply filter_keeps_distinct; assumption.
  - apply filter_keeps_distinct; assumption.
  - apply Forall_forall. intros r Hr. apply filter_In in Hr as [Hr _].
    rewrite Forall_forall in Hs. apply Hs; assumption.
Qed.

Lemma ledger_wf_with_row (uid : Z) (token : string) (e c : Z) (d : Db) :
  ledger_wf d ->
  existsb (Query.token_is token) (refreshTokens d) = false ->
  ledger_wf (with_row uid token e c d).
Proof.
  intros (Ht & Hi & Hs) Hfresh. rewrite Forall_forall in Hs.
  repeat split; simpl.
  - rewrite map_app. simpl. apply NoDup_snoc; [assumption|].
    intros Hin. apply in_map_iff in Hin as (r & Hr & Hinr).
    assert (existsb (Query.token_is token) (refreshTokens d) = true).
    { apply existsb_exists. exists r. split; [assumption|].
      unfold Query.token_is. apply String.eqb_eq. assumption. }
    congruence.
  - rewrite map_app. simpl. apply NoDup_snoc; [assumption|].
    intros Hin. apply in_map_iff in Hin as (r & Hr & Hinr).
    specialize (Hs r Hinr). lia.
  - apply Forall_forall. intros r Hr. apply in_app_iff in Hr as [Hr|[<-|[]]].
    + specialize (Hs r Hr). lia.
    + simpl. lia.
Qed.

Lemma ledger_wf_bump (d : Db) :
  ledger_wf d ->
  ledger_wf (mkDb (users d) (refreshTokens d) (users_seq d) (refreshTokens_seq d + 1)).
Proof.
  intros (Ht & Hi & Hs). repeat split; simpl; try assumption.
  rewrite Forall_forall in *. intros r Hr. specialize (Hs r Hr). lia.
Qed.

Lemma filter_incl {A} (p : A -> bool) (l : list A) : incl (filter p l) l.
Proof. intros x Hx. apply filter_In in Hx as [Hx _]. exact Hx. Qed.

(* ================================================================== *)
(** * The end of register, login and refresh *)
(* ================================================================== *)

Section TailFacts.

Context {JWT : JsonWebToken}.
Variable boot : ProcessEnv.
Variable env : ProcessEnv.

(** Either every step succeeds, and the row of the new refresh token is
    added to what [prepare] left; or a step throws, the [catch] runs, and
    the ledger is as it was before or after [prepare]. *)
Lemma issue_and_store_cases (user : User) (prepare : M unit)
      (fields : list (string * LogValue)) (msg : string)
      (respond : string -> string -> Response) (h : Js.Error -> M Response)
      (w wp : World) :
  prepare w = (Return tt, wp) ->
  clock wp = clock w ->
  users (db wp) = users (db w) ->
  (exists accessToken newRefreshToken e,
      generateAccessToken boot (omit_password user) w = (Return accessToken, w) /\
      generateRefreshToken boot (omit_password user) w = (Return newRefreshToken, w) /\
      existsb (Query.token_is newRefreshToken) (refreshTokens (db wp)) = false /\
      try_catch (issue_and_store boot env user prepare fields msg respond) h w
      = (Return (respond accessToken newRefreshToken),
         logged Info fields msg
                (with_db (with_row (user_id user) newRefreshToken e (clock w) (db wp))
                         wp)))
  \/ (exists err w',
         try_catch (issue_and_store boot env user prepare fields msg respond) h w
         = h err w' /\
         users (db w') = users (db w) /\
         (refreshTokens (db w') = refreshTokens (db w) \/
          refreshTokens (db w') = refreshTokens (db wp))).
Proof.
  intros Hprep Hclock Husers. unfold issue_and_store, try_catch, bind.
  unfold generateAccessToken, generateRefreshToken.
  cbn [su_id su_email su_role omit_password].
  pose proof (jwt_sign_world (user_id user) (user_email user) (user_role user)
                (JWT_SECRET boot) (JWT_EXPIRES_IN boot) w) as Hw1.
  destruct (jwt_sign _ _ _ (JWT_SECRET boot) _ w) as [[accessToken|e1] wa];
    simpl in Hw1; subst wa; [|right; exists e1, w; auto].
  pose proof (jwt_sign_world (user_id user) (user_email user) (user_role user)
                (JWT_REFRESH_SECRET boot) (JWT_REFRESH_EXPIRES_IN boot) w) as Hw2.
  destruct (jwt_sign _ _ _ (JWT_REFRESH_SECRET boot) _ w)
    as [[newRefreshToken|e2] wa]; simpl in Hw2; subst wa;
    [|right; exists e2, w; auto].
  rewrite Hprep.
  pose proof (getTokenExpirationTime_world (refreshLifetime env) wp) as Hw3.
  destruct (getTokenExpirationTime (refreshLifetime env) wp) as [[expiresAt|e3] wa];
    simpl in Hw3; subst wa; [|right; exists e3, wp; auto].
  destruct (insert_refreshToken_cases (user_id user) newRefreshToken expiresAt wp)
    as [(e & -> & Hfresh & Hins)|[(err & Hins)|(err & Hins)]]; rewrite Hins.
  - left. exists accessToken, newRefreshToken, e. rewrite Hclock. repeat split.
    exact Hfresh.
  - right. eexists err, _. split; [reflexivity|]. simpl. auto.
  - right. exists err, wp. auto.
Qed.

(** A row that is in the ledger afterwards was there before, or is the
    row of the refresh token in the response. *)
Lemma issue_and_store_rows (user : User) (prepare : M unit)
      (fields : list (string * LogValue)) (msg : string)
      (respond : string -> string -> Response)
      (lf : Js.Error -> list (string * LogValue)) (lmsg lerr : string)
      (w wp : World) (row : RefreshTokenRow) :
  prepare w = (Return tt, wp) ->
  clock wp = clock w ->
  users (db wp) = users (db w) ->
  incl (refreshTokens (db wp)) (refreshTokens (db w)) ->
  (forall a n, refresh_token_of (Return (respond a n)) = Some n) ->
  In row (refreshTokens
            (db (snd (try_catch (issue_and_store boot env user prepare fields msg respond)
                                (failed lf lmsg lerr) w)))) ->
  In row (refreshTokens (db w)) \/
  refresh_token_of
    (fst (try_catch (issue_and_store boot env user prepare fields msg respond)
                    (failed lf lmsg lerr) w)) = Some (rt_token row).
Proof.
  intros Hprep Hclock Husers Hincl Hresp.
  destruct (issue_and_store_cases user prepare fields msg respond
              (failed lf lmsg lerr) w wp Hprep Hclock Husers)
    as [(a & n & e & _ & _ & _ & ->)|(err & w' & -> & _ & Hrows)].
  - cbn [fst snd]. rewrite Hresp. simpl. rewrite in_app_iff. intros [Hin|[<-|[]]].
    + left. apply Hincl. exact Hin.
    + right. reflexivity.
  - simpl. intros Hin. left. destruct Hrows as [Hr|Hr]; rewrite Hr in Hin.
    + exact Hin.
    + apply Hincl. exact Hin.
Qed.

End TailFacts.

(* ================================================================== *)
(** * login *)
(* ================================================================== *)

Section Login.

Context {JWT : JsonWebToken} {BCRYPT : Bcrypt}.
Variable boot : ProcessEnv.
Variable env : ProcessEnv.

Lemma login_user_not_found (b : LoginInput) (w : World) :
  user_with_email (login_email b) w = None ->
  login boot env b w
  = (Return (failure 401 "Invalid email or password"),
     logged Warn [("email", LStr (login_email b))] "Login failed: user not found" w).
Proof.
  intros H. unfold login, try_catch, bind.
  rewrite users_by_email_eval, H. reflexivity.
Qed.

Lemma login_inactive (b : LoginInput) (w : World) (u : User) :
  user_with_email (login_email b) w = Some u ->
  user_isActive u = false ->
  login boot env b w
  = (Return (failure 401 "Account is inactive"),
     logged Warn [("userId", LNum (user_id u)); ("email", LStr (login_email b))]
            "Login failed: user account is inactive" w).
Proof.
  intros H Ha. unfold login, try_catch, bind.
  rewrite users_by_email_eval, H. simpl. rewrite Ha. reflexivity.
Qed.

Lemma login_invalid_password (b : LoginInput) (w : World) (u : User) :
  user_with_email (login_email b) w = Some u ->
  user_isActive u = true ->
  bcrypt_compare (login_password b) (user_password u) = false ->
  login boot env b w
  = (Return (failure 401 "Invalid email or password"),
     logged Warn [("userId", LNum (user_id u)); ("email", LStr (login_email b))]
            "Login failed: invalid password" w).
Proof.
  intros H Ha Hp. unfold login, try_catch, bind.
  rewrite users_by_email_eval, H. simpl. rewrite Ha, Hp. reflexivity.
Qed.

Lemma login_valid_password (b : LoginInput) (w : World) (u : User) :
  user_with_email (login_email b) w = Some u ->
  user_isActive u = true ->
  bcrypt_compare (login_password b) (user_password u) = true ->
  login boot env b w
  = try_catch
      (issue_and_store boot env u (ret tt)
         [("userId", LNum (user_id u)); ("email", LStr (login_email b))]
         "User logged in successfully"
         (fun accessToken refreshToken_ =>
            succeeded 200 (AuthResponse (omit_password u) accessToken refreshToken_)
                      "Logged in successfully"))
      (failed (fun error => [("error", LStr (Js.message error));
                             ("email", LStr (login_email b))])
              "Failed to login user" "Failed to login") w.
Proof.
  intros H Ha Hp. unfold login, try_catch, bind.
  rewrite users_by_email_eval, H. unfold rows. cbv beta iota.
  rewrite Ha, Hp. reflexivity.
Qed.

Lemma login_rows (b : LoginInput) (w : World) (row : RefreshTokenRow) :
  In row (refreshTokens (db (snd (login boot env b w)))) ->
  In row (refreshTokens (db w)) \/
  refresh_token_of (fst (login boot env b w)) = Some (rt_token row).
Proof.
  destruct (user_with_email (login_email b) w) as [u|] eqn:Hu.
  - destruct (user_isActive u) eqn:Ha.
    + destruct (bcrypt_compare (login_password b) (user_password u)) eqn:Hp.
      * rewrite (login_valid_password b w u Hu Ha Hp).
        apply (issue_and_store_rows boot env u (ret tt) _ _ _ _ _ _ w w);
          try reflexivity.
        apply incl_refl.
      * rewrite (login_invalid_password b w u Hu Ha Hp). simpl. auto.
    + rewrite (login_inactive b w u Hu Ha). simpl. auto.
  - rewrite (login_user_not_found b w Hu). simpl. auto.
Qed.

(** C4.  A login with an email that no stored user has, and a login with
    the email of a stored, active user and a password that [bcrypt.compare]
    rejects, get the same response: status 401 and the error
    [Invalid email or password].  Neither touches the database; the log
    lines differ. *)
Theorem login_unknown_email_like_wrong_password
        (b1 b2 : LoginInput) (w1 w2 : World) (u : User) :
  (forall x, In x (users (db w1)) -> user_email x <> login_email b1) ->
  user_with_email (login_email b2) w2 = Some u ->
  user_isActive u = true ->
  bcrypt_compare (login_password b2) (user_password u) = false ->
  fst (login boot env b1 w1) = fst (login boot env b2 w2)
  /\ fst (login boot env b1 w1) = Return (failure 401 "Invalid email or password")
  /\ fst (login boot env b2 w2) = Return (failure 401 "Invalid email or password")
  /\ db (snd (login boot env b1 w1)) = db w1
  /\ db (snd (login boot env b2 w2)) = db w2.
Proof.
  intros Hnone Hsome Hact Hpw.
  assert (H1 : user_with_email (login_email b1) w1 = None).
  { apply find_none_iff. intros x Hx. unfold Query.email_is.
    apply String.eqb_neq. apply Hnone; assumption. }
  rewrite (login_user_not_found b1 w1 H1).
  rewrite (login_invalid_password b2 w2 u Hsome Hact Hpw).
  repeat split.
Qed.

(** C2, as the code has it.  A login against a stored user whose
    [isActive] is false is logged with its own reason and answered with
    status 401, the status of the generic failure, and with the error
    [Account is inactive], which is not the generic error message.  The
    database is left as it was. *)
Theorem login_inactive_account (b : LoginInput) (w : World) (u : User) :
  user_with_email (login_email b) w = Some u ->
  user_isActive u = false ->
  login boot env b w
  = (Return (failure 401 "Account is inactive"),
     logged Warn [("userId", LNum (user_id u)); ("email", LStr (login_email b))]
            "Login failed: user account is inactive" w)
  /\ status (failure 401 "Account is inactive")
     = status (failure 401 "Invalid email or password")
  /\ error (body (failure 401 "Account is inactive"))
     <> error (body (failure 401 "Invalid email or password")).
Proof.
  intros H Ha. rewrite (login_inactive b w u H Ha). repeat split.
  simpl. discriminate.
Qed.

End Login.

(** C4 run on two requests. *)
Lemma login_unknown_email_like_wrong_password_witness :
  fst (login (JWT := Plain.jwt) (BCRYPT := Plain.bcrypt) empty_env empty_env
             (mkLoginInput "nobody@x.com" "Abc123xx")
             (world_of [active_john] [] 1700000001000))
  = fst (login (JWT := Plain.jwt) (BCRYPT := Plain.bcrypt) empty_env empty_env
               (mkLoginInput "john@x.com" "Wrong999")
               (world_of [active_john] [] 1700000001000)).
Proof.
  refine (proj1 (login_unknown_email_like_wrong_password
           (JWT := Plain.jwt) (BCRYPT := Plain.bcrypt) empty_env empty_env
           (mkLoginInput "nobody@x.com" "Abc123xx")
           (mkLoginInput "john@x.com" "Wrong999")
           (world_of [active_john] [] 1700000001000)
           (world_of [active_john] [] 1700000001000) active_john _ _ _ _)).
  - simpl. intros x [<-|[]]. simpl. discriminate.
  - reflexivity.
  - reflexivity.
  - reflexivity.
Defined.

(** The amended C2 run on a dormant account. *)
Lemma login_inactive_account_witness :
  fst (login (JWT := Plain.jwt) (BCRYPT := Plain.bcrypt) empty_env empty_env
             (mkLoginInput "john@x.com" "Abc123xx")
             (world_of [dormant] [] 1700000001000))
  = Return (failure 401 "Account is inactive").
Proof.
  refine (f_equal fst (proj1 (login_inactive_account (JWT := Plain.jwt) (BCRYPT := Plain.bcrypt)
           empty_env empty_env (mkLoginInput "john@x.com" "Abc123xx")
           (world_of [dormant] [] 1700000001000) dormant _ _))).
  - reflexivity.
  - reflexivity.
Defined.

(** Against C2 as the specification words it: the response to a login on a
    dormant account and the response to a login with an unknown email share
    the status and differ in the error message. *)
Lemma login_inactive_is_told_apart :
  let w := world_of [dormant] [] 1700000001000 in
  let inactive := fst (login (JWT := Plain.jwt) (BCRYPT := Plain.bcrypt)
                             empty_env empty_env
                             (mkLoginInput "john@x.com" "Abc123xx") w) in
  let generic := fst (login (JWT := Plain.jwt) (BCRYPT := Plain.bcrypt)
                            empty_env empty_env
                            (mkLoginInput "nobody@x.com" "Abc123xx") w) in
  user_with_email "john@x.com" w = Some dormant /\
  user_isActive dormant = false /\
  inactive = Return (failure 401 "Account is inactive") /\
  generic = Return (failure 401 "Invalid email or password") /\
  inactive <> generic.
Proof.
  vm_compute. repeat split. discriminate.
Qed.

(* ================================================================== *)
(** * refreshToken *)
(* ================================================================== *)

Section Refresh.

Context {JWT : JsonWebToken}.
Variable boot : ProcessEnv.
Variable env : ProcessEnv.

(** The handler, branch by branch. *)
Lemma refreshToken_cases (b : RefreshTokenInput) (w : World) :
  let token := refreshToken_field b in
  refreshToken boot env b w
  = match fst (jwt_verify token (JWT_REFRESH_SECRET boot) w) with
    | Throw e =>
        (Return (failure 403 "Invalid refresh token"),
         warned "Refresh token verification failed" (Js.message e) w)
    | Return payload =>
        match row_with_token token w with
        | None =>
            (Return (failure 403 "Invalid refresh token"),
             logged Warn [("userId", LNum (userId payload))]
                    "Refresh token not found in database" w)
        | Some storedToken =>
            if clock w >? rt_expiresAt storedToken
            then (Return (failure 403 "Refresh token expired"),
                  with_db (without_row (rt_id storedToken) (db w)) w)
            else
              match user_with_id (userId payload) w with
              | None => (Return (failure 403 "User not found"), w)
              | Some user => rotation boot env storedToken user w
              end
        end
    end.
Proof.
  intros token. unfold refreshToken, try_catch, bind.
  rewrite verifyRefreshToken_caught. fold token.
  destruct (fst (jwt_verify token (JWT_REFRESH_SECRET boot) w)) as [p|e];
    unfold caught; cbv beta iota; [|reflexivity].
  rewrite refreshTokens_by_token_eval.
  destruct (row_with_token token w) as [old|]; unfold rows; cbv beta iota;
    [|reflexivity].
  rewrite now_eval.
  destruct (clock w >? rt_expiresAt old); [reflexivity|].
  rewrite users_by_id_eval.
  destruct (user_with_id (userId p) w) as [user|]; unfold rows; cbv beta iota;
    reflexivity.
Qed.

(** A rotation ends in one of two ways: the pair is returned, the old row
    is gone and one row for the new refresh token is there; or something
    threw, the answer is a 500 and no row has been added. *)
Lemma rotation_cases (old : RefreshTokenRow) (user : User) (w : World) :
  (exists accessToken newRefreshToken e,
      generateAccessToken boot (omit_password user) w = (Return accessToken, w) /\
      generateRefreshToken boot (omit_password user) w = (Return newRefreshToken, w) /\
      existsb (Query.token_is newRefreshToken)
              (refreshTokens (without_row (rt_id old) (db w))) = false /\
      rotation boot env old user w
      = (Return (succeeded 200 (TokenPair accessToken newRefreshToken)
                           "Tokens refreshed successfully"),
         logged Info [("userId", LNum (user_id user))] "Tokens refreshed successfully"
                (with_db (with_row (user_id user) newRefreshToken e (clock w)
                                   (without_row (rt_id old) (db w))) w)))
  \/ (exists w', rotation boot env old user w
                 = (Return (failure 500 "Failed to refresh token"), w')
                 /\ users (db w') = users (db w)
                 /\ incl (refreshTokens (db w')) (refreshTokens (db w))).
Proof.
  unfold rotation.
  destruct (issue_and_store_cases boot env user
              (Query.delete_refreshToken_by_id (rt_id old))
              [("userId", LNum (user_id user))] "Tokens refreshed successfully"
              (fun a n => succeeded 200 (TokenPair a n) "Tokens refreshed successfully")
              (failed (fun error => [("error", LStr (Js.message error))])
                      "Failed to refresh token" "Failed to refresh token")
              w (with_db (without_row (rt_id old) (db w)) w)
              (delete_by_id_eval (rt_id old) w) eq_refl eq_refl)
    as [(a & n & e & Ha & Hn & Hfresh & Hrun)|(err & w' & Hrun & Husers & Hrows)].
  - left. exists a, n, e. split; [exact Ha|]. split; [exact Hn|].
    split; [exact Hfresh|]. rewrite Hrun. reflexivity.
  - right. eexists. split; [rewrite Hrun; reflexivity|]. simpl. split; [exact Husers|].
    destruct Hrows as [->| ->]; [apply incl_refl | apply filter_incl].
Qed.

Lemma rotation_not_expired (old : RefreshTokenRow) (user : User) (w : World) :
  fst (rotation boot env old user w) <> Return (failure 403 "Refresh token expired").
Proof.
  destruct (rotation_cases old user w)
    as [(a & n & e & _ & _ & _ & ->)|(w' & -> & _)]; simpl; discriminate.
Qed.

Lemma refreshToken_rows (b : RefreshTokenInput) (w : World) (row : RefreshTokenRow) :
  In row (refreshTokens (db (snd (refreshToken boot env b w)))) ->
  In row (refreshTokens (db w)) \/
  refresh_token_of (fst (refreshToken boot env b w)) = Some (rt_token row).
Proof.
  rewrite refreshToken_cases.
  destruct (fst (jwt_verify _ _ w)) as [payload|e]; [|simpl; auto].
  destruct (row_with_token (refreshToken_field b) w) as [old|]; [|simpl; auto].
  destruct (clock w >? rt_expiresAt old).
  { simpl. intros Hin. left. apply (filter_incl _ _ _ Hin). }
  destruct (user_with_id (userId payload) w) as [user|]; [|simpl; auto].
  unfold rotation.
  apply (issue_and_store_rows boot env user
           (Query.delete_refreshToken_by_id (rt_id old)) _ _ _ _ _ _ w
           (with_db (without_row (rt_id old) (db w)) w)); try reflexivity.
  apply filter_incl.
Qed.

(** C3, as the code has it.  For a refresh whose token [jwt.verify]
    accepts and for which the ledger holds a row: when the clock is
    strictly after the row's [expiresAt] the row is deleted and the answer
    is 403 [Refresh token expired]; when the clock is at [expiresAt], or
    before it, the row is not expired: the handler goes on to look the
    user up, answers 403 [User not found] without touching anything when
    there is none and runs the rotation otherwise, and its answer is never
    [Refresh token expired]. *)
Theorem refresh_expiry_boundary (b : RefreshTokenInput) (w : World)
        (payload : JwtPayload) (stored : RefreshTokenRow) :
  fst (jwt_verify (refreshToken_field b) (JWT_REFRESH_SECRET boot) w) = Return payload ->
  row_with_token (refreshToken_field b) w = Some stored ->
  (rt_expiresAt stored < clock w ->
   refreshToken boot env b w
   = (Return (failure 403 "Refresh token expired"),
      with_db (without_row (rt_id stored) (db w)) w))
  /\ (clock w <= rt_expiresAt stored ->
      refreshToken boot env b w
      = match user_with_id (userId payload) w with
        | None => (Return (failure 403 "User not found"), w)
        | Some user => rotation boot env stored user w
        end
      /\ fst (refreshToken boot env b w)
         <> Return (failure 403 "Refresh token expired")).
Proof.
  intros Hv Hrow. rewrite refreshToken_cases, Hv, Hrow. split.
  - intros Hlt. apply Z.gtb_lt in Hlt. rewrite Hlt. reflexivity.
  - intros Hle. destruct (clock w >? rt_expiresAt stored) eqn:E.
    { apply Z.gtb_lt in E. lia. }
    split; [reflexivity|].
    destruct (user_with_id (userId payload) w) as [user|].
    + apply rotation_not_expired.
    + simpl. discriminate.
Qed.

(** A refresh with a string for which the ledger holds no row is answered
    403 [Invalid refresh token] and leaves the database as it is. *)
Lemma refresh_without_row (b : RefreshTokenInput) (w : World) :
  (forall r, In r (refreshTokens (db w)) -> rt_token r <> refreshToken_field b) ->
  exists w', refreshToken boot env b w
             = (Return (failure 403 "Invalid refresh token"), w')
             /\ db w' = db w.
Proof.
  intros Hnone. rewrite refreshToken_cases.
  assert (Hrow : row_with_token (refreshToken_field b) w = None).
  { apply find_none_iff. intros r Hr. unfold Query.token_is.
    apply String.eqb_neq. apply Hnone; assumption. }
  rewrite Hrow.
  destruct (fst (jwt_verify _ _ w)); eexists; split; reflexivity.
Qed.

End Refresh.

(** The amended C3 run with the clock exactly at [expiresAt]: the refresh
    goes on to the rotation. *)
Lemma refresh_expiry_boundary_witness :
  let w := johns_world 1700000100000 1700000100000 in
  let t := john_token 1700000000 in
  let stored := mkRefreshTokenRow 1 1 t 1700000100000 1700000000123 in
  plain_refresh t w
  = rotation (JWT := Plain.jwt) empty_env empty_env stored active_john w
  /\ fst (plain_refresh t w) <> Return (failure 403 "Refresh token expired").
Proof.
  intros w t stored.
  destruct (refresh_expiry_boundary (JWT := Plain.jwt) empty_env empty_env
              (mkRefreshTokenInput t) w (john_claims 1700000000) stored)
    as [_ Hvalid].
  - vm_compute. reflexivity.
  - vm_compute. reflexivity.
  - apply Hvalid. simpl. lia.
Defined.

(** Against C3 as the specification words it: the token verifies, the
    ledger row's [expiresAt] is exactly the clock, and the refresh succeeds;
    it does not answer [Refresh token expired], and the row is rotated, not
    deleted as expired. *)
Lemma refresh_at_expiresAt_is_served :
  let w := johns_world 1700000100000 1700000100000 in
  let t := john_token 1700000000 in
  fst (jwt_verify (JWT := Plain.jwt) t "your-super-secret-refresh-key" w)
  = Return (john_claims 1700000000) /\
  row_with_token t w = Some (mkRefreshTokenRow 1 1 t 1700000100000 1700000000123) /\
  rt_expiresAt (mkRefreshTokenRow 1 1 t 1700000100000 1700000000123) = clock w /\
  status (response_of (plain_refresh t w)) = 200 /\
  fst (plain_refresh t w) <> Return (failure 403 "Refresh token expired") /\
  List.length (refreshTokens (db (snd (plain_refresh t w)))) = 1%nat.
Proof.
  vm_compute. repeat split. discriminate.
Qed.

(* ================================================================== *)
(** * logout *)
(* ================================================================== *)

Lemma logout_eval (req_user : option JwtPayload) (b : RefreshTokenInput) (w : World) :
  logout req_user b w
  = (Return (succeeded 200 Null "Logged out successfully"),
     logged Info [("userId", userId_of req_user)] "User logged out successfully"
            (with_db (without_token (refreshToken_field b) (db w)) w)).
Proof. reflexivity. Qed.

Lemma without_token_twice (t : string) (d : Db) :
  without_token t (without_token t d) = without_token t d.
Proof. unfold without_token. simpl. rewrite filter_twice. reflexivity. Qed.

Lemma without_token_absent (t : string) (d : Db) :
  find (Query.token_is t) (refreshTokens d) = None -> without_token t d = d.
Proof.
  intros H. unfold without_token. rewrite filter_all.
  - destruct d; reflexivity.
  - intros r Hr. rewrite (proj1 (find_none_iff _ _) H r Hr). reflexivity.
Qed.

(** C8.  [logout] answers 200 [Logged out successfully] for every string,
    whether or not the ledger has a row for it (when it has none the
    database is left as it is); a second [logout] with the same string,
    whenever and by whomever, answers the same and leaves the database,
    the ledger with it, exactly as the first call left it. *)
Theorem logout_idempotent (u1 u2 : option JwtPayload) (b : RefreshTokenInput)
        (w : World) (t2 : Z) :
  let first := logout u1 b w in
  let second := logout u2 b (with_clock t2 (snd first)) in
  fst first = Return (succeeded 200 Null "Logged out successfully")
  /\ fst second = Return (succeeded 200 Null "Logged out successfully")
  /\ refreshTokens (db (snd second)) = refreshTokens (db (snd first))
  /\ db (snd second) = db (snd first)
  /\ (row_with_token (refreshToken_field b) w = None -> db (snd first) = db w)
  /\ row_with_token (refreshToken_field b) (snd first) = None.
Proof.
  intros first second. unfold second, first. rewrite !logout_eval. simpl.
  repeat split.
  - rewrite filter_twice. reflexivity.
  - change (without_token (refreshToken_field b)
              (without_token (refreshToken_field b) (db w))
            = without_token (refreshToken_field b) (db w)).
    apply without_token_twice.
  - intros H. apply without_token_absent. exact H.
  - unfold row_with_token. simpl. apply find_none_iff. intros r Hr.
    apply filter_In in Hr as [_ Hr]. apply negb_true_iff in Hr. exact Hr.
Qed.

(** [POST /logout] with a non-empty string is [logout] with no identity. *)
Lemma post_logout_eval (s : string) (w : World) :
  s <> EmptyString ->
  post_logout (mkRefreshTokenInput s) w = logout None (mkRefreshTokenInput s) w.
Proof.
  intros Hs. unfold post_logout, validateBody, refreshTokenSchema, check.
  cbn [refreshToken_field].
  destruct s as [|c s]; [congruence|].
  destruct (1 <=? Js.len (String c s)) eqn:E; [reflexivity|].
  apply Z.leb_gt in E. unfold Js.len in E. simpl String.length in E. lia.
Qed.

(** C10.  [logout] looks at nothing but the string: whatever [s] is, signed
    or not, and whoever calls, with an identity or without, it answers 200
    [Logged out successfully] and the ledger loses exactly the rows whose
    token is [s], whichever user they belong to; every other row stays and
    the users are untouched.  The route runs it for every non-empty [s]
    without authenticating the caller. *)
Theorem logout_checks_nothing (req_user : option JwtPayload) (s : string) (w : World) :
  let after := snd (logout req_user (mkRefreshTokenInput s) w) in
  fst (logout req_user (mkRefreshTokenInput s) w)
  = Return (succeeded 200 Null "Logged out successfully")
  /\ refreshTokens (db after)
     = filter (fun r => negb (Query.token_is s r)) (refreshTokens (db w))
  /\ (forall r, In r (refreshTokens (db w)) -> rt_token r = s ->
                ~ In r (refreshTokens (db after)))
  /\ (forall r, In r (refreshTokens (db w)) -> rt_token r <> s ->
                In r (refreshTokens (db after)))
  /\ users (db after) = users (db w)
  /\ (forall other,
         fst (logout other (mkRefreshTokenInput s) w)
         = fst (logout req_user (mkRefreshTokenInput s) w)
         /\ db (snd (logout other (mkRefreshTokenInput s) w)) = db after)
  /\ (s <> EmptyString ->
      post_logout (mkRefreshTokenInput s) w = logout None (mkRefreshTokenInput s) w).
Proof.
  intros after. unfold after. rewrite !logout_eval. simpl.
  split; [reflexivity|]. split; [reflexivity|].
  split.
  { intros r _ Ht Hin. apply filter_In in Hin as [_ Hne].
    unfold Query.token_is in Hne. subst s. rewrite String.eqb_refl in Hne.
    discriminate. }
  split.
  { intros r Hin Ht. apply filter_In. split; [assumption|].
    unfold Query.token_is. apply negb_true_iff. apply String.eqb_neq. assumption. }
  split; [reflexivity|].
  split.
  { intros other. split; reflexivity. }
  apply post_logout_eval.
Qed.

(** C10 run: the caller is John (user 1), the string is no token at all and
    the row that carries it belongs to user 2. *)
Lemma logout_checks_nothing_witness :
  let w := world_of [active_john]
                    [mkRefreshTokenRow 1 2 "not-a-jwt" 1700604800123 1700000000123]
                    1700000100000 in
  fst (jwt_verify (JWT := Plain.jwt) "not-a-jwt" "your-super-secret-refresh-key" w)
  = Throw Plain.malformed
  /\ fst (logout (Some (john_claims 1700000000)) (mkRefreshTokenInput "not-a-jwt") w)
     = Return (succeeded 200 Null "Logged out successfully")
  /\ refreshTokens
       (db (snd (logout (Some (john_claims 1700000000))
                        (mkRefreshTokenInput "not-a-jwt") w))) = [].
Proof.
  intros w. split; [vm_compute; reflexivity|].
  destruct (logout_checks_nothing (Some (john_claims 1700000000)) "not-a-jwt" w)
    as (H1 & H2 & _).
  split; [exact H1|]. rewrite H2. reflexivity.
Defined.

Lemma logout_rows (u : option JwtPayload) (b : RefreshTokenInput) (w : World)
      (row : RefreshTokenRow) :
  In row (refreshTokens (db (snd (logout u b w)))) -> In row (refreshTokens (db w)).
Proof. rewrite logout_eval. simpl. apply filter_incl. Qed.

(* ================================================================== *)
(** * register *)
(* ================================================================== *)

Lemma registerSchema_inr {ZOD : Zod} (b b' : RegisterInput) :
  registerSchema b = inr b' ->
  b' = mkRegisterInput (Js.trim (reg_name b)) (normalize_email (reg_email b))
                       (reg_password b).
Proof.
  unfold registerSchema.
  match goal with |- context [match ?l with [] => _ | _ => _ end] => destruct l end;
    intros H; inversion H; reflexivity.
Qed.

Section Register.

Context {JWT : JsonWebToken} {BCRYPT : Bcrypt} {ZOD : Zod}.
Variable boot : ProcessEnv.
Variable env : ProcessEnv.

Lemma post_register_valid (b b' : RegisterInput) (w : World) :
  registerSchema b = inr b' ->
  post_register boot env b w = register boot env b' w.
Proof. intros H. unfold post_register, validateBody. rewrite H. reflexivity. Qed.

Lemma register_duplicate (b : RegisterInput) (w : World) (u : User) :
  user_with_email (reg_email b) w = Some u ->
  register boot env b w
  = (Return (failure 400 "User with this email already exists"),
     logged Warn [("email", LStr (reg_email b))]
            "Registration failed: user already exists" w).
Proof.
  intros H. unfold register, try_catch, bind.
  rewrite users_by_email_eval, H. reflexivity.
Qed.

Lemma register_new_email (b : RegisterInput) (w : World) :
  user_with_email (reg_email b) w = None ->
  let u := new_user (reg_name b) (reg_email b) (bcrypt_hash (reg_password b) 12) w in
  register boot env b w
  = try_catch
      (issue_and_store boot env u (ret tt)
         [("userId", LNum (user_id u)); ("email", LStr (reg_email b))]
         "User registered successfully"
         (fun accessToken refreshToken_ =>
            succeeded 201 (AuthResponse (omit_password u) accessToken refreshToken_)
                      "User registered successfully"))
      (failed (fun error => [("error", LStr (Js.message error));
                             ("email", LStr (reg_email b))])
              "Failed to register user" "Failed to register user")
      (with_db (with_user u (db w)) w).
Proof.
  intros H u. unfold register, try_catch, bind.
  rewrite users_by_email_eval, H. unfold rows. cbv beta iota.
  rewrite (insert_user_eval _ _ _ w H). reflexivity.
Qed.

(** A registration with an email that is not stored yet stores the user,
    whatever comes of the tokens afterwards. *)
Lemma register_stores_user (b : RegisterInput) (w : World) :
  user_with_email (reg_email b) w = None ->
  users (db (snd (register boot env b w)))
  = users (db w)
      ++ [new_user (reg_name b) (reg_email b) (bcrypt_hash (reg_password b) 12) w].
Proof.
  intros H. rewrite (register_new_email b w H).
  set (u := new_user (reg_name b) (reg_email b) (bcrypt_hash (reg_password b) 12) w).
  set (w' := with_db (with_user u (db w)) w).
  destruct (issue_and_store_cases boot env u (ret tt)
              [("userId", LNum (user_id u)); ("email", LStr (reg_email b))]
              "User registered successfully"
              (fun a r => succeeded 201 (AuthResponse (omit_password u) a r)
                                    "User registered successfully")
              (failed (fun error => [("error", LStr (Js.message error));
                                     ("email", LStr (reg_email b))])
                      "Failed to register user" "Failed to register user")
              w' w' eq_refl eq_refl eq_refl)
    as [(a & n & e & _ & _ & _ & ->)|(err & w'' & -> & Husers & _)].
  - reflexivity.
  - simpl. exact Husers.
Qed.

Lemma register_rows (b : RegisterInput) (w : World) (row : RefreshTokenRow) :
  In row (refreshTokens (db (snd (register boot env b w)))) ->
  In row (refreshTokens (db w)) \/
  refresh_token_of (fst (register boot env b w)) = Some (rt_token row).
Proof.
  destruct (user_with_email (reg_email b) w) as [u|] eqn:Hu.
  - rewrite (register_duplicate b w u Hu). simpl. auto.
  - rewrite (register_new_email b w Hu).
    set (u := new_user (reg_name b) (reg_email b) (bcrypt_hash (reg_password b) 12) w).
    apply (issue_and_store_rows boot env u (ret tt) _ _ _ _ _ _
             (with_db (with_user u (db w)) w) (with_db (with_user u (db w)) w));
      try reflexivity.
    apply incl_refl.
Qed.

(** C9.  Registering John with the email [JOHN@X.com], an address [zod]
    accepts and that is not stored yet in its lower-case form, stores a
    user whose email is [john@x.com]; from then on a registration whose
    body validates and whose email is [john@x.com] in any letter case is
    answered 400 [User with this email already exists] and inserts
    nothing.  In general, with the emails stored as the schema leaves them,
    a registration whose body validates and whose email equals a stored
    user's email up to letter case gets that answer and leaves the
    database as it is. *)
Theorem register_lowercases_and_rejects_duplicates :
  (forall w,
      zod_is_email "JOHN@X.com" = true ->
      user_with_email "john@x.com" w = None ->
      let w1 := snd (post_register boot env
                       (mkRegisterInput "John" "JOHN@X.com" "Abc123xx") w) in
      exists u,
        users (db w1) = users (db w) ++ [u] /\
        user_email u = "john@x.com" /\
        user_name u = "John" /\
        forall b2 b2' t2,
          registerSchema b2 = inr b2' ->
          Js.toLowerCase (reg_email b2) = "john@x.com" ->
          post_register boot env b2 (with_clock t2 w1)
          = (Return (failure 400 "User with this email already exists"),
             logged Warn [("email", LStr "john@x.com")]
                    "Registration failed: user already exists" (with_clock t2 w1)))
  /\ (forall w b b' u,
         emails_normalized (db w) ->
         registerSchema b = inr b' ->
         In u (users (db w)) ->
         Js.toLowerCase (reg_email b) = Js.toLowerCase (user_email u) ->
         post_register boot env b w
         = (Return (failure 400 "User with this email already exists"),
            logged Warn [("email", LStr (user_email u))]
                   "Registration failed: user already exists" w)).
Proof.
  split.
  - intros w Hz Hnone w1.
    assert (Hschema : registerSchema (mkRegisterInput "John" "JOHN@X.com" "Abc123xx")
                      = inr (mkRegisterInput "John" "john@x.com" "Abc123xx")).
    { unfold registerSchema, check. cbn [reg_name reg_email reg_password].
      rewrite Hz. reflexivity. }
    assert (Hw1 : users (db w1)
                  = users (db w)
                      ++ [new_user "John" "john@x.com" (bcrypt_hash "Abc123xx" 12) w]).
    { unfold w1. rewrite (post_register_valid _ _ w Hschema).
      apply (register_stores_user (mkRegisterInput "John" "john@x.com" "Abc123xx") w).
      exact Hnone. }
    eexists. split; [exact Hw1|]. split; [reflexivity|]. split; [reflexivity|].
    intros b2 b2' t2 Hb2 Hlow.
    rewrite (post_register_valid _ _ _ Hb2).
    pose proof (registerSchema_inr _ _ Hb2) as ->.
    unfold normalize_email. rewrite Hlow.
    change (Js.trim "john@x.com") with "john@x.com".
    eapply (register_duplicate
              (mkRegisterInput (Js.trim (reg_name b2)) "john@x.com" (reg_password b2))).
    unfold user_with_email. cbn [db with_clock reg_email]. rewrite Hw1.
    apply find_app_new; [exact Hnone | reflexivity].
  - intros w b b' u Hnorm Hb Hin Hlow.
    rewrite (post_register_valid _ _ _ Hb).
    pose proof (registerSchema_inr _ _ Hb) as ->.
    assert (Hemail : normalize_email (reg_email b) = user_email u).
    { unfold emails_normalized in Hnorm. rewrite Forall_forall in Hnorm.
      rewrite <- (Hnorm u Hin). unfold normalize_email. rewrite Hlow. reflexivity. }
    rewrite Hemail.
    destruct (find_exists (Query.email_is (user_email u)) (users (db w)) u Hin)
      as [y Hy].
    { unfold Query.email_is. apply String.eqb_refl. }
    eapply (register_duplicate
              (mkRegisterInput (Js.trim (reg_name b)) (user_email u) (reg_password b))).
    exact Hy.
Qed.

(** Registrations keep the emails normalised. *)
Lemma post_register_keeps_emails_normalized (b : RegisterInput) (w : World) :
  emails_normalized (db w) ->
  emails_normalized (db (snd (post_register boot env b w))).
Proof.
  intros Hnorm. unfold post_register, validateBody.
  destruct (registerSchema b) as [issues|b'] eqn:Hb; [exact Hnorm|].
  pose proof (registerSchema_inr _ _ Hb) as ->.
  set (b' := mkRegisterInput _ _ _).
  destruct (user_with_email (reg_email b') w) as [u|] eqn:Hu.
  - rewrite (register_duplicate b' w u Hu). exact Hnorm.
  - unfold emails_normalized. rewrite (register_stores_user b' w Hu).
    apply Forall_app. split; [exact Hnorm|].
    constructor; [|constructor]. simpl. apply normalize_email_idempotent.
Qed.

End Register.

(** C9 run with the loose email test: John registers as [JOHN@X.com], then
    again as [John@X.Com]. *)
Lemma register_lowercases_and_rejects_duplicates_witness :
  let first := mkRegisterInput "John" "JOHN@X.com" "Abc123xx" in
  let again := mkRegisterInput "Johnny" "John@X.Com" "Xyz789ab" in
  let run := post_register (JWT := Plain.jwt) (BCRYPT := Plain.bcrypt)
                           (ZOD := Plain.zod) empty_env empty_env in
  let w := world_of [] [] 1700000000123 in
  let w1 := snd (run first w) in
  (exists u, users (db w1) = users (db w) ++ [u] /\ user_email u = "john@x.com")
  /\ run again (with_clock 1700000005000 w1)
     = (Return (failure 400 "User with this email already exists"),
        logged Warn [("email", LStr "john@x.com")]
               "Registration failed: user already exists"
               (with_clock 1700000005000 w1)).
Proof.
  intros first again run w w1.
  destruct (register_lowercases_and_rejects_duplicates
              (JWT := Plain.jwt) (BCRYPT := Plain.bcrypt) (ZOD := Plain.zod)
              empty_env empty_env) as [Hscenario _].
  destruct (Hscenario w eq_refl eq_refl) as (u & Hu & He & _ & Hnext).
  split.
  - exists u. split; assumption.
  - apply (Hnext again (mkRegisterInput "Johnny" "john@x.com" "Xyz789ab")
                 1700000005000); reflexivity.
Defined.


(* ================================================================== *)
(** * What every request keeps *)
(* ================================================================== *)

Lemma read_only_preserves (P : Db -> Prop) {A} (m : M A) :
  read_only m -> preserves P m.
Proof. intros H w Hw. rewrite H. exact Hw. Qed.

Lemma preserves_ret (P : Db -> Prop) {A} (a : A) : preserves P (ret a).
Proof. intros w Hw. exact Hw. Qed.

Lemma preserves_throw (P : Db -> Prop) {A} (e : Js.Error) : preserves P (@throw A e).
Proof. intros w Hw. exact Hw. Qed.

Lemma preserves_bind (P : Db -> Prop) {A B} (m : M A) (k : A -> M B) :
  preserves P m -> (forall a, preserves P (k a)) -> preserves P (bind m k).
Proof.
  intros Hm Hk w Hw. unfold bind. specialize (Hm w Hw).
  destruct (m w) as [[a|e] w']; simpl in *.
  - apply Hk. exact Hm.
  - exact Hm.
Qed.

Lemma preserves_try_catch (P : Db -> Prop) {A} (m : M A) (h : Js.Error -> M A) :
  preserves P m -> (forall e, preserves P (h e)) -> preserves P (try_catch m h).
Proof.
  intros Hm Hh w Hw. unfold try_catch. specialize (Hm w Hw).
  destruct (m w) as [[a|e] w']; simpl in *.
  - exact Hm.
  - apply Hh. exact Hm.
Qed.

Lemma read_only_logger (l : Level) (f : list (string * LogValue)) (msg : string) :
  read_only (logger l f msg).
Proof. intros w. reflexivity. Qed.

Lemma read_only_now : read_only now.
Proof. intros w. reflexivity. Qed.

Lemma read_only_users_by_email (e : string) : read_only (Query.users_by_email e).
Proof. intros w. reflexivity. Qed.

Lemma read_only_users_by_id (i : Z) : read_only (Query.users_by_id i).
Proof. intros w. reflexivity. Qed.

Lemma read_only_refreshTokens_by_token (t : string) :
  read_only (Query.refreshTokens_by_token t).
Proof. intros w. reflexivity. Qed.

Lemma read_only_getTokenExpirationTime (s : string) :
  read_only (getTokenExpirationTime s).
Proof. intros w. rewrite getTokenExpirationTime_world. reflexivity. Qed.

Lemma read_only_generateAccessToken {JWT : JsonWebToken} (boot : ProcessEnv)
      (u : SafeUser) :
  read_only (generateAccessToken boot u).
Proof. intros w. unfold generateAccessToken. rewrite jwt_sign_world. reflexivity. Qed.

Lemma read_only_generateRefreshToken {JWT : JsonWebToken} (boot : ProcessEnv)
      (u : SafeUser) :
  read_only (generateRefreshToken boot u).
Proof. intros w. unfold generateRefreshToken. rewrite jwt_sign_world. reflexivity. Qed.

Lemma read_only_verifyRefreshToken {JWT : JsonWebToken} (boot : ProcessEnv)
      (t : string) :
  read_only (verifyRefreshToken boot t).
Proof.
  intros w. rewrite verifyRefreshToken_caught.
  destruct (fst (jwt_verify t (JWT_REFRESH_SECRET boot) w)); reflexivity.
Qed.

Create HintDb read_only.

#[local] Hint Resolve read_only_logger read_only_now read_only_users_by_email
  read_only_users_by_id read_only_refreshTokens_by_token
  read_only_getTokenExpirationTime read_only_generateAccessToken
  read_only_generateRefreshToken read_only_verifyRefreshToken : read_only.

Lemma insert_refreshToken_keeps_ledger_wf (uid : Z) (token : string)
      (expiresAt : Js.Date) :
  preserves ledger_wf (Query.insert_refreshToken uid token expiresAt).
Proof.
  intros w Hw.
  destruct (insert_refreshToken_cases uid token expiresAt w)
    as [(e & -> & Hfresh & ->)|[(err & ->)|(err & ->)]]; simpl.
  - apply ledger_wf_with_row; assumption.
  - apply ledger_wf_bump; assumption.
  - exact Hw.
Qed.

Lemma delete_by_id_keeps_ledger_wf (i : Z) :
  preserves ledger_wf (Query.delete_refreshToken_by_id i).
Proof. intros w Hw. apply ledger_wf_without_row. exact Hw. Qed.

Lemma delete_by_token_keeps_ledger_wf (t : string) :
  preserves ledger_wf (Query.delete_refreshToken_by_token t).
Proof. intros w Hw. apply ledger_wf_without_token. exact Hw. Qed.

Lemma insert_user_keeps_ledger_wf (n e p : string) :
  preserves ledger_wf (Query.insert_user n e p).
Proof.
  intros w Hw. unfold Query.insert_user, bind, get_db, now, put_db, throw, ret.
  destruct (existsb (Query.email_is e) (users (db w))); exact Hw.
Qed.

(** Walks through a handler: every step keeps the ledger well formed. *)
Ltac keep_ledger_wf :=
  repeat first
    [ apply preserves_ret
    | apply preserves_throw
    | apply insert_refreshToken_keeps_ledger_wf
    | apply delete_by_id_keeps_ledger_wf
    | apply delete_by_token_keeps_ledger_wf
    | apply insert_user_keeps_ledger_wf
    | apply read_only_preserves; solve [auto with read_only]
    | apply preserves_bind; [|intros ?]
    | apply preserves_try_catch; [|intros ?]
    | match goal with
      | |- preserves _ (match ?x with _ => _ end) => destruct x
      end ].

Section Invariants.

Context {JWT : JsonWebToken} {BCRYPT : Bcrypt} {ZOD : Zod}.
Variable boot : ProcessEnv.
Variable env : ProcessEnv.

Lemma register_keeps_ledger_wf (b : RegisterInput) :
  preserves ledger_wf (register boot env b).
Proof. unfold register. keep_ledger_wf. Qed.

Lemma login_keeps_ledger_wf (b : LoginInput) :
  preserves ledger_wf (login boot env b).
Proof. unfold login. keep_ledger_wf. Qed.

Lemma refreshToken_keeps_ledger_wf (b : RefreshTokenInput) :
  preserves ledger_wf (refreshToken boot env b).
Proof. unfold refreshToken. keep_ledger_wf. Qed.

Lemma logout_keeps_ledger_wf (u : option JwtPayload) (b : RefreshTokenInput) :
  preserves ledger_wf (logout u b).
Proof. unfold logout. keep_ledger_wf. Qed.

Lemma validateBody_preserves (P : Db -> Prop) {A}
      (schema : A -> list ValidationError + A) (show : A -> list (string * string))
      (req_body : A) (next : A -> M Response) :
  (forall b, preserves P (next b)) ->
  preserves P (validateBody schema show req_body next).
Proof.
  intros Hnext. unfold validateBody. destruct (schema req_body) as [issues|b].
  - intros w Hw. exact Hw.
  - apply Hnext.
Qed.

Lemma serve_keeps_ledger_wf (time : Z) (r : Request) (w : World) :
  ledger_wf (db w) -> ledger_wf (db (snd (serve boot env time r w))).
Proof.
  intros Hw. destruct r as [b|b|b|b]; unfold serve.
  - apply (validateBody_preserves ledger_wf registerSchema show_register b
             (register boot env) (register_keeps_ledger_wf) (with_clock time w) Hw).
  - apply (validateBody_preserves ledger_wf loginSchema show_login b
             (login boot env) (login_keeps_ledger_wf) (with_clock time w) Hw).
  - apply (validateBody_preserves ledger_wf refreshTokenSchema show_refreshToken b
             (refreshToken boot env) (refreshToken_keeps_ledger_wf)
             (with_clock time w) Hw).
  - apply (validateBody_preserves ledger_wf refreshTokenSchema show_refreshToken b
             (logout None) (logout_keeps_ledger_wf None) (with_clock time w) Hw).
Qed.

Lemma login_keeps_emails_normalized (b : LoginInput) :
  preserves emails_normalized (login boot env b).
Proof.
  intros w Hw. unfold emails_normalized in *.
  destruct (user_with_email (login_email b) w) as [u|] eqn:Hu.
  - destruct (user_isActive u) eqn:Ha.
    + destruct (bcrypt_compare (login_password b) (user_password u)) eqn:Hp.
      * rewrite (login_valid_password boot env b w u Hu Ha Hp).
        destruct (issue_and_store_cases boot env u (ret tt)
                    [("userId", LNum (user_id u)); ("email", LStr (login_email b))]
                    "User logged in successfully"
                    (fun a r => succeeded 200 (AuthResponse (omit_password u) a r)
                                          "Logged in successfully")
                    (failed (fun error => [("error", LStr (Js.message error));
                                           ("email", LStr (login_email b))])
                            "Failed to login user" "Failed to login")
                    w w eq_refl eq_refl eq_refl)
          as [(a & n & e & _ & _ & _ & ->)|(err & w' & -> & Husers & _)].
        -- exact Hw.
        -- simpl. rewrite Husers. exact Hw.
      * rewrite (login_invalid_password boot env b w u Hu Ha Hp). exact Hw.
    + rewrite (login_inactive boot env b w u Hu Ha). exact Hw.
  - rewrite (login_user_not_found boot env b w Hu). exact Hw.
Qed.

Lemma refreshToken_keeps_users (b : RefreshTokenInput) (w : World) :
  users (db (snd (refreshToken boot env b w))) = users (db w).
Proof.
  rewrite refreshToken_cases.
  destruct (fst (jwt_verify _ _ w)) as [payload|e]; [|reflexivity].
  destruct (row_with_token (refreshToken_field b) w) as [old|]; [|reflexivity].
  destruct (clock w >? rt_expiresAt old); [reflexivity|].
  destruct (user_with_id (userId payload) w) as [user|]; [|reflexivity].
  destruct (rotation_cases boot env old user w)
    as [(a & n & e & _ & _ & _ & ->)|(w' & -> & Husers & _)].
  - reflexivity.
  - exact Husers.
Qed.

Lemma serve_keeps_emails_normalized (time : Z) (r : Request) (w : World) :
  emails_normalized (db w) -> emails_normalized (db (snd (serve boot env time r w))).
Proof.
  intros Hw. destruct r as [b|b|b|b]; unfold serve.
  - apply (post_register_keeps_emails_normalized boot env b (with_clock time w) Hw).
  - apply (validateBody_preserves emails_normalized loginSchema show_login b
             (login boot env) login_keeps_emails_normalized (with_clock time w) Hw).
  - unfold post_refresh, validateBody.
    destruct (refreshTokenSchema b) as [issues|b']; [exact Hw|].
    unfold emails_normalized. rewrite refreshToken_keeps_users. exact Hw.
  - unfold post_logout, validateBody.
    destruct (refreshTokenSchema b) as [issues|b']; [exact Hw|].
    rewrite logout_eval. exact Hw.
Qed.

(** In every world the server reaches, the ledger has one row per token
    and per id, and the emails are stored as the schema leaves them. *)
Lemma reachable_invariants (w : World) :
  reachable boot env w -> ledger_wf (db w) /\ emails_normalized (db w).
Proof.
  induction 1 as [time|time r w Hreach [IHl IHe]].
  - split.
    + repeat split; simpl; constructor.
    + constructor.
  - split.
    + apply serve_keeps_ledger_wf. exact IHl.
    + apply serve_keeps_emails_normalized. exact IHe.
Qed.

End Invariants.

(* ================================================================== *)
(** * Rotation *)
(* ================================================================== *)

Section Rotation.

Context {JWT : JsonWebToken} {BCRYPT : Bcrypt} {ZOD : Zod}.
Variable boot : ProcessEnv.
Variable env : ProcessEnv.

(** A row that is in the ledger after a request was there before it, or is
    the row of the refresh token the response hands out. *)
Lemma serve_rows (time : Z) (r : Request) (w : World) (row : RefreshTokenRow) :
  In row (refreshTokens (db (snd (serve boot env time r w)))) ->
  In row (refreshTokens (db w)) \/
  refresh_token_of (fst (serve boot env time r w)) = Some (rt_token row).
Proof.
  destruct r as [b|b|b|b]; unfold serve.
  - unfold post_register, validateBody.
    destruct (registerSchema b) as [issues|b']; [simpl; auto|].
    apply (register_rows boot env b' (with_clock time w) row).
  - unfold post_login, validateBody.
    destruct (loginSchema b) as [issues|b']; [simpl; auto|].
    apply (login_rows boot env b' (with_clock time w) row).
  - unfold post_refresh, validateBody.
    destruct (refreshTokenSchema b) as [issues|b']; [simpl; auto|].
    apply (refreshToken_rows boot env b' (with_clock time w) row).
  - unfold post_logout, validateBody.
    destruct (refreshTokenSchema b) as [issues|b']; [simpl; auto|].
    intros Hin. left. apply (logout_rows None b' (with_clock time w) row Hin).
Qed.

(** While no response hands the string [t] out, the ledger gets no row
    for [t]. *)
Lemma serve_all_no_row (t : string) (requests : list (Z * Request)) :
  forall w,
    (forall row, In row (refreshTokens (db w)) -> rt_token row <> t) ->
    (forall o, In o (fst (serve_all boot env requests w)) ->
               refresh_token_of o <> Some t) ->
    forall row, In row (refreshTokens (db (snd (serve_all boot env requests w)))) ->
                rt_token row <> t.
Proof.
  induction requests as [|[time r] rest IH]; intros w Hnone Hout.
  - exact Hnone.
  - cbn [serve_all] in *.
    destruct (serve boot env time r w) as [o w'] eqn:Hserve.
    destruct (serve_all boot env rest w') as [os w''] eqn:Hrest.
    cbn [fst snd] in *.
    assert (Hnone' : forall row, In row (refreshTokens (db w')) -> rt_token row <> t).
    { intros row Hin Heq.
      pose proof (serve_rows time r w row) as Hrows.
      rewrite Hserve in Hrows. cbn [fst snd] in Hrows.
      destruct (Hrows Hin) as [Hold|Hnew].
      - exact (Hnone row Hold Heq).
      - apply (Hout o (or_introl eq_refl)). rewrite Hnew, Heq. reflexivity. }
    specialize (IH w' Hnone'). rewrite Hrest in IH. cbn [fst snd] in IH.
    apply IH. intros o' Hin. apply Hout. right. exact Hin.
Qed.

(** A refresh with the string [t] that succeeds (status 200) found a
    ledger row [old] for [t]; afterwards that row is gone, exactly one row
    has been added and it is the row of the refresh token just issued, as
    many rows are there as before, and the users are untouched; the
    response carries the new access token and the new refresh token and
    nothing else, both issued for a stored user at this request.  Provided
    [t] is not issued again, by this rotation or by
    a request served after it, no ledger row matches [t] any more and a
    further refresh with [t], at whatever time, is answered 403
    [Invalid refresh token] and changes nothing in the database. *)
Lemma rotation_unless_reissued (b : RefreshTokenInput) (w w1 : World) (resp : Response) :
  ledger_wf (db w) ->
  refreshToken boot env b w = (Return resp, w1) ->
  status resp = 200 ->
  exists old fresh user accessToken newRefreshToken,
    row_with_token (refreshToken_field b) w = Some old /\
    In user (users (db w)) /\
    generateAccessToken boot (omit_password user) w = (Return accessToken, w) /\
    generateRefreshToken boot (omit_password user) w = (Return newRefreshToken, w) /\
    resp = succeeded 200 (TokenPair accessToken newRefreshToken)
                     "Tokens refreshed successfully" /\
    refreshTokens (db w1)
    = filter (fun r => negb (Query.row_id_is (rt_id old) r)) (refreshTokens (db w))
        ++ [fresh] /\
    rt_token fresh = newRefreshToken /\
    ~ In old (refreshTokens (db w1)) /\
    List.length (refreshTokens (db w1)) = List.length (refreshTokens (db w)) /\
    users (db w1) = users (db w) /\
    ledger_wf (db w1) /\
    (newRefreshToken <> refreshToken_field b ->
     row_with_token (refreshToken_field b) w1 = None /\
     forall (later : list (Z * Request)) (time : Z),
       (forall o, In o (fst (serve_all boot env later w1)) ->
                  refresh_token_of o <> Some (refreshToken_field b)) ->
       row_with_token (refreshToken_field b) (snd (serve_all boot env later w1)) = None
       /\ exists w2,
           refreshToken boot env b
                        (with_clock time (snd (serve_all boot env later w1)))
           = (Return (failure 403 "Invalid refresh token"), w2)
           /\ db w2 = db (snd (serve_all boot env later w1))).
Proof.
  intros Hwf Hrun Hstatus. rewrite refreshToken_cases in Hrun.
  destruct (fst (jwt_verify _ _ w)) as [payload|e];
    [|inversion Hrun; subst; discriminate].
  destruct (row_with_token (refreshToken_field b) w) as [old|] eqn:Hrow;
    [|inversion Hrun; subst; discriminate].
  destruct (clock w >? rt_expiresAt old); [inversion Hrun; subst; discriminate|].
  destruct (user_with_id (userId payload) w) as [user|] eqn:Huser;
    [|inversion Hrun; subst; discriminate].
  destruct (rotation_cases boot env old user w)
    as [(a & n & e & Ha & Hn & Hfresh & Hrot)|(w' & Hrot & _)];
    rewrite Hrot in Hrun; inversion Hrun; subst; [|discriminate].
  clear Hrun Hstatus Hrot.
  apply find_In in Huser as [Huser _].
  destruct Hwf as (Htok & Hid & Hseq).
  pose proof (find_In _ _ _ Hrow) as [Hold _].
  exists old,
    (mkRefreshTokenRow (refreshTokens_seq (db w) + 1) (user_id user) n e (clock w)),
    user, a, n.
  split; [reflexivity|]. split; [exact Huser|]. split; [exact Ha|].
  split; [exact Hn|]. split; [reflexivity|]. split; [reflexivity|].
  split; [reflexivity|]. simpl.
  split.
  { rewrite in_app_iff. intros [Hin|[Heq|[]]].
    - apply filter_In in Hin as [_ Hne]. unfold Query.row_id_is in Hne.
      rewrite Z.eqb_refl in Hne. discriminate.
    - rewrite Forall_forall in Hseq. specialize (Hseq old Hold).
      rewrite <- Heq in Hseq. simpl in Hseq. lia. }
  split.
  { rewrite length_app. simpl. rewrite Nat.add_1_r.
    apply filter_out_one; assumption. }
  split; [reflexivity|].
  split.
  { apply (ledger_wf_with_row (user_id user) n e (clock w)
             (without_row (rt_id old) (db w))).
    - apply ledger_wf_without_row. repeat split; assumption.
    - exact Hfresh. }
  intros Hnew.
  assert (Hnone : forall r,
             In r (filter (fun r => negb (Query.row_id_is (rt_id old) r))
                          (refreshTokens (db w))
                     ++ [mkRefreshTokenRow (refreshTokens_seq (db w) + 1)
                                           (user_id user) n e (clock w)]) ->
             rt_token r <> refreshToken_field b).
  { intros r Hr. apply in_app_iff in Hr as [Hr|[<-|[]]].
    - apply (without_row_no_token (db w) _ old Htok Hrow r). exact Hr.
    - simpl. exact Hnew. }
  split.
  { unfold row_with_token. simpl. apply find_none_iff. intros r Hr.
    unfold Query.token_is. apply String.eqb_neq. apply Hnone. exact Hr. }
  intros later time Hout.
  set (w1 := logged Info [("userId", LNum (user_id user))]
                    "Tokens refreshed successfully"
                    (with_db (with_row (user_id user) n e (clock w)
                                       (without_row (rt_id old) (db w))) w)) in *.
  pose proof (serve_all_no_row (refreshToken_field b) later w1 Hnone Hout) as Hlater.
  split.
  { unfold row_with_token. apply find_none_iff. intros r Hr.
    unfold Query.token_is. apply String.eqb_neq. apply Hlater. exact Hr. }
  destruct (refresh_without_row boot env b
              (with_clock time (snd (serve_all boot env later w1))))
    as (w2 & Hrun & Hdb).
  { exact Hlater. }
  exists w2. split; [exact Hrun | exact Hdb].
Qed.

End Rotation.

Lemma johns_world_wf (expiresAt t : Z) : ledger_wf (db (johns_world expiresAt t)).
Proof.
  repeat split; simpl.
  - constructor; [intros []|constructor].
  - constructor; [intros []|constructor].
  - constructor; [simpl; lia|constructor].
Qed.

(** [jwt.sign] is a function of the claims,
    and [iat] counts whole seconds: a rotation in the second in which the
    token was issued, for a user whose email and role have not changed,
    issues the very same string, and the ledger row that replaces the old
    one carries it. *)
Lemma rotation_within_the_second :
  let w := johns_world 1700604800123 1700000000900 in
  let t := john_token 1700000000 in
  exists accessToken,
    response_of (plain_refresh t w)
    = succeeded 200 (TokenPair accessToken t) "Tokens refreshed successfully"
    /\ row_with_token t (snd (plain_refresh t w))
       = Some (mkRefreshTokenRow 2 1 t 1700604800900 1700000000900).
Proof.
  eexists. vm_compute. split; reflexivity.
Qed.

(* ================================================================== *)
(** * Further properties: the token codec *)
(* ================================================================== *)

Lemma plain_jwt_keyed : JsonWebTokenKeyed Plain.jwt.
Proof.
  split. intros secret other claims Hne. simpl. unfold Plain.decode, Plain.encode.
  rewrite plain_get_put_str, plain_get_put_Z, !plain_get_put_str, !plain_get_put_opt.
  destruct (String.eqb secret other) eqn:E.
  - apply String.eqb_eq in E. contradiction.
  - eexists. reflexivity.
Qed.

Lemma plain_bcrypt_laws : BcryptLaws Plain.bcrypt.
Proof. split. intros password rounds. simpl. apply String.eqb_refl. Qed.

Section CodecMore.

Context {JWT : JsonWebToken} {LAWS : JsonWebTokenLaws JWT}.
Variable boot : ProcessEnv.

(** A token [jwt.sign] made at one clock reading, verified at another. *)
Lemma jwt_verify_later (uid : Z) (mail rl secret expiresIn token : string) (span : Z)
      (issued w : World) :
  jwt_timespan expiresIn = inr span ->
  jwt_sign uid mail rl secret expiresIn issued = (Return token, issued) ->
  jwt_verify token secret w
  = if clock w / 1000 >=? clock issued / 1000 + span
    then (Throw (Js.mkError "TokenExpiredError" "jwt expired"), w)
    else (Return (mkJwtPayload uid mail rl (Some (clock issued / 1000))
                               (Some (clock issued / 1000 + span))), w).
Proof.
  intros Hspan Hsign. unfold jwt_sign, bind, now, ret in Hsign. rewrite Hspan in Hsign.
  inversion Hsign as [Htok]. clear Hsign.
  unfold jwt_verify, bind, now, throw, ret. rewrite jwt_decode_encode. simpl.
  destruct (clock w / 1000 >=? clock issued / 1000 + span); reflexivity.
Qed.

(** X1.  A token is accepted exactly until its lifetime is over, counted in
    whole seconds from the second it was issued in: while the clock's
    second is below [iat + lifetime] both verifiers return the payload
    with the user's id, email and role; from that second on they return
    [null] and log [jwt expired].  The second of expiry itself is already
    too late. *)
Theorem tokens_expire_on_the_second (user : SafeUser) (issued w : World)
        (accessToken newRefreshToken : string) (accessSpan refreshSpan : Z) :
  jwt_timespan (JWT_EXPIRES_IN boot) = inr accessSpan ->
  jwt_timespan (JWT_REFRESH_EXPIRES_IN boot) = inr refreshSpan ->
  generateAccessToken boot user issued = (Return accessToken, issued) ->
  generateRefreshToken boot user issued = (Return newRefreshToken, issued) ->
  (clock w / 1000 < clock issued / 1000 + accessSpan ->
   verifyAccessToken boot accessToken w
   = (Return (Some (mkJwtPayload (su_id user) (su_email user) (su_role user)
                                 (Some (clock issued / 1000))
                                 (Some (clock issued / 1000 + accessSpan)))), w))
  /\ (clock issued / 1000 + accessSpan <= clock w / 1000 ->
      verifyAccessToken boot accessToken w
      = (Return None, warned "Access token verification failed" "jwt expired" w))
  /\ (clock w / 1000 < clock issued / 1000 + refreshSpan ->
      verifyRefreshToken boot newRefreshToken w
      = (Return (Some (mkJwtPayload (su_id user) (su_email user) (su_role user)
                                    (Some (clock issued / 1000))
                                    (Some (clock issued / 1000 + refreshSpan)))), w))
  /\ (clock issued / 1000 + refreshSpan <= clock w / 1000 ->
      verifyRefreshToken boot newRefreshToken w
      = (Return None, warned "Refresh token verification failed" "jwt expired" w)).
Proof.
  intros Ha Hr Hat Hrt.
  rewrite verifyAccessToken_caught, verifyRefreshToken_caught.
  rewrite (jwt_verify_later _ _ _ _ _ _ _ issued w Ha Hat).
  rewrite (jwt_verify_later _ _ _ _ _ _ _ issued w Hr Hrt).
  repeat split; intros H.
  - destruct (_ >=? _) eqn:E; [apply Z.geb_le in E; lia | reflexivity].
  - destruct (_ >=? _) eqn:E; [reflexivity | rewrite Z.geb_leb in E; apply Z.leb_gt in E; lia].
  - destruct (_ >=? _) eqn:E; [apply Z.geb_le in E; lia | reflexivity].
  - destruct (_ >=? _) eqn:E; [reflexivity | rewrite Z.geb_leb in E; apply Z.leb_gt in E; lia].
Qed.

Context {KEYED : JsonWebTokenKeyed JWT}.

(** X2.  Nothing in a token says whether it is an access or a refresh
    token: only the secret tells them apart.  With two different secrets
    [verifyAccessToken] returns [null] for every refresh token and
    [verifyRefreshToken] returns [null] for every access token; with one
    and the same secret for both, the two verifiers give the same answer
    on every string. *)
Theorem codecs_differ_by_secret_only (user : SafeUser) (issued w : World)
        (accessToken newRefreshToken : string) :
  generateAccessToken boot user issued = (Return accessToken, issued) ->
  generateRefreshToken boot user issued = (Return newRefreshToken, issued) ->
  (JWT_SECRET boot <> JWT_REFRESH_SECRET boot ->
   fst (verifyAccessToken boot newRefreshToken w) = Return None /\
   fst (verifyRefreshToken boot accessToken w) = Return None)
  /\ (JWT_SECRET boot = JWT_REFRESH_SECRET boot ->
      forall token,
        fst (verifyAccessToken boot token w) = fst (verifyRefreshToken boot token w)).
Proof.
  intros Hat Hrt. split.
  - intros Hne.
    unfold generateAccessToken, generateRefreshToken, jwt_sign, bind, now, ret in Hat, Hrt.
    destruct (jwt_timespan (JWT_EXPIRES_IN boot)) as [e1|s1]; [discriminate|].
    destruct (jwt_timespan (JWT_REFRESH_EXPIRES_IN boot)) as [e2|s2]; [discriminate|].
    inversion Hat as [Ha]. inversion Hrt as [Hr]. clear Hat Hrt.
    rewrite verifyAccessToken_caught, verifyRefreshToken_caught.
    unfold jwt_verify, bind, now, throw.
    destruct (jwt_decode_other_secret (JWT_REFRESH_SECRET boot) (JWT_SECRET boot)
                (mkJwtPayload (su_id user) (su_email user) (su_role user)
                              (Some (clock issued / 1000))
                              (Some (clock issued / 1000 + s2)))) as [e He].
    { congruence. }
    destruct (jwt_decode_other_secret (JWT_SECRET boot) (JWT_REFRESH_SECRET boot)
                (mkJwtPayload (su_id user) (su_email user) (su_role user)
                              (Some (clock issued / 1000))
                              (Some (clock issued / 1000 + s1)))) as [e' He'].
    { exact Hne. }
    rewrite He, He'. split; reflexivity.
  - intros Heq token.
    rewrite verifyAccessToken_caught, verifyRefreshToken_caught, Heq.
    destruct (fst (jwt_verify token (JWT_REFRESH_SECRET boot) w)); reflexivity.
Qed.

End CodecMore.

(** X1 run on the transparent tokens: issued at second 1700000000 with the
    default fifteen minutes and seven days. *)
Lemma tokens_expire_on_the_second_witness :
  verifyAccessToken (JWT := Plain.jwt) empty_env (john_access_token 1700000000)
                    (quiet 1700000899999)
  = (Return (Some (mkJwtPayload 1 "john@x.com" "user" (Some 1700000000)
                                (Some 1700000900))), quiet 1700000899999)
  /\ verifyAccessToken (JWT := Plain.jwt) empty_env (john_access_token 1700000000)
                       (quiet 1700000900000)
     = (Return None,
        warned "Access token verification failed" "jwt expired" (quiet 1700000900000)).
Proof.
  destruct (tokens_expire_on_the_second (LAWS := plain_jwt_laws) empty_env john
              (quiet 1700000000123) (quiet 1700000899999)
              (john_access_token 1700000000) (john_token 1700000000) 900 604800)
    as (Hin & _); try (vm_compute; reflexivity).
  destruct (tokens_expire_on_the_second (LAWS := plain_jwt_laws) empty_env john
              (quiet 1700000000123) (quiet 1700000900000)
              (john_access_token 1700000000) (john_token 1700000000) 900 604800)
    as (_ & Hout & _); try (vm_compute; reflexivity).
  split.
  - apply Hin. vm_compute. reflexivity.
  - apply Hout. vm_compute. discriminate.
Defined.

(** X2 run with the default secrets, which differ. *)
Lemma codecs_differ_by_secret_only_witness :
  fst (verifyAccessToken (JWT := Plain.jwt) empty_env (john_token 1700000000)
                         (quiet 1700000001000)) = Return None
  /\ fst (verifyRefreshToken (JWT := Plain.jwt) empty_env (john_access_token 1700000000)
                             (quiet 1700000001000)) = Return None.
Proof.
  destruct (codecs_differ_by_secret_only (KEYED := plain_jwt_keyed) empty_env john
              (quiet 1700000000123) (quiet 1700000001000)
              (john_access_token 1700000000) (john_token 1700000000))
    as (Hdiff & _); try (vm_compute; reflexivity).
  apply Hdiff. vm_compute. discriminate.
Defined.

(* ================================================================== *)
(** * Further properties: the middleware *)
(* ================================================================== *)

Lemma split_on_one_piece (s : string) :
  has_space s = false -> split_on " " s = [s].
Proof.
  unfold has_space. induction s as [|c s IH]; simpl; intros H; [reflexivity|].
  apply orb_false_iff in H as [Hc Hs]. rewrite Hc, (IH Hs). reflexivity.
Qed.

Lemma split_on_first_piece (word rest : string) :
  has_space word = false ->
  split_on " " (word ++ String " " rest)%string = word :: split_on " " rest.
Proof.
  unfold has_space. induction word as [|c s IH]; simpl; intros H; [reflexivity|].
  apply orb_false_iff in H as [Hc Hs]. rewrite Hc, (IH Hs). reflexivity.
Qed.

Lemma append_not_empty (word rest : string) :
  String.eqb (word ++ String " " rest)%string EmptyString = false.
Proof. destruct word; reflexivity. Qed.

(** The token of a header made of two words. *)
Lemma header_token_second_word (scheme token : string) :
  has_space scheme = false -> has_space token = false ->
  header_token (Some (scheme ++ String " " token)%string) = Some token.
Proof.
  intros Hs Ht. unfold header_token. rewrite append_not_empty.
  rewrite (split_on_first_piece _ _ Hs), (split_on_one_piece _ Ht). reflexivity.
Qed.

Section Middleware.

Context {JWT : JsonWebToken}.
Variable boot : ProcessEnv.

Lemma authenticateToken_no_token (req : Req) (next : Req -> M Response) (w : World) :
  header_token (req_authorization req) = None \/
  header_token (req_authorization req) = Some EmptyString ->
  authenticateToken boot req next w
  = (Return (failure 401 "Access token required"),
     logged Warn [("url", LStr (req_url req)); ("method", LStr (req_method req))]
            "Access token missing" w).
Proof. intros [H|H]; unfold authenticateToken; rewrite H; reflexivity. Qed.

Lemma authenticateToken_token (req : Req) (next : Req -> M Response) (w : World)
      (token : string) :
  header_token (req_authorization req) = Some token ->
  token <> EmptyString ->
  authenticateToken boot req next w
  = match fst (jwt_verify token (JWT_SECRET boot) w) with
    | Return payload => next (set_user payload req) w
    | Throw e =>
        (Return (failure 403 "Invalid or expired token"),
         logged Warn [("url", LStr (req_url req)); ("method", LStr (req_method req))]
                "Invalid access token"
                (warned "Access token verification failed" (Js.message e) w))
    end.
Proof.
  intros H Hne. unfold authenticateToken. rewrite H.
  destruct token as [|c t]; [contradiction|].
  unfold bind. rewrite verifyAccessToken_caught.
  destruct (fst (jwt_verify (String c t) (JWT_SECRET boot) w)); reflexivity.
Qed.

(** X3.  [authenticateToken] takes the second word of the [Authorization]
    header and never looks at the first: whatever stands before the space
    ([Bearer], [Basic], nothing at all), a header [<word> <token>] is
    answered by the handler behind, run with [req.user] set to the claims
    of the token, when [jwt.verify] accepts the token, and with 403
    [Invalid or expired token] and two warnings when it throws.  An
    identity the request carried before is replaced, not consulted. *)
Theorem authenticateToken_reads_second_word
        (req : Req) (next : Req -> M Response) (w : World) (scheme token : string) :
  has_space scheme = false ->
  has_space token = false ->
  token <> EmptyString ->
  req_authorization req = Some (scheme ++ String " " token)%string ->
  authenticateToken boot req next w
  = match fst (jwt_verify token (JWT_SECRET boot) w) with
    | Return payload =>
        next (mkReq (req_url req) (req_method req) (req_authorization req)
                    (Some payload)) w
    | Throw e =>
        (Return (failure 403 "Invalid or expired token"),
         logged Warn [("url", LStr (req_url req)); ("method", LStr (req_method req))]
                "Invalid access token"
                (warned "Access token verification failed" (Js.message e) w))
    end.
Proof.
  intros Hs Ht Hne Hh.
  apply authenticateToken_token; [|exact Hne].
  rewrite Hh. apply header_token_second_word; assumption.
Qed.

(** X4.  Without a second word there is no token: a request with no
    [Authorization] header, with a header of one word (the bare token, for
    one), or with two spaces after the first word is answered 401 [Access
    token required]; nothing is verified, the handler behind does not run,
    and only a warning is logged. *)
Theorem authenticateToken_without_second_word
        (req : Req) (next : Req -> M Response) (w : World) :
  req_authorization req = None
  \/ (exists word, has_space word = false /\ req_authorization req = Some word)
  \/ (exists word rest,
         has_space word = false /\
         req_authorization req = Some (word ++ String " " (String " " rest))%string) ->
  authenticateToken boot req next w
  = (Return (failure 401 "Access token required"),
     logged Warn [("url", LStr (req_url req)); ("method", LStr (req_method req))]
            "Access token missing" w).
Proof.
  intros H. apply authenticateToken_no_token.
  destruct H as [H|[(word & Hw & H)|(word & rest & Hw & H)]]; rewrite H.
  - left. reflexivity.
  - unfold header_token. destruct (String.eqb word EmptyString) eqn:E.
    + right. reflexivity.
    + left. rewrite (split_on_one_piece _ Hw). reflexivity.
  - right. unfold header_token. rewrite append_not_empty.
    rewrite (split_on_first_piece _ _ Hw). reflexivity.
Qed.

Lemma optionalAuth_eval (req : Req) (next : Req -> M Response) (w : World) :
  optionalAuth boot req next w
  = match header_token (req_authorization req) with
    | Some (String c t) =>
        match fst (jwt_verify (String c t) (JWT_SECRET boot) w) with
        | Return payload => next (set_user payload req) w
        | Throw e => next req (warned "Access token verification failed" (Js.message e) w)
        end
    | _ => next req w
    end.
Proof.
  unfold optionalAuth. destruct (header_token (req_authorization req)) as [[|c t]|];
    try reflexivity.
  unfold bind. rewrite verifyAccessToken_caught.
  destruct (fst (jwt_verify (String c t) (JWT_SECRET boot) w)); reflexivity.
Qed.

(** X5.  [optionalAuth] never answers by itself: whatever the header, the
    handler behind runs, on the same database and clock, and the log gets
    nothing or exactly one warning.  Without a token the handler gets the
    request and the world as they came.  With a token that [jwt.verify]
    accepts it gets the request with the claims as [req.user] and the world
    as it came, as it does behind [authenticateToken].  With a token that
    makes [jwt.verify] throw it gets the request as it came and the world
    with the one warning [Access token verification failed]. *)
Theorem optionalAuth_never_rejects (req : Req) (next : Req -> M Response) (w : World) :
  (header_token (req_authorization req) = None \/
   header_token (req_authorization req) = Some EmptyString ->
   optionalAuth boot req next w = next req w)
  /\ (forall token,
         header_token (req_authorization req) = Some token ->
         token <> EmptyString ->
         match fst (jwt_verify token (JWT_SECRET boot) w) with
         | Return payload =>
             optionalAuth boot req next w = next (set_user payload req) w /\
             authenticateToken boot req next w = next (set_user payload req) w
         | Throw e =>
             optionalAuth boot req next w
             = next req (warned "Access token verification failed" (Js.message e) w)
         end)
  /\ exists req' w',
      optionalAuth boot req next w = next req' w' /\
      db w' = db w /\ clock w' = clock w /\
      (log w' = log w \/
       exists reason,
         log w' = log w ++ [mkLog Warn [("error", LStr reason)]
                                  "Access token verification failed"]) /\
      req_url req' = req_url req /\ req_method req' = req_method req /\
      req_authorization req' = req_authorization req /\
      (req_user req' = req_user req \/
       exists token payload,
         header_token (req_authorization req) = Some token /\
         fst (jwt_verify token (JWT_SECRET boot) w) = Return payload /\
         req_user req' = Some payload).
Proof.
  rewrite optionalAuth_eval. split; [|split].
  - intros [H|H]; rewrite H; reflexivity.
  - intros token Ht Hne. rewrite (authenticateToken_token req next w token Ht Hne), Ht.
    destruct token as [|c t]; [contradiction|].
    destruct (fst (jwt_verify (String c t) (JWT_SECRET boot) w)) as [p|e].
    + split; reflexivity.
    + reflexivity.
  - destruct (header_token (req_authorization req)) as [[|c t]|] eqn:E.
    + exists req, w. repeat split; left; reflexivity.
    + destruct (fst (jwt_verify (String c t) (JWT_SECRET boot) w)) as [p|e] eqn:Ev.
      * exists (set_user p req), w. repeat split; [left; reflexivity|].
        right. exists (String c t), p. repeat split. exact Ev.
      * eexists req, _. split; [reflexivity|]. repeat split; [|left; reflexivity].
        right. exists (Js.message e). reflexivity.
    + exists req, w. repeat split; left; reflexivity.
Qed.

(** X6.  Behind [authenticateToken], [requireRole] decides on the role
    written in the token and on nothing else: nothing is read from the
    database, so the role the users table has for that user now plays no
    part.  A verified token whose role is among [roles] reaches the
    handler; one whose role is not is answered 403 [Insufficient
    permissions]; the 401 of [requireRole] cannot occur. *)
Theorem requireRole_decides_on_the_token
        (roles : list string) (req : Req) (next : Req -> M Response) (w : World)
        (scheme token : string) (payload : JwtPayload) :
  has_space scheme = false ->
  has_space token = false ->
  token <> EmptyString ->
  req_authorization req = Some (scheme ++ String " " token)%string ->
  fst (jwt_verify token (JWT_SECRET boot) w) = Return payload ->
  authenticateToken boot req (fun req' => requireRole roles req' next) w
  = if existsb (String.eqb (role payload)) roles
    then next (set_user payload req) w
    else (Return (failure 403 "Insufficient permissions"),
          logged Warn [("userId", LNum (userId payload));
                       ("userRole", LStr (role payload));
                       ("requiredRoles", LObject (array_from 0 roles));
                       ("url", LStr (req_url req))]
                 "Insufficient permissions" w).
Proof.
  intros Hs Ht Hne Hh Hv.
  rewrite (authenticateToken_token req _ w token);
    [|rewrite Hh; apply header_token_second_word; assumption|exact Hne].
  rewrite Hv. unfold requireRole. cbn [req_user set_user req_url].
  destruct (existsb (String.eqb (role payload)) roles); reflexivity.
Qed.

(** X7.  [requireRole] lets a request through exactly when it carries an
    identity whose role is, letter for letter, one of [roles]; it then
    hands the request on untouched.  Otherwise it answers 401 or 403 and
    leaves the database alone.  Listing more roles only lets more through:
    whoever passes [requireAdmin] passes [requireUser]; and with no role
    listed nobody passes. *)
Theorem requireRole_lets_through (roles : list string) (req : Req)
        (next : Req -> M Response) (w : World) :
  (lets_through roles req = true -> requireRole roles req next w = next req w)
  /\ (lets_through roles req = false ->
      exists resp w',
        requireRole roles req next w = (Return resp, w') /\
        (resp = failure 401 "Authentication required" \/
         resp = failure 403 "Insufficient permissions") /\
        db w' = db w)
  /\ (forall more,
         incl roles more -> lets_through roles req = true ->
         lets_through more req = true)
  /\ (lets_through ["admin"] req = true -> requireAdmin req next w = next req w /\
                                     requireUser req next w = next req w)
  /\ lets_through [] req = false
  /\ (lets_through roles req = true ->
      forall r, req_user req = Some r -> In (role r) roles).
Proof.
  unfold lets_through, requireAdmin, requireUser, requireRole.
  destruct (req_user req) as [user|].
  - repeat split.
    + intros ->. reflexivity.
    + intros ->. eexists _, _. split; [reflexivity|]. split; [right; reflexivity|reflexivity].
    + intros more Hincl H. apply existsb_exists in H as (x & Hx & Heq).
      apply existsb_exists. exists x. split; [apply Hincl; exact Hx|exact Heq].
    + simpl in *. destruct (String.eqb (role user) "admin"); [reflexivity|discriminate].
    + simpl in *. destruct (String.eqb (role user) "admin");
        [rewrite orb_true_r; reflexivity|discriminate].
    + intros H r Hr. inversion Hr; subst r.
      apply existsb_exists in H as (x & Hx & Heq). apply String.eqb_eq in Heq.
      rewrite Heq. exact Hx.
  - repeat split; try discriminate.
    intros _. eexists _, _. split; [reflexivity|]. split; [left; reflexivity|reflexivity].
Qed.

Context {LAWS : JsonWebTokenLaws JWT}.

(** X8.  [GET /profile] with an access token that [generateAccessToken]
    made for a user and whose lifetime is not over answers with the row
    the users table has for that id now, without the password: status 200
    and the stored name, email, role and active flag, not the claims of
    the token; and 404 [User not found] when no row has that id any more.
    The route writes nothing, to the database or to the log, and does not
    ask whether the account is active. *)
Theorem get_profile_serves_the_stored_row
        (user : SafeUser) (issued w : World) (accessToken scheme : string) (span : Z)
        (req : Req) :
  jwt_timespan (JWT_EXPIRES_IN boot) = inr span ->
  generateAccessToken boot user issued = (Return accessToken, issued) ->
  clock w / 1000 < clock issued / 1000 + span ->
  has_space scheme = false ->
  has_space accessToken = false ->
  accessToken <> EmptyString ->
  req_authorization req = Some (scheme ++ String " " accessToken)%string ->
  get_profile boot req w
  = (Return match user_with_id (su_id user) w with
            | Some stored => succeeded 200 (Profile (omit_password stored))
                                       "Profile retrieved successfully"
            | None => failure 404 "User not found"
            end, w).
Proof.
  intros Hspan Hgen Hlive Hs Ht Hne Hh. unfold get_profile.
  rewrite (authenticateToken_token req _ w accessToken);
    [|rewrite Hh; apply header_token_second_word; assumption|exact Hne].
  rewrite (jwt_verify_later _ _ _ _ _ _ _ issued w Hspan Hgen).
  destruct (_ >=? _) eqn:E; [apply Z.geb_le in E; lia|].
  cbn [fst set_user req_user]. unfold profile, try_catch, bind.
  rewrite users_by_id_eval. cbn [userId].
  destruct (user_with_id (su_id user) w); reflexivity.
Qed.

End Middleware.

(** X3 run on a header that says [Basic]. *)
Lemma authenticateToken_reads_second_word_witness :
  authenticateToken (JWT := Plain.jwt) empty_env
    (profile_request (Some ("Basic " ++ john_access_token 1700000000)%string))
    (fun req => ret (succeeded 200 Null (req_url req)))
    (quiet 1700000001000)
  = (Return (succeeded 200 Null "/profile"), quiet 1700000001000).
Proof.
  rewrite (authenticateToken_reads_second_word (JWT := Plain.jwt) empty_env
             (profile_request (Some ("Basic " ++ john_access_token 1700000000)%string))
             (fun req => ret (succeeded 200 Null (req_url req)))
             (quiet 1700000001000) "Basic" (john_access_token 1700000000)).
  - vm_compute. reflexivity.
  - vm_compute. reflexivity.
  - vm_compute. reflexivity.
  - vm_compute. discriminate.
  - vm_compute. reflexivity.
Defined.

(** X4 run on a header that is the bare token. *)
Lemma authenticateToken_without_second_word_witness :
  fst (authenticateToken (JWT := Plain.jwt) empty_env
         (profile_request (Some (john_access_token 1700000000)))
         (fun req => ret (succeeded 200 Null (req_url req)))
         (quiet 1700000001000))
  = Return (failure 401 "Access token required").
Proof.
  rewrite (authenticateToken_without_second_word (JWT := Plain.jwt) empty_env
             (profile_request (Some (john_access_token 1700000000)))
             (fun req => ret (succeeded 200 Null (req_url req)))
             (quiet 1700000001000)).
  - reflexivity.
  - right; left. exists (john_access_token 1700000000). split; vm_compute; reflexivity.
Defined.

(** X6 run on [requireAdmin] and John's token, whose role is [user]. *)
Lemma requireRole_decides_on_the_token_witness :
  fst (authenticateToken (JWT := Plain.jwt) empty_env
         (profile_request (Some ("Bearer " ++ john_access_token 1700000000)%string))
         (fun req => requireAdmin req (fun req' => ret (succeeded 200 Null (req_url req'))))
         (quiet 1700000001000))
  = Return (failure 403 "Insufficient permissions").
Proof.
  unfold requireAdmin.
  rewrite (requireRole_decides_on_the_token (JWT := Plain.jwt) empty_env ["admin"]
             (profile_request (Some ("Bearer " ++ john_access_token 1700000000)%string))
             (fun req' => ret (succeeded 200 Null (req_url req')))
             (quiet 1700000001000) "Bearer" (john_access_token 1700000000)
             (mkJwtPayload 1 "john@x.com" "user" (Some 1700000000) (Some 1700000900))).
  - vm_compute. reflexivity.
  - vm_compute. reflexivity.
  - vm_compute. reflexivity.
  - vm_compute. discriminate.
  - vm_compute. reflexivity.
  - vm_compute. reflexivity.
Defined.

(** X8 run on an account that has been deactivated since the token was
    issued. *)
Lemma get_profile_serves_the_stored_row_witness :
  get_profile (JWT := Plain.jwt) empty_env
    (profile_request (Some ("Bearer " ++ john_access_token 1700000000)%string))
    (world_of [dormant] [] 1700000001000)
  = (Return (succeeded 200 (Profile (omit_password dormant))
                       "Profile retrieved successfully"),
     world_of [dormant] [] 1700000001000).
Proof.
  rewrite (get_profile_serves_the_stored_row (JWT := Plain.jwt) (LAWS := plain_jwt_laws)
             empty_env john (quiet 1700000000123) (world_of [dormant] [] 1700000001000)
             (john_access_token 1700000000) "Bearer" 900).
  - vm_compute. reflexivity.
  - vm_compute. reflexivity.
  - vm_compute. reflexivity.
  - vm_compute. reflexivity.
  - vm_compute. reflexivity.
  - vm_compute. reflexivity.
  - vm_compute. discriminate.
  - vm_compute. reflexivity.
Defined.

(* ================================================================== *)
(** * Further properties: the handlers *)
(* ================================================================== *)

Lemma getTokenExpirationTime_clock (s : string) (w w' : World) :
  clock w = clock w' ->
  fst (getTokenExpirationTime s w) = fst (getTokenExpirationTime s w').
Proof.
  intros H. unfold getTokenExpirationTime, bind, now, throw, ret. rewrite H.
  destruct (match_expiresIn s) as [[a u]|]; [|reflexivity].
  destruct (milliseconds u); [|reflexivity].
  destruct (Js.parseInt a); reflexivity.
Qed.

Lemma jwt_sign_clock {JWT : JsonWebToken} (uid : Z) (mail rl secret e : string)
      (w w' : World) :
  clock w = clock w' ->
  fst (jwt_sign uid mail rl secret e w) = fst (jwt_sign uid mail rl secret e w').
Proof.
  intros H. unfold jwt_sign, bind, now, throw, ret. rewrite H.
  destruct (jwt_timespan e); reflexivity.
Qed.

Lemma generateAccessToken_clock {JWT : JsonWebToken} (boot : ProcessEnv)
      (user : SafeUser) (w w' : World) :
  clock w = clock w' ->
  fst (generateAccessToken boot user w) = fst (generateAccessToken boot user w').
Proof. apply jwt_sign_clock. Qed.

Lemma generateRefreshToken_clock {JWT : JsonWebToken} (boot : ProcessEnv)
      (user : SafeUser) (w w' : World) :
  clock w = clock w' ->
  fst (generateRefreshToken boot user w) = fst (generateRefreshToken boot user w').
Proof. apply jwt_sign_clock. Qed.

Section Handlers.

Context {JWT : JsonWebToken} {BCRYPT : Bcrypt}.
Variable boot : ProcessEnv.
Variable env : ProcessEnv.

(** The end of register, login and refresh, step by step. *)
Lemma issue_and_store_steps (user : User) (prepare : M unit)
      (fields : list (string * LogValue)) (msg : string)
      (respond : string -> string -> Response) (h : Js.Error -> M Response)
      (w wp : World) :
  prepare w = (Return tt, wp) ->
  try_catch (issue_and_store boot env user prepare fields msg respond) h w
  = match fst (generateAccessToken boot (omit_password user) w) with
    | Throw e => h e w
    | Return accessToken =>
        match fst (generateRefreshToken boot (omit_password user) w) with
        | Throw e => h e w
        | Return newRefreshToken =>
            match fst (getTokenExpirationTime (refreshLifetime env) wp) with
            | Throw e => h e wp
            | Return expiresAt =>
                match Query.insert_refreshToken (user_id user) newRefreshToken
                                                expiresAt wp with
                | (Return _, wi) =>
                    (Return (respond accessToken newRefreshToken),
                     logged Info fields msg wi)
                | (Throw e, wi) => h e wi
                end
            end
        end
    end.
Proof.
  intros Hprep. unfold issue_and_store, try_catch, bind.
  unfold generateAccessToken, generateRefreshToken.
  cbn [su_id su_email su_role omit_password].
  pose proof (jwt_sign_world (user_id user) (user_email user) (user_role user)
                (JWT_SECRET boot) (JWT_EXPIRES_IN boot) w) as Hw1.
  destruct (jwt_sign _ _ _ (JWT_SECRET boot) _ w) as [[a|e1] wa];
    simpl in Hw1; subst wa; cbn [fst]; [|reflexivity].
  pose proof (jwt_sign_world (user_id user) (user_email user) (user_role user)
                (JWT_REFRESH_SECRET boot) (JWT_REFRESH_EXPIRES_IN boot) w) as Hw2.
  destruct (jwt_sign _ _ _ (JWT_REFRESH_SECRET boot) _ w) as [[n|e2] wa];
    simpl in Hw2; subst wa; cbn [fst]; [|reflexivity].
  rewrite Hprep.
  pose proof (getTokenExpirationTime_world (refreshLifetime env) wp) as Hw3.
  destruct (getTokenExpirationTime (refreshLifetime env) wp) as [[d|e3] wa];
    simpl in Hw3; subst wa; cbn [fst]; [|reflexivity].
  destruct (Query.insert_refreshToken (user_id user) n d wp) as [[[]|e4] wi];
    reflexivity.
Qed.

Lemma failed_eval (lf : Js.Error -> list (string * LogValue)) (lmsg lerr : string)
      (error : Js.Error) (w : World) :
  failed lf lmsg lerr error w = (Return (failure 500 lerr), logged LError (lf error) lmsg w).
Proof. reflexivity. Qed.

(** X9.  What a 201 from [register] means.  The email was not stored
    before; exactly one user has been added, with the name and email of
    the body, the hash of the password with 12 rounds, the role [user] and
    the active flag set; exactly one ledger row has been added, owned by
    that user, carrying the refresh token of the response and the expiry
    [getTokenExpirationTime] computed; and the response shows the user
    without the password, with the two tokens issued for it. *)
Theorem register_created (b : RegisterInput) (w w1 : World) (resp : Response) :
  register boot env b w = (Return resp, w1) ->
  status resp = 201 ->
  let user := mkUser (users_seq (db w) + 1) (reg_name b) (reg_email b)
                     (bcrypt_hash (reg_password b) 12) "user" true (clock w) (clock w) in
  exists accessToken newRefreshToken e,
    user_with_email (reg_email b) w = None /\
    resp = succeeded 201 (AuthResponse (omit_password user) accessToken newRefreshToken)
                     "User registered successfully" /\
    fst (generateAccessToken boot (omit_password user) w) = Return accessToken /\
    fst (generateRefreshToken boot (omit_password user) w) = Return newRefreshToken /\
    fst (getTokenExpirationTime (refreshLifetime env) w) = Return (Js.ValidDate e) /\
    users (db w1) = users (db w) ++ [user] /\
    refreshTokens (db w1)
    = refreshTokens (db w)
        ++ [mkRefreshTokenRow (refreshTokens_seq (db w) + 1) (user_id user)
                              newRefreshToken e (clock w)] /\
    row_with_token newRefreshToken w = None.
Proof.
  intros Hrun Hstatus user.
  destruct (user_with_email (reg_email b) w) as [u|] eqn:Hu.
  { rewrite (register_duplicate boot env b w u Hu) in Hrun.
    inversion Hrun; subst. discriminate. }
  rewrite (register_new_email boot env b w Hu) in Hrun.
  change (new_user (reg_name b) (reg_email b) (bcrypt_hash (reg_password b) 12) w)
    with user in Hrun.
  set (wu := with_db (with_user user (db w)) w) in Hrun.
  rewrite (issue_and_store_steps user (ret tt) _ _ _ _ wu wu eq_refl) in Hrun.
  rewrite (generateAccessToken_clock boot _ wu w eq_refl) in Hrun.
  rewrite (generateRefreshToken_clock boot _ wu w eq_refl) in Hrun.
  rewrite (getTokenExpirationTime_clock _ wu w eq_refl) in Hrun.
  destruct (fst (generateAccessToken boot (omit_password user) w)) as [a|e1];
    [|rewrite failed_eval in Hrun; inversion Hrun; subst; discriminate].
  destruct (fst (generateRefreshToken boot (omit_password user) w)) as [n|e2];
    [|rewrite failed_eval in Hrun; inversion Hrun; subst; discriminate].
  destruct (fst (getTokenExpirationTime (refreshLifetime env) w)) as [d|e3];
    [|rewrite failed_eval in Hrun; inversion Hrun; subst; discriminate].
  destruct (insert_refreshToken_cases (user_id user) n d wu)
    as [(e & -> & Hfresh & Hins)|[(err & Hins)|(err & Hins)]]; rewrite Hins in Hrun;
    [|rewrite failed_eval in Hrun; inversion Hrun; subst; discriminate ..].
  inversion Hrun; subst resp w1. clear Hrun.
  exists a, n, e. repeat split.
  unfold row_with_token. apply find_none_iff. intros r Hr.
  destruct (Query.token_is n r) eqn:E; [|reflexivity].
  assert (existsb (Query.token_is n) (refreshTokens (db wu)) = true)
    by (apply existsb_exists; exists r; split; [exact Hr|exact E]).
  congruence.
Qed.

(** X10.  [login] never changes the users table and never removes a
    session.  When it answers 200, the email is that of a stored, active
    user whose stored hash [bcrypt.compare] accepts, the response shows
    that user without the password, and exactly one ledger row has been
    added, for that user and the refresh token of the response; the rows
    of earlier logins stay.  Every other answer is one of the two 401s or
    the 500 and leaves the ledger as it was. *)
Theorem login_effects (b : LoginInput) (w : World) :
  users (db (snd (login boot env b w))) = users (db w)
  /\ ((exists user accessToken newRefreshToken e,
          user_with_email (login_email b) w = Some user /\
          user_isActive user = true /\
          bcrypt_compare (login_password b) (user_password user) = true /\
          fst (login boot env b w)
          = Return (succeeded 200
                      (AuthResponse (omit_password user) accessToken newRefreshToken)
                      "Logged in successfully") /\
          refreshTokens (db (snd (login boot env b w)))
          = refreshTokens (db w)
              ++ [mkRefreshTokenRow (refreshTokens_seq (db w) + 1) (user_id user)
                                    newRefreshToken e (clock w)])
      \/ ((fst (login boot env b w) = Return (failure 401 "Invalid email or password") \/
           fst (login boot env b w) = Return (failure 401 "Account is inactive") \/
           fst (login boot env b w) = Return (failure 500 "Failed to login")) /\
          refreshTokens (db (snd (login boot env b w))) = refreshTokens (db w))).
Proof.
  destruct (user_with_email (login_email b) w) as [u|] eqn:Hu.
  2:{ rewrite (login_user_not_found boot env b w Hu). split; [reflexivity|].
      right. split; [left|]; reflexivity. }
  destruct (user_isActive u) eqn:Ha.
  2:{ rewrite (login_inactive boot env b w u Hu Ha). split; [reflexivity|].
      right. split; [right; left|]; reflexivity. }
  destruct (bcrypt_compare (login_password b) (user_password u)) eqn:Hp.
  2:{ rewrite (login_invalid_password boot env b w u Hu Ha Hp). split; [reflexivity|].
      right. split; [left|]; reflexivity. }
  rewrite (login_valid_password boot env b w u Hu Ha Hp).
  rewrite (issue_and_store_steps u (ret tt) _ _ _ _ w w eq_refl).
  destruct (fst (generateAccessToken boot (omit_password u) w)) as [a|e1];
    [|rewrite failed_eval; split; [reflexivity|right; split; [right; right|]; reflexivity]].
  destruct (fst (generateRefreshToken boot (omit_password u) w)) as [n|e2];
    [|rewrite failed_eval; split; [reflexivity|right; split; [right; right|]; reflexivity]].
  destruct (fst (getTokenExpirationTime (refreshLifetime env) w)) as [d|e3];
    [|rewrite failed_eval; split; [reflexivity|right; split; [right; right|]; reflexivity]].
  destruct (insert_refreshToken_cases (user_id u) n d w)
    as [(e & -> & Hfresh & Hins)|[(err & Hins)|(err & Hins)]]; rewrite Hins;
    [|rewrite failed_eval; split; [reflexivity|right; split; [right; right|]; reflexivity] ..].
  split; [reflexivity|]. left. exists u, a, n, e.
  split; [reflexivity|]. split; [exact Ha|]. split; [exact Hp|]. split; reflexivity.
Qed.

(** X11.  [register] is not atomic.  When the select found no user with
    the email and the insert returned the new row, and the tokens then
    cannot be issued ([jwt.sign] throws for one of them, or
    [getTokenExpirationTime] throws or returns the Invalid Date), [register]
    answers 500 [Failed to register user] and the user row stays written:
    the users table has the new user, the ledger has no new row, and the
    client has no token.  Registering again with the same body, at whatever
    time, is answered 400 [User with this email already exists]. *)
Theorem register_failure_keeps_the_user
        (b : RegisterInput) (w wu : World) (user : User) :
  Query.users_by_email (reg_email b) w = (Return [], w) ->
  Query.insert_user (reg_name b) (reg_email b) (bcrypt_hash (reg_password b) 12) w
  = (Return [user], wu) ->
  cannot_issue boot env (omit_password user) wu ->
  exists w1,
    register boot env b w = (Return (failure 500 "Failed to register user"), w1)
    /\ user = mkUser (users_seq (db w) + 1) (reg_name b) (reg_email b)
                     (bcrypt_hash (reg_password b) 12) "user" true (clock w) (clock w)
    /\ users (db w1) = users (db w) ++ [user]
    /\ refreshTokens (db w1) = refreshTokens (db w)
    /\ forall time,
         register boot env b (with_clock time w1)
         = (Return (failure 400 "User with this email already exists"),
            logged Warn [("email", LStr (reg_email b))]
                   "Registration failed: user already exists" (with_clock time w1)).
Proof.
  intros Hsel Hins Hcause.
  rewrite users_by_email_eval in Hsel.
  destruct (user_with_email (reg_email b) w) as [u|] eqn:Hu; [discriminate|]. clear Hsel.
  rewrite (insert_user_eval _ _ _ w Hu) in Hins. inversion Hins; subst user wu. clear Hins.
  set (user := new_user (reg_name b) (reg_email b) (bcrypt_hash (reg_password b) 12) w)
    in *.
  set (wu := with_db (with_user user (db w)) w) in *.
  assert (Hagain : forall w1,
             users (db w1) = users (db w) ++ [user] ->
             forall time,
               register boot env b (with_clock time w1)
               = (Return (failure 400 "User with this email already exists"),
                  logged Warn [("email", LStr (reg_email b))]
                         "Registration failed: user already exists"
                         (with_clock time w1))).
  { intros w1 Husers time.
    apply (register_duplicate boot env b (with_clock time w1) user).
    unfold user_with_email. cbn [db with_clock]. rewrite Husers.
    apply find_app_new; [exact Hu|]. unfold Query.email_is. apply String.eqb_refl. }
  rewrite (register_new_email boot env b w Hu). fold user. fold wu.
  rewrite (issue_and_store_steps user (ret tt) _ _ _ _ wu wu eq_refl).
  destruct (fst (generateAccessToken boot (omit_password user) wu)) as [a|e1] eqn:Ea.
  2:{ rewrite failed_eval. eexists. split; [reflexivity|]. split; [reflexivity|].
      split; [reflexivity|]. split; [reflexivity|]. apply Hagain. reflexivity. }
  destruct (fst (generateRefreshToken boot (omit_password user) wu)) as [n|e2] eqn:En.
  2:{ rewrite failed_eval. eexists. split; [reflexivity|]. split; [reflexivity|].
      split; [reflexivity|]. split; [reflexivity|]. apply Hagain. reflexivity. }
  destruct (fst (getTokenExpirationTime (refreshLifetime env) wu)) as [d|e3] eqn:Ed.
  2:{ rewrite failed_eval. eexists. split; [reflexivity|]. split; [reflexivity|].
      split; [reflexivity|]. split; [reflexivity|]. apply Hagain. reflexivity. }
  destruct Hcause as [(e & H)|[(e & H)|[(e & H)|H]]]; try congruence.
  assert (d = Js.InvalidDate) by congruence. subst d.
  change (Query.insert_refreshToken (user_id user) n Js.InvalidDate wu)
    with (@Throw unit Query.invalid_time_value, wu).
  cbv beta iota. rewrite failed_eval. eexists. split; [reflexivity|]. split; [reflexivity|].
  split; [reflexivity|]. split; [reflexivity|]. apply Hagain. reflexivity.
Qed.

(** X12.  [refreshToken] deletes the old row before it inserts the new
    one, and not in a transaction.  When the token verified, the select
    found its row, not expired, and the user, the two tokens were signed
    and the delete was answered, and then the new row cannot be written
    (the expiry cannot be computed, or another row already holds the new
    token string), the refresh is answered 500 [Failed to refresh token],
    the old row is gone and nothing is in its place: the client got no new
    token, and the one it holds is answered 403 [Invalid refresh token]
    from then on. *)
Theorem refresh_failure_drops_the_session
        (b : RefreshTokenInput) (w wd : World) (payload : JwtPayload)
        (old : RefreshTokenRow) (user : User) (accessToken newRefreshToken : string) :
  ledger_wf (db w) ->
  fst (jwt_verify (refreshToken_field b) (JWT_REFRESH_SECRET boot) w) = Return payload ->
  Query.refreshTokens_by_token (refreshToken_field b) w = (Return [old], w) ->
  clock w <= rt_expiresAt old ->
  Query.users_by_id (userId payload) w = (Return [user], w) ->
  fst (generateAccessToken boot (omit_password user) w) = Return accessToken ->
  fst (generateRefreshToken boot (omit_password user) w) = Return newRefreshToken ->
  Query.delete_refreshToken_by_id (rt_id old) w = (Return tt, wd) ->
  no_expiry env w \/
  (exists other, In other (refreshTokens (db w)) /\ rt_id other <> rt_id old /\
                 rt_token other = newRefreshToken) ->
  exists w1,
    refreshToken boot env b w = (Return (failure 500 "Failed to refresh token"), w1)
    /\ users (db w1) = users (db w)
    /\ refreshTokens (db w1)
       = filter (fun r => negb (Query.row_id_is (rt_id old) r)) (refreshTokens (db w))
    /\ In old (refreshTokens (db w))
    /\ ~ In old (refreshTokens (db w1))
    /\ row_with_token (refreshToken_field b) w1 = None
    /\ forall time,
         fst (refreshToken boot env b (with_clock time w1))
         = Return (failure 403 "Invalid refresh token").
Proof.
  intros Hwf Hv Hsel Hlive Hselu Ha Hn Hdel Hcause.
  rewrite refreshTokens_by_token_eval in Hsel.
  destruct (row_with_token (refreshToken_field b) w) as [old'|] eqn:Hrow;
    [|discriminate].
  inversion Hsel; subst old'. clear Hsel.
  rewrite users_by_id_eval in Hselu.
  destruct (user_with_id (userId payload) w) as [user'|] eqn:Huser; [|discriminate].
  inversion Hselu; subst user'. clear Hselu.
  rewrite delete_by_id_eval in Hdel. inversion Hdel; subst wd. clear Hdel.
  set (wd := with_db (without_row (rt_id old) (db w)) w).
  assert (Hend : forall w1,
             refreshTokens (db w1) = refreshTokens (db wd) ->
             In old (refreshTokens (db w)) /\
             ~ In old (refreshTokens (db w1)) /\
             row_with_token (refreshToken_field b) w1 = None /\
             forall time,
               fst (refreshToken boot env b (with_clock time w1))
               = Return (failure 403 "Invalid refresh token")).
  { intros w1 Hrows.
    assert (Hnone : forall r, In r (refreshTokens (db w1)) ->
                              rt_token r <> refreshToken_field b).
    { intros r Hr. rewrite Hrows in Hr.
      apply (without_row_no_token (db w) _ old (proj1 Hwf) Hrow r Hr). }
    split; [apply (find_In _ _ _ Hrow)|]. split.
    { rewrite Hrows. simpl. intros Hin. apply filter_In in Hin as [_ Hid].
      unfold Query.row_id_is in Hid. rewrite Z.eqb_refl in Hid. discriminate. }
    split.
    - unfold row_with_token. apply find_none_iff. intros r Hr.
      unfold Query.token_is. apply String.eqb_neq. apply Hnone. exact Hr.
    - intros time.
      destruct (refresh_without_row boot env b (with_clock time w1) Hnone)
        as (w2 & -> & _). reflexivity. }
  rewrite refreshToken_cases, Hv, Hrow.
  destruct (clock w >? rt_expiresAt old) eqn:E; [apply Z.gtb_lt in E; lia|].
  rewrite Huser. unfold rotation.
  rewrite (issue_and_store_steps user _ _ _ _ _ w wd (delete_by_id_eval (rt_id old) w)).
  rewrite Ha, Hn, (getTokenExpirationTime_clock _ wd w eq_refl).
  destruct (fst (getTokenExpirationTime (refreshLifetime env) w)) as [d|e3] eqn:Ed.
  2:{ rewrite failed_eval. eexists. split; [reflexivity|]. split; [reflexivity|].
      split; [reflexivity|]. apply Hend. reflexivity. }
  destruct d as [e|].
  2:{ change (Query.insert_refreshToken (user_id user) newRefreshToken Js.InvalidDate wd)
        with (@Throw unit Query.invalid_time_value, wd).
      cbv beta iota. rewrite failed_eval. eexists. split; [reflexivity|]. split; [reflexivity|].
      split; [reflexivity|]. apply Hend. reflexivity. }
  destruct Hcause as [[(e' & H)|H]|(other & Hin & Hid & Htok)]; try congruence.
  assert (Htaken : existsb (Query.token_is newRefreshToken) (refreshTokens (db wd)) = true).
  { apply existsb_exists. exists other. split.
    - simpl. apply filter_In. split; [exact Hin|]. unfold Query.row_id_is.
      apply negb_true_iff. apply Z.eqb_neq. exact Hid.
    - unfold Query.token_is. apply String.eqb_eq. exact Htok. }
  unfold Query.insert_refreshToken, bind, get_db, now, put_db, throw. rewrite Htaken.
  cbv beta iota. rewrite failed_eval. eexists. split; [reflexivity|].
  split; [reflexivity|]. split; [reflexivity|]. apply Hend. reflexivity.
Qed.

(** X13.  What [refreshToken] asks before it issues a new pair: that the
    token verifies, that its row is in the ledger and that the clock is not
    past the row's expiry, and that a user with the id in the token is
    stored.  It does not ask whether that user is active.  The new tokens
    carry the id, email and role the users table has now, not what the old
    token said; the new row belongs to that user and expires when
    [getTokenExpirationTime] says. *)
Theorem refresh_reissues_from_the_stored_row
        (b : RefreshTokenInput) (w : World) (payload : JwtPayload)
        (old : RefreshTokenRow) (user : User) (accessSpan refreshSpan e : Z) :
  let claims span :=
    mkJwtPayload (user_id user) (user_email user) (user_role user)
                 (Some (clock w / 1000)) (Some (clock w / 1000 + span)) in
  let accessToken := jwt_encode (JWT_SECRET boot) (claims accessSpan) in
  let newRefreshToken := jwt_encode (JWT_REFRESH_SECRET boot) (claims refreshSpan) in
  fst (jwt_verify (refreshToken_field b) (JWT_REFRESH_SECRET boot) w) = Return payload ->
  row_with_token (refreshToken_field b) w = Some old ->
  clock w <= rt_expiresAt old ->
  user_with_id (userId payload) w = Some user ->
  jwt_timespan (JWT_EXPIRES_IN boot) = inr accessSpan ->
  jwt_timespan (JWT_REFRESH_EXPIRES_IN boot) = inr refreshSpan ->
  fst (getTokenExpirationTime (refreshLifetime env) w) = Return (Js.ValidDate e) ->
  (forall r, In r (refreshTokens (db w)) -> rt_id r <> rt_id old ->
             rt_token r <> newRefreshToken) ->
  refreshToken boot env b w
  = (Return (succeeded 200 (TokenPair accessToken newRefreshToken)
                       "Tokens refreshed successfully"),
     logged Info [("userId", LNum (user_id user))] "Tokens refreshed successfully"
            (with_db (with_row (user_id user) newRefreshToken e (clock w)
                               (without_row (rt_id old) (db w))) w)).
Proof.
  intros claims accessToken newRefreshToken Hv Hrow Hlive Huser Ha Hr He Hfresh.
  rewrite refreshToken_cases, Hv, Hrow.
  destruct (clock w >? rt_expiresAt old) eqn:E; [apply Z.gtb_lt in E; lia|].
  rewrite Huser. unfold rotation.
  rewrite (issue_and_store_steps user _ _ _ _ _ w _ (delete_by_id_eval (rt_id old) w)).
  set (wd := with_db (without_row (rt_id old) (db w)) w).
  unfold generateAccessToken, generateRefreshToken, jwt_sign, bind, now, ret.
  cbn [su_id su_email su_role omit_password]. rewrite Ha, Hr. cbn [fst].
  rewrite (getTokenExpirationTime_clock _ wd w eq_refl), He.
  fold (claims accessSpan) (claims refreshSpan). fold accessToken newRefreshToken.
  unfold Query.insert_refreshToken, bind, get_db, now, put_db, throw.
  assert (Hnew : existsb (Query.token_is newRefreshToken) (refreshTokens (db wd)) = false).
  { destruct (existsb _ _) eqn:Ex; [|reflexivity].
    apply existsb_exists in Ex as (r & Hr' & Ht). simpl in Hr'.
    apply filter_In in Hr' as [Hin Hid]. unfold Query.token_is in Ht.
    apply String.eqb_eq in Ht. exfalso. apply (Hfresh r Hin); [|exact Ht].
    unfold Query.row_id_is in Hid. intros Heq. rewrite Heq, Z.eqb_refl in Hid.
    discriminate. }
  assert (Hfk : existsb (Query.id_is (user_id user)) (users (db wd)) = true).
  { apply find_In in Huser as [Hin Hid]. apply existsb_exists. exists user.
    split; [exact Hin|]. unfold Query.id_is. apply Z.eqb_refl. }
  rewrite Hnew, Hfk. reflexivity.
Qed.

End Handlers.

(** X9 run: John registers on an empty database. *)
Lemma register_created_witness :
  let b := mkRegisterInput "John" "john@x.com" "Abc123xx" in
  let w := world_of [] [] 1700000000123 in
  let run := register (JWT := Plain.jwt) (BCRYPT := Plain.bcrypt) empty_env empty_env b w in
  users (db (snd run))
  = [mkUser 1 "John" "john@x.com" "$2a$12$Abc123xx" "user" true
            1700000000123 1700000000123]
  /\ exists newRefreshToken e,
      refreshTokens (db (snd run))
      = [mkRefreshTokenRow 1 1 newRefreshToken e 1700000000123].
Proof.
  intros b w run.
  destruct (register_created (JWT := Plain.jwt) (BCRYPT := Plain.bcrypt)
              empty_env empty_env b w (snd run) (response_of run))
    as (a & n & e & _ & _ & _ & _ & _ & Husers & Hrows & _).
  - vm_compute. reflexivity.
  - vm_compute. reflexivity.
  - split; [exact Husers|]. exists n, e. exact Hrows.
Defined.

(** X11 run with [JWT_REFRESH_EXPIRES_IN=7 days] set after the server
    started: the tokens are signed with the default lifetime, the expiry of
    the row cannot be computed, and John is stored without a session. *)
Lemma register_failure_keeps_the_user_witness :
  let b := mkRegisterInput "John" "john@x.com" "Abc123xx" in
  let w := world_of [] [] 1700000000123 in
  let run := register (JWT := Plain.jwt) (BCRYPT := Plain.bcrypt)
                      empty_env seven_days_env b w in
  fst run = Return (failure 500 "Failed to register user")
  /\ List.length (users (db (snd run))) = 1%nat
  /\ refreshTokens (db (snd run)) = []
  /\ fst (register (JWT := Plain.jwt) (BCRYPT := Plain.bcrypt) empty_env seven_days_env b
                   (with_clock 1700000005000 (snd run)))
     = Return (failure 400 "User with this email already exists").
Proof.
  intros b w run.
  destruct (register_failure_keeps_the_user (JWT := Plain.jwt) (BCRYPT := Plain.bcrypt)
              empty_env seven_days_env b w
              (snd (Query.insert_user "John" "john@x.com" "$2a$12$Abc123xx" w))
              (mkUser 1 "John" "john@x.com" "$2a$12$Abc123xx" "user" true
                      1700000000123 1700000000123))
    as (w1 & Hrun & _ & Husers & Hrows & Hagain).
  - vm_compute. reflexivity.
  - vm_compute. reflexivity.
  - right; right. left. eexists. vm_compute. reflexivity.
  - unfold run. rewrite Hrun. cbn [fst snd].
    split; [reflexivity|].
    split; [rewrite Husers; reflexivity|].
    split; [exact Hrows|].
    rewrite (Hagain 1700000005000). reflexivity.
Defined.

(** X12 run with [JWT_REFRESH_EXPIRES_IN=7 days] set after the server
    started: the refresh fails after the old row has been deleted. *)
Lemma refresh_failure_drops_the_session_witness :
  let t := john_token 1700000000 in
  let w := johns_world 1700604800123 1700000100000 in
  let run := refreshToken (JWT := Plain.jwt) empty_env seven_days_env
                          (mkRefreshTokenInput t) w in
  fst run = Return (failure 500 "Failed to refresh token")
  /\ row_with_token t w <> None
  /\ refreshTokens (db (snd run)) = []
  /\ fst (refreshToken (JWT := Plain.jwt) empty_env seven_days_env
                       (mkRefreshTokenInput t) (with_clock 1700000200000 (snd run)))
     = Return (failure 403 "Invalid refresh token").
Proof.
  intros t w run.
  destruct (refresh_failure_drops_the_session (JWT := Plain.jwt)
              empty_env seven_days_env (mkRefreshTokenInput t) w
              (snd (Query.delete_refreshToken_by_id 1 w))
              (john_claims 1700000000)
              (mkRefreshTokenRow 1 1 t 1700604800123 1700000000123) active_john
              (john_access_token 1700000100) (john_token 1700000100))
    as (w1 & Hrun & _ & Hrows & _ & _ & _ & Hagain).
  - apply johns_world_wf.
  - vm_compute. reflexivity.
  - vm_compute. reflexivity.
  - vm_compute. discriminate.
  - vm_compute. reflexivity.
  - vm_compute. reflexivity.
  - vm_compute. reflexivity.
  - vm_compute. reflexivity.
  - left. left. eexists. vm_compute. reflexivity.
  - unfold run. rewrite Hrun. cbn [fst snd].
    split; [reflexivity|].
    split; [vm_compute; discriminate|].
    split; [rewrite Hrows; vm_compute; reflexivity|].
    apply Hagain.
Defined.

(** X13 run on an account that has been deactivated since the token was
    issued: the refresh is served. *)
Lemma refresh_reissues_from_the_stored_row_witness :
  let t := john_token 1700000000 in
  let w := world_of [dormant]
                    [mkRefreshTokenRow 1 1 t 1700604800123 1700000000123]
                    1700000100000 in
  user_isActive dormant = false
  /\ fst (refreshToken (JWT := Plain.jwt) empty_env empty_env (mkRefreshTokenInput t) w)
     = Return (succeeded 200
                 (TokenPair (john_access_token 1700000100) (john_token 1700000100))
                 "Tokens refreshed successfully").
Proof.
  intros t w. split; [reflexivity|].
  rewrite (refresh_reissues_from_the_stored_row (JWT := Plain.jwt) empty_env empty_env
             (mkRefreshTokenInput t) w (john_claims 1700000000)
             (mkRefreshTokenRow 1 1 t 1700604800123 1700000000123) dormant
             900 604800 1700604900000).
  - vm_compute. reflexivity.
  - vm_compute. reflexivity.
  - vm_compute. reflexivity.
  - vm_compute. discriminate.
  - vm_compute. reflexivity.
  - vm_compute. reflexivity.
  - vm_compute. reflexivity.
  - vm_compute. reflexivity.
  - intros r [<-|[]] Hid. exfalso. apply Hid. reflexivity.
Defined.

(* ================================================================== *)
(** * Further properties: what holds in every world the server reaches *)
(* ================================================================== *)

Lemma insert_user_keeps_users_wf (n e p : string) :
  preserves users_wf (Query.insert_user n e p).
Proof.
  intros w (He & Hi & Hs). unfold Query.insert_user, bind, get_db, now, put_db, throw, ret.
  rewrite Forall_forall in Hs.
  destruct (existsb (Query.email_is e) (users (db w))) eqn:Ex; simpl.
  - repeat split; simpl; try assumption.
    apply Forall_forall. intros u Hu. specialize (Hs u Hu). lia.
  - repeat split; simpl; rewrite ?map_app; simpl.
    + apply NoDup_snoc; [exact He|]. intros Hin.
      apply in_map_iff in Hin as (u & Hue & Hu).
      assert (existsb (Query.email_is e) (users (db w)) = true).
      { apply existsb_exists. exists u. split; [exact Hu|].
        unfold Query.email_is. apply String.eqb_eq. exact Hue. }
      congruence.
    + apply NoDup_snoc; [exact Hi|]. intros Hin.
      apply in_map_iff in Hin as (u & Hue & Hu). specialize (Hs u Hu). lia.
    + apply Forall_forall. intros u Hu. apply in_app_iff in Hu as [Hu|[<-|[]]].
      * specialize (Hs u Hu). lia.
      * simpl. lia.
Qed.

Lemma insert_refreshToken_keeps_users_wf (uid : Z) (token : string)
      (expiresAt : Js.Date) :
  preserves users_wf (Query.insert_refreshToken uid token expiresAt).
Proof.
  intros w Hw.
  destruct (insert_refreshToken_cases uid token expiresAt w)
    as [(e & -> & Hfresh & ->)|[(err & ->)|(err & ->)]]; exact Hw.
Qed.

Lemma delete_by_id_keeps_users_wf (i : Z) :
  preserves users_wf (Query.delete_refreshToken_by_id i).
Proof. intros w Hw. exact Hw. Qed.

Lemma delete_by_token_keeps_users_wf (t : string) :
  preserves users_wf (Query.delete_refreshToken_by_token t).
Proof. intros w Hw. exact Hw. Qed.

(** Walks through a handler: every step keeps the users table well
    formed. *)
Ltac keep_users_wf :=
  repeat first
    [ apply preserves_ret
    | apply preserves_throw
    | apply insert_refreshToken_keeps_users_wf
    | apply delete_by_id_keeps_users_wf
    | apply delete_by_token_keeps_users_wf
    | apply insert_user_keeps_users_wf
    | apply read_only_preserves;
      first [ apply read_only_logger | apply read_only_now
            | apply read_only_users_by_email | apply read_only_users_by_id
            | apply read_only_refreshTokens_by_token
            | apply read_only_getTokenExpirationTime
            | apply read_only_generateAccessToken
            | apply read_only_generateRefreshToken
            | apply read_only_verifyRefreshToken ]
    | apply preserves_bind; [|intros ?]
    | apply preserves_try_catch; [|intros ?]
    | match goal with
      | |- preserves _ (match ?x with _ => _ end) => destruct x
      end ].

Section Reachable.

Context {JWT : JsonWebToken} {BCRYPT : Bcrypt} {ZOD : Zod}.
Variable boot : ProcessEnv.
Variable env : ProcessEnv.

Lemma serve_keeps_users_wf (time : Z) (r : Request) (w : World) :
  users_wf (db w) -> users_wf (db (snd (serve boot env time r w))).
Proof.
  intros Hw. destruct r as [b|b|b|b]; unfold serve.
  - apply (validateBody_preserves users_wf registerSchema show_register b
             (register boot env)); [|exact Hw].
    intros b'. unfold register. keep_users_wf.
  - apply (validateBody_preserves users_wf loginSchema show_login b
             (login boot env)); [|exact Hw].
    intros b'. unfold login. keep_users_wf.
  - apply (validateBody_preserves users_wf refreshTokenSchema show_refreshToken b
             (refreshToken boot env)); [|exact Hw].
    intros b'. unfold refreshToken. keep_users_wf.
  - apply (validateBody_preserves users_wf refreshTokenSchema show_refreshToken b
             (logout None)); [|exact Hw].
    intros b'. unfold logout. keep_users_wf.
Qed.

Lemma reachable_users_wf (w : World) : reachable boot env w -> users_wf (db w).
Proof.
  induction 1 as [time|time r w Hreach IH].
  - repeat split; simpl; constructor.
  - apply serve_keeps_users_wf. exact IH.
Qed.

(** X14.  In every world the server reaches through the four routes that
    write, no two stored users have the same email, even up to letter
    case, and no two have the same id: the emails are stored as the
    schemas leave them, lower case and trimmed, and the table takes an
    email once.  A login email in any letter case therefore names at most
    one account. *)
Theorem accounts_are_unique_up_to_case (w : World) :
  reachable boot env w ->
  emails_distinct_up_to_case (db w)
  /\ NoDup (map user_id (users (db w)))
  /\ forall address u1 u2,
      In u1 (users (db w)) -> In u2 (users (db w)) ->
      normalize_email address = user_email u1 ->
      normalize_email address = user_email u2 ->
      u1 = u2.
Proof.
  intros Hreach.
  destruct (reachable_users_wf w Hreach) as (He & Hi & _).
  destruct (reachable_invariants boot env w Hreach) as [_ Hnorm].
  unfold emails_normalized in Hnorm. rewrite Forall_forall in Hnorm.
  split; [|split; [exact Hi|]].
  - intros u1 u2 H1 H2 Hlow.
    apply (NoDup_map_injective user_email _ u1 u2 He H1 H2).
    rewrite <- (Hnorm u1 H1), <- (Hnorm u2 H2). unfold normalize_email.
    rewrite Hlow. reflexivity.
  - intros address u1 u2 H1 H2 E1 E2.
    apply (NoDup_map_injective user_email _ u1 u2 He H1 H2). congruence.
Qed.

Lemma issued_in_clock (w w' : World) (row : RefreshTokenRow) :
  clock w = clock w' -> issued_in boot env w row -> issued_in boot env w' row.
Proof.
  intros Hc (user & Ht & He). exists user. split.
  - rewrite <- (generateRefreshToken_clock boot user w w' Hc). exact Ht.
  - rewrite <- (getTokenExpirationTime_clock _ w w' Hc). exact He.
Qed.

(** A row that is in the ledger after the end of register, login or
    refresh was there before, or has just been issued. *)
Lemma issue_and_store_issued (user : User) (prepare : M unit)
      (fields : list (string * LogValue)) (msg : string)
      (respond : string -> string -> Response)
      (lf : Js.Error -> list (string * LogValue)) (lmsg lerr : string)
      (w wp : World) (row : RefreshTokenRow) :
  prepare w = (Return tt, wp) ->
  clock wp = clock w ->
  incl (refreshTokens (db wp)) (refreshTokens (db w)) ->
  In row (refreshTokens
            (db (snd (try_catch (issue_and_store boot env user prepare fields msg respond)
                                (failed lf lmsg lerr) w)))) ->
  In row (refreshTokens (db w)) \/ issued_in boot env w row.
Proof.
  intros Hprep Hclock Hincl.
  rewrite (issue_and_store_steps boot env user prepare fields msg respond _ w wp Hprep).
  destruct (fst (generateAccessToken boot (omit_password user) w)) as [a|e1];
    [|rewrite failed_eval; simpl; auto].
  destruct (fst (generateRefreshToken boot (omit_password user) w)) as [n|e2] eqn:En;
    [|rewrite failed_eval; simpl; auto].
  destruct (fst (getTokenExpirationTime (refreshLifetime env) wp)) as [d|e3] eqn:Ed;
    [|rewrite failed_eval; simpl; intros Hin; left; apply Hincl; exact Hin].
  destruct (insert_refreshToken_cases (user_id user) n d wp)
    as [(e & -> & Hfresh & Hins)|[(err & Hins)|(err & Hins)]]; rewrite Hins.
  - simpl. rewrite in_app_iff. intros [Hin|[<-|[]]].
    + left. apply Hincl. exact Hin.
    + right. exists (omit_password user). simpl. split; [exact En|].
      rewrite <- (getTokenExpirationTime_clock _ wp w Hclock). exact Ed.
  - rewrite failed_eval. simpl. intros Hin. left. apply Hincl. exact Hin.
  - rewrite failed_eval. simpl. intros Hin. left. apply Hincl. exact Hin.
Qed.

Lemma serve_issued (time : Z) (r : Request) (w : World) (row : RefreshTokenRow) :
  In row (refreshTokens (db (snd (serve boot env time r w)))) ->
  In row (refreshTokens (db w)) \/ issued_in boot env (with_clock time w) row.
Proof.
  set (wt := with_clock time w).
  change (refreshTokens (db w)) with (refreshTokens (db wt)).
  destruct r as [b|b|b|b]; unfold serve; fold wt.
  - unfold post_register, validateBody.
    destruct (registerSchema b) as [issues|b']; [simpl; auto|].
    destruct (user_with_email (reg_email b') wt) as [u|] eqn:Hu.
    { rewrite (register_duplicate boot env b' wt u Hu). simpl. auto. }
    rewrite (register_new_email boot env b' wt Hu).
    set (u := new_user _ _ _ wt). set (wu := with_db (with_user u (db wt)) wt).
    intros Hin.
    destruct (issue_and_store_issued u (ret tt) _ _ _ _ _ _ wu wu row eq_refl eq_refl
                (incl_refl _) Hin) as [Hold|Hnew].
    + left. exact Hold.
    + right. apply (issued_in_clock wu wt row eq_refl Hnew).
  - unfold post_login, validateBody.
    destruct (loginSchema b) as [issues|b']; [simpl; auto|].
    destruct (user_with_email (login_email b') wt) as [u|] eqn:Hu.
    2:{ rewrite (login_user_not_found boot env b' wt Hu). simpl. auto. }
    destruct (user_isActive u) eqn:Ha.
    2:{ rewrite (login_inactive boot env b' wt u Hu Ha). simpl. auto. }
    destruct (bcrypt_compare (login_password b') (user_password u)) eqn:Hp.
    2:{ rewrite (login_invalid_password boot env b' wt u Hu Ha Hp). simpl. auto. }
    rewrite (login_valid_password boot env b' wt u Hu Ha Hp).
    apply (issue_and_store_issued u (ret tt) _ _ _ _ _ _ wt wt row eq_refl eq_refl
             (incl_refl _)).
  - unfold post_refresh, validateBody.
    destruct (refreshTokenSchema b) as [issues|b']; [simpl; auto|].
    rewrite refreshToken_cases.
    destruct (fst (jwt_verify _ _ wt)) as [payload|e]; [|simpl; auto].
    destruct (row_with_token (refreshToken_field b') wt) as [old|]; [|simpl; auto].
    destruct (clock wt >? rt_expiresAt old).
    { simpl. intros Hin. left. apply (filter_incl _ _ _ Hin). }
    destruct (user_with_id (userId payload) wt) as [user|]; [|simpl; auto].
    unfold rotation.
    apply (issue_and_store_issued user (Query.delete_refreshToken_by_id (rt_id old))
             _ _ _ _ _ _ wt (with_db (without_row (rt_id old) (db wt)) wt) row
             (delete_by_id_eval (rt_id old) wt) eq_refl).
    apply filter_incl.
  - unfold post_logout, validateBody.
    destruct (refreshTokenSchema b) as [issues|b']; [simpl; auto|].
    intros Hin. left. apply (logout_rows None b' wt row Hin).
Qed.

Context {LAWS : JsonWebTokenLaws JWT}.

Lemma unit_length_seconds (unit : ascii) :
  is_unit unit = true -> unit_length unit = 1000 * unit_seconds unit.
Proof.
  intros H. apply is_unit_In in H. simpl in H.
  destruct H as [<-|[<-|[<-|[<-|[]]]]]; reflexivity.
Qed.

(** With agreeing lifetimes, a row that has just been issued expires no
    earlier than its token. *)
Lemma issued_in_outlives (amount : string) (unit : ascii) (w : World)
      (row : RefreshTokenRow) :
  lifetimes_agree boot env amount unit ->
  issued_in boot env w row ->
  exists p e,
    jwt_decode (rt_token row) (JWT_REFRESH_SECRET boot) = inr p /\
    exp p = Some e /\
    e * 1000 <= rt_expiresAt row.
Proof.
  intros (Hboot & Henv & Hne & Hd & Hu & Hlen & Hsmall) (user & Ht & He).
  unfold generateRefreshToken, jwt_sign, bind, now, ret in Ht.
  rewrite Hboot, (jwt_timespan_unit amount unit Hne Hd Hu Hlen Hsmall) in Ht.
  simpl in Ht. inversion Ht as [Htok]. clear Ht.
  rewrite Henv, (getTokenExpirationTime_shape w _ _ Hne Hd (proj1 (is_unit_In _) Hu))
    in He.
  simpl in He. unfold Js.new_Date in He.
  destruct (_ <=? Js.max_time); [|discriminate].
  inversion He as [Hexp]. clear He.
  eexists _, _. split; [apply jwt_decode_encode|]. split; [reflexivity|].
  rewrite (unit_length_seconds _ Hu).
  pose proof (Z.mul_div_le (clock w) 1000 ltac:(lia)). lia.
Qed.

Lemma serve_keeps_rows_outlive (amount : string) (unit : ascii)
      (time : Z) (r : Request) (w : World) :
  lifetimes_agree boot env amount unit ->
  rows_outlive_tokens boot (db w) ->
  rows_outlive_tokens boot (db (snd (serve boot env time r w))).
Proof.
  intros Hagree Hw. unfold rows_outlive_tokens in *. rewrite Forall_forall in *.
  intros row Hin. destruct (serve_issued time r w row Hin) as [Hold|Hnew].
  - apply Hw. exact Hold.
  - apply (issued_in_outlives amount unit _ row Hagree Hnew).
Qed.

Lemma reachable_rows_outlive (amount : string) (unit : ascii) (w : World) :
  lifetimes_agree boot env amount unit ->
  reachable boot env w -> rows_outlive_tokens boot (db w).
Proof.
  intros Hagree. induction 1 as [time|time r w Hreach IH].
  - constructor.
  - apply (serve_keeps_rows_outlive amount unit); assumption.
Qed.

(** X15.  When the lifetime [jwt.sign] is given for refresh tokens and
    the lifetime the controller stores rows with are the same string, a
    run of digits and a unit, every ledger row the server ever holds
    expires no earlier than the token it carries: the [exp] claim of the
    token, in milliseconds, is at most the row's [expiresAt].  So at every
    clock reading at which the expiry test of [refreshToken] would find a
    row expired, [verifyRefreshToken] already returns [null] for the row's
    token, with [jwt expired] in the log. *)
Theorem ledger_rows_outlive_their_tokens
        (amount : string) (unit : ascii) (w : World) :
  lifetimes_agree boot env amount unit ->
  reachable boot env w ->
  rows_outlive_tokens boot (db w)
  /\ forall row w',
      In row (refreshTokens (db w)) ->
      rt_expiresAt row < clock w' ->
      verifyRefreshToken boot (rt_token row) w'
      = (Return None, warned "Refresh token verification failed" "jwt expired" w').
Proof.
  intros Hagree Hreach.
  pose proof (reachable_rows_outlive amount unit w Hagree Hreach) as Hrows.
  split; [exact Hrows|].
  intros row w' Hin Hpast.
  unfold rows_outlive_tokens in Hrows. rewrite Forall_forall in Hrows.
  destruct (Hrows row Hin) as (p & e & Hdec & He & Hle).
  rewrite verifyRefreshToken_caught.
  unfold jwt_verify, bind, now, throw, ret. rewrite Hdec, He.
  destruct (clock w' / 1000 >=? e) eqn:Hge; [reflexivity|].
  exfalso. rewrite Z.geb_leb in Hge. apply Z.leb_gt in Hge.
  pose proof (Z.mul_succ_div_gt (clock w') 1000 ltac:(lia)). lia.
Qed.

End Reachable.

(** X14 run on the server after two registrations, [JOHN@X.com] and
    [Jane@X.com]: two users, told apart by email and by id. *)
Lemma accounts_are_unique_up_to_case_witness :
  map user_email (users (db after_two_registrations)) = ["john@x.com"; "jane@x.com"]
  /\ map user_id (users (db after_two_registrations)) = [1; 2]
  /\ emails_distinct_up_to_case (db after_two_registrations)
  /\ NoDup (map user_id (users (db after_two_registrations))).
Proof.
  destruct (accounts_are_unique_up_to_case
              (JWT := Plain.jwt) (BCRYPT := Plain.bcrypt) (ZOD := Plain.zod)
              empty_env empty_env after_two_registrations) as (Hemails & Hids & _).
  - unfold after_two_registrations, after_registration.
    apply reachable_serve. apply reachable_serve. apply reachable_start.
  - split; [vm_compute; reflexivity|]. split; [vm_compute; reflexivity|].
    split; assumption.
Defined.

(** X15 run with the default lifetime, [7d] on both sides, on John's row
    after his registration: one millisecond past the row's expiry the token
    is refused by [jwt.verify]. *)
Lemma ledger_rows_outlive_their_tokens_witness :
  let row := mkRefreshTokenRow 1 1 (john_token 1700000000) 1700604800123 1700000000123 in
  In row (refreshTokens (db after_registration))
  /\ fst (verifyRefreshToken (JWT := Plain.jwt) empty_env (rt_token row)
                             (quiet 1700604800124))
     = Return None.
Proof.
  intros row.
  assert (Hin : In row (refreshTokens (db after_registration)))
    by (vm_compute; left; reflexivity).
  split; [exact Hin|].
  destruct (ledger_rows_outlive_their_tokens
              (JWT := Plain.jwt) (BCRYPT := Plain.bcrypt) (ZOD := Plain.zod)
              (LAWS := plain_jwt_laws) empty_env empty_env "7" "d"%char
              after_registration) as [_ Hlate].
  - repeat split; try reflexivity; discriminate.
  - unfold after_registration. apply reachable_serve. apply reachable_start.
  - rewrite (Hlate row (quiet 1700604800124) Hin); [reflexivity|].
    vm_compute. reflexivity.
Defined.

(* ================================================================== *)
(** * Further properties: validation, and registration then login *)
(* ================================================================== *)

Lemma trimStart_blank (s : string) :
  Js.all Js.is_space s = true -> Js.trimStart s = EmptyString.
Proof.
  induction s as [|c s IH]; simpl; intros H; [reflexivity|].
  apply andb_true_iff in H as [Hc Hs]. rewrite Hc. apply IH. exact Hs.
Qed.

Lemma any_first_line (p : ascii -> bool) (s : string) :
  Js.any p (first_line s) = true -> Js.any p s = true.
Proof.
  induction s as [|c s IH]; simpl; intros H; [discriminate|].
  destruct (Js.is_line_terminator c); [discriminate|]. simpl in H.
  apply orb_true_iff in H as [H|H]; apply orb_true_iff; [left|right]; auto.
Qed.

Section Validation.

Context {ZOD : Zod}.

Lemma registerSchema_ok (b : RegisterInput) :
  register_body_ok b ->
  registerSchema b
  = inr (mkRegisterInput (Js.trim (reg_name b)) (Js.trim (Js.toLowerCase (reg_email b)))
                         (reg_password b)).
Proof.
  intros ([Hn1 Hn2] & He & Hel & [Hp1 Hp2] & Hr). unfold registerSchema, check.
  apply Z.leb_le in Hn1, Hn2, Hel, Hp1, Hp2.
  rewrite Hn1, Hn2, He, Hel, Hp1, Hp2, Hr. reflexivity.
Qed.

Lemma registerSchema_not_ok (b : RegisterInput) :
  ~ register_body_ok b ->
  exists issue issues, registerSchema b = inl (issue :: issues).
Proof.
  intros Hnot. unfold registerSchema, check.
  destruct (1 <=? Js.len (reg_name b)) eqn:E1; [|eexists _, _; reflexivity].
  destruct (Js.len (reg_name b) <=? 255) eqn:E2; [|eexists _, _; reflexivity].
  destruct (zod_is_email (reg_email b)) eqn:E3; [|eexists _, _; reflexivity].
  destruct (Js.len (reg_email b) <=? 255) eqn:E4; [|eexists _, _; reflexivity].
  destruct (6 <=? Js.len (reg_password b)) eqn:E5; [|eexists _, _; reflexivity].
  destruct (Js.len (reg_password b) <=? 100) eqn:E6; [|eexists _, _; reflexivity].
  destruct (password_regex (reg_password b)) eqn:E7; [|eexists _, _; reflexivity].
  exfalso. apply Hnot. apply Z.leb_le in E1, E2, E4, E5, E6.
  repeat split; assumption.
Qed.

(** X16.  [registerSchema] accepts a body exactly when the name has 1 to
    255 characters, the email passes the email test and has at most 255,
    and the password has 6 to 100 and its first line holds a lower-case
    letter, a capital and a digit; all of it measured on the strings as
    they came.  What the handler gets is the name trimmed, the email in
    lower case and trimmed, and the password untouched.  Since the name is
    measured before it is trimmed, a name made of blanks passes [Name is
    required] and reaches the handler as the empty string. *)
Theorem registerSchema_accepts (b : RegisterInput) :
  ((exists b', registerSchema b = inr b') <-> register_body_ok b)
  /\ (forall b',
         registerSchema b = inr b' ->
         reg_name b' = Js.trim (reg_name b) /\
         reg_email b' = Js.trim (Js.toLowerCase (reg_email b)) /\
         reg_password b' = reg_password b /\
         Js.any Js.is_lower (reg_password b) = true /\
         Js.any Js.is_upper (reg_password b) = true /\
         Js.any Js.is_digit (reg_password b) = true /\
         (Js.all Js.is_space (reg_name b) = true -> reg_name b' = EmptyString)).
Proof.
  assert (Hiff : (exists b', registerSchema b = inr b') -> register_body_ok b).
  { intros [b' Hb].
    assert (Hdec : register_body_ok b \/ ~ register_body_ok b).
    { unfold register_body_ok.
      destruct (1 <=? Js.len (reg_name b)) eqn:E1;
        [apply Z.leb_le in E1|apply Z.leb_gt in E1; right; lia].
      destruct (Js.len (reg_name b) <=? 255) eqn:E2;
        [apply Z.leb_le in E2|apply Z.leb_gt in E2; right; lia].
      destruct (zod_is_email (reg_email b)) eqn:E3; [|right; intros (_ & H & _); discriminate].
      destruct (Js.len (reg_email b) <=? 255) eqn:E4;
        [apply Z.leb_le in E4|apply Z.leb_gt in E4; right; lia].
      destruct (6 <=? Js.len (reg_password b)) eqn:E5;
        [apply Z.leb_le in E5|apply Z.leb_gt in E5; right; lia].
      destruct (Js.len (reg_password b) <=? 100) eqn:E6;
        [apply Z.leb_le in E6|apply Z.leb_gt in E6; right; lia].
      destruct (password_regex (reg_password b)) eqn:E7;
        [|right; intros (_ & _ & _ & _ & H); discriminate].
      left. repeat split; assumption. }
    destruct Hdec as [Hok|Hnot]; [exact Hok|].
    destruct (registerSchema_not_ok b Hnot) as (issue & issues & Hbad). congruence. }
  split.
  - split; [exact Hiff|]. intros Hok. eexists. apply registerSchema_ok. exact Hok.
  - intros b' Hb.
    pose proof (Hiff (ex_intro _ b' Hb)) as Hok.
    rewrite (registerSchema_ok b Hok) in Hb. inversion Hb; subst b'. clear Hb.
    cbn [reg_name reg_email reg_password].
    destruct Hok as (_ & _ & _ & _ & Hr). unfold password_regex in Hr.
    apply andb_true_iff in Hr as [Hr Hd]. apply andb_true_iff in Hr as [Hl Hu].
    repeat split; try (apply any_first_line; assumption).
    intros Hblank. unfold Js.trim. rewrite (trimStart_blank _ Hblank). reflexivity.
Qed.

End Validation.

Section RegisterThenLogin.

Context {JWT : JsonWebToken} {BCRYPT : Bcrypt} {ZOD : Zod}.
Variable boot : ProcessEnv.
Variable env : ProcessEnv.

(** X17.  A body that fails validation is handed to the logger whole.
    When [registerSchema] or [loginSchema] refuses the body, [POST /register]
    and [POST /login] answer 400 [Validation failed] with the issues as
    details; the handler does not run, the database and the clock are as
    they were, and exactly one entry is added to the log: at level warn,
    with the message [Body validation failed], the issues, and the body as
    it came, name, email and password, the password in the clear. *)
Theorem rejected_body_is_logged_with_its_password (w : World) :
  (forall b issues,
      registerSchema b = inl issues ->
      post_register boot env b w
      = (Return (mkResponse 400 (mkApiResponse false None (Some "Validation failed")
                                               None (Some issues))),
         mkWorld (db w)
                 (log w ++ [mkLog Warn
                                  [("errors", LIssues issues);
                                   ("body", LObject [("name", reg_name b);
                                                     ("email", reg_email b);
                                                     ("password", reg_password b)])]
                                  "Body validation failed"])
                 (clock w))
      /\ logs_member "password" (reg_password b)
                     (snd (post_register boot env b w)))
  /\ (forall b issues,
         loginSchema b = inl issues ->
         post_login boot env b w
         = (Return (mkResponse 400 (mkApiResponse false None (Some "Validation failed")
                                                  None (Some issues))),
            mkWorld (db w)
                    (log w ++ [mkLog Warn
                                     [("errors", LIssues issues);
                                      ("body", LObject [("email", login_email b);
                                                        ("password", login_password b)])]
                                     "Body validation failed"])
                    (clock w))
         /\ logs_member "password" (login_password b)
                        (snd (post_login boot env b w))).
Proof.
  split; intros b issues Hb.
  - unfold post_register, validateBody. rewrite Hb. unfold bind. rewrite logger_eval.
    split; [reflexivity|].
    eexists _, _. split; [apply in_or_app; right; left; reflexivity|].
    split; [right; left; reflexivity|]. simpl. auto.
  - unfold post_login, validateBody. rewrite Hb. unfold bind. rewrite logger_eval.
    split; [reflexivity|].
    eexists _, _. split; [apply in_or_app; right; left; reflexivity|].
    split; [right; left; reflexivity|]. simpl. auto.
Qed.

Context {HASHES : BcryptLaws BCRYPT}.


End RegisterThenLogin.


(* ================================================================== *)
(** * Rotation, by the clock *)
(* ================================================================== *)

Section RotationByTheClock.

Context {JWT : JsonWebToken} {BCRYPT : Bcrypt} {ZOD : Zod}.
Context {LAWS : JsonWebTokenLaws JWT}.
Variable boot : ProcessEnv.
Variable env : ProcessEnv.

Lemma jwt_verify_decode (token secret : string) (w : World) (claims : JwtPayload) :
  fst (jwt_verify token secret w) = Return claims ->
  jwt_decode token secret = inr claims.
Proof.
  unfold jwt_verify, bind, now, throw, ret.
  destruct (jwt_decode token secret) as [e|p]; [discriminate|].
  destruct (exp p) as [x|].
  - destruct (clock w / 1000 >=? x); [discriminate|]. simpl. congruence.
  - simpl. congruence.
Qed.

(** A refresh token issued in another second than [token] was is another
    string. *)
Lemma issued_token_differs (token : string) (claims : JwtPayload)
      (user : SafeUser) (newRefreshToken : string) (w : World) :
  jwt_decode token (JWT_REFRESH_SECRET boot) = inr claims ->
  iat claims <> Some (clock w / 1000) ->
  fst (generateRefreshToken boot user w) = Return newRefreshToken ->
  newRefreshToken <> token.
Proof.
  intros Hdec Hiat Hgen ->. unfold generateRefreshToken, jwt_sign, bind, now, ret in Hgen.
  destruct (jwt_timespan (JWT_REFRESH_EXPIRES_IN boot)) as [e|span];
    [discriminate|].
  simpl in Hgen. inversion Hgen as [Htok]. rewrite <- Htok, jwt_decode_encode in Hdec.
  inversion Hdec; subst claims. simpl in Hiat. congruence.
Qed.

(** The refresh token in a response is one [generateRefreshToken] made
    during the request. *)
Lemma issue_and_store_hands_out (user : User) (prepare : M unit)
      (fields : list (string * LogValue)) (msg : string)
      (respond : string -> string -> Response)
      (lf : Js.Error -> list (string * LogValue)) (lmsg lerr : string)
      (w wp : World) (handed : string) :
  prepare w = (Return tt, wp) ->
  (forall a n, refresh_token_of (Return (respond a n)) = Some n) ->
  refresh_token_of
    (fst (try_catch (issue_and_store boot env user prepare fields msg respond)
                    (failed lf lmsg lerr) w)) = Some handed ->
  fst (generateRefreshToken boot (omit_password user) w) = Return handed.
Proof.
  intros Hprep Hresp.
  rewrite (issue_and_store_steps boot env user prepare fields msg respond _ w wp Hprep).
  destruct (fst (generateAccessToken boot (omit_password user) w)) as [a|e1];
    [|rewrite failed_eval; simpl; discriminate].
  destruct (fst (generateRefreshToken boot (omit_password user) w)) as [n|e2];
    [|rewrite failed_eval; simpl; discriminate].
  destruct (fst (getTokenExpirationTime (refreshLifetime env) wp)) as [d|e3];
    [|rewrite failed_eval; simpl; discriminate].
  destruct (Query.insert_refreshToken (user_id user) n d wp) as [[[]|e4] wi].
  - cbn [fst]. rewrite Hresp. congruence.
  - rewrite failed_eval. simpl. discriminate.
Qed.

Lemma serve_hands_out (time : Z) (r : Request) (w : World) (handed : string) :
  refresh_token_of (fst (serve boot env time r w)) = Some handed ->
  exists user, fst (generateRefreshToken boot user (with_clock time w)) = Return handed.
Proof.
  set (wt := with_clock time w).
  destruct r as [b|b|b|b]; unfold serve; fold wt.
  - unfold post_register, validateBody.
    destruct (registerSchema b) as [issues|b']; [simpl; discriminate|].
    destruct (user_with_email (reg_email b') wt) as [u|] eqn:Hu.
    { rewrite (register_duplicate boot env b' wt u Hu). simpl. discriminate. }
    rewrite (register_new_email boot env b' wt Hu).
    set (u := new_user _ _ _ wt). set (wu := with_db (with_user u (db wt)) wt).
    intros Hout. exists (omit_password u).
    rewrite (generateRefreshToken_clock boot _ wt wu eq_refl).
    eapply issue_and_store_hands_out; cycle 2;
      [exact Hout|reflexivity|intros; reflexivity].
  - unfold post_login, validateBody.
    destruct (loginSchema b) as [issues|b']; [simpl; discriminate|].
    destruct (user_with_email (login_email b') wt) as [u|] eqn:Hu.
    2:{ rewrite (login_user_not_found boot env b' wt Hu). simpl. discriminate. }
    destruct (user_isActive u) eqn:Ha.
    2:{ rewrite (login_inactive boot env b' wt u Hu Ha). simpl. discriminate. }
    destruct (bcrypt_compare (login_password b') (user_password u)) eqn:Hp.
    2:{ rewrite (login_invalid_password boot env b' wt u Hu Ha Hp). simpl.
        discriminate. }
    rewrite (login_valid_password boot env b' wt u Hu Ha Hp).
    intros Hout. exists (omit_password u).
    eapply issue_and_store_hands_out; cycle 2;
      [exact Hout|reflexivity|intros; reflexivity].
  - unfold post_refresh, validateBody.
    destruct (refreshTokenSchema b) as [issues|b']; [simpl; discriminate|].
    rewrite refreshToken_cases.
    destruct (fst (jwt_verify _ _ wt)) as [payload|e]; [|simpl; discriminate].
    destruct (row_with_token (refreshToken_field b') wt) as [old|];
      [|simpl; discriminate].
    destruct (clock wt >? rt_expiresAt old); [simpl; discriminate|].
    destruct (user_with_id (userId payload) wt) as [user|]; [|simpl; discriminate].
    unfold rotation. intros Hout. exists (omit_password user).
    eapply issue_and_store_hands_out; cycle 2;
      [exact Hout|apply delete_by_id_eval|intros; reflexivity].
  - unfold post_logout, validateBody.
    destruct (refreshTokenSchema b) as [issues|b']; [simpl; discriminate|].
    rewrite logout_eval. simpl. discriminate.
Qed.

(** Requests served in other seconds than [token] was issued in do not
    hand [token] out. *)
Lemma serve_all_hands_out (token : string) (claims : JwtPayload)
      (later : list (Z * Request)) :
  jwt_decode token (JWT_REFRESH_SECRET boot) = inr claims ->
  (forall at_ r, In (at_, r) later -> iat claims <> Some (at_ / 1000)) ->
  forall w o,
    In o (fst (serve_all boot env later w)) -> refresh_token_of o <> Some token.
Proof.
  intros Hdec. induction later as [|[time r] rest IH]; intros Hwhen w o Hin.
  - destruct Hin.
  - cbn [serve_all] in Hin.
    destruct (serve boot env time r w) as [o1 w'] eqn:Hserve.
    destruct (serve_all boot env rest w') as [os w''] eqn:Hrest.
    cbn [fst] in Hin. destruct Hin as [<-|Hin].
    + intros Hout.
      destruct (serve_hands_out time r w token) as [user Hgen].
      { rewrite Hserve. exact Hout. }
      apply (issued_token_differs token claims user token (with_clock time w) Hdec);
        [|exact Hgen|reflexivity].
      apply (Hwhen time r). left. reflexivity.
    + apply (IH (fun at_ r' H => Hwhen at_ r' (or_intror H)) w' o).
      rewrite Hrest. exact Hin.
Qed.


End RotationByTheClock.


